(** * finch: text classifiers on a graph-execution framework

    A shallow embedding of the two classifier classes of the repository,
    [RNNTextClassifier] (nlp-models/tensorflow/rnn_attn_text_clf.py) and
    [Conv1DClassifier] (tensorflow-models/cnn/conv_1d_text_clf.py).

    Conventions.
    - Python integers are [Z]; lengths are [nat] and are injected with
      [Z.of_nat] where Python mixes them with integers. [/] is Python 3's
      true division.
    - Python and numpy floating-point values are idealised as real numbers
      [R]: [math.exp], [math.log], [tf.exp], [tf.tanh] become [exp], [ln],
      [tanh]. The idealisation is exact up to rounding only while every
      intermediate value stays within the range of the floats; a property
      about such values carries that range as a hypothesis
      ([float_sized], [within_schedule], [float32_scores]).
    - A Python exception is a value [Err e] of the [result] type.
    - [build_graph] is embedded twice: as the symbolic graph it builds
      (modules [Build], terms of type [Graph.tensor]) and, for the stages
      the properties are about, as the values those stages compute
      (modules [Forward], nested lists of reals).
    - Running the graph in a session is the framework's part; it appears
      as the operations of the classes [Session], over which [fit] and
      [predict] are parametrised. A run of the convolutional graph can
      raise, so the operations of [Conv1DClassifier.Session] return a
      [result]. *)

From Stdlib Require Import String Bool ZArith Lia Reals Lra List.
Import ListNotations.

Set Implicit Arguments.

(** ** Exceptions and the error monad *)

Inductive exn : Type :=
| ValueError          (* range() arg 3 must not be zero; np.vstack of nothing *)
| ZeroDivisionError   (* division by zero in list_avg *)
| UnboundLocalError   (* a local read before any assignment *)
| AttributeError      (* an attribute read before any assignment *)
| TypeError           (* a value of the wrong kind *)
| InvalidArgumentError. (* a run of the graph on values a kernel rejects *)

Inductive result (A : Type) : Type :=
| Ok (a : A)
| Err (e : exn).
Arguments Ok {A} a.
Arguments Err {A} e.

Definition bind {A B : Type} (r : result A) (k : A -> result B) : result B :=
  match r with
  | Ok a => k a
  | Err e => Err e
  end.

Declare Scope result_scope.
Delimit Scope result_scope with result.
Notation "x <- r ;; k" := (bind r (fun x => k))
  (at level 61, r at next level, right associativity) : result_scope.
Notation "' p <- r ;; k" := (bind r (fun x => let p := x in k))
  (at level 61, p pattern, r at next level, right associativity) : result_scope.

Definition is_ok {A : Type} (r : result A) : bool :=
  match r with Ok _ => true | Err _ => false end.


(** ** List helpers *)

(** [chunks fuel n l]: [l] cut from the left into pieces of [n] elements, the
    last piece possibly shorter; [fuel] bounds the number of pieces. *)
Fixpoint chunks {A : Type} (fuel n : nat) (l : list A) : list (list A) :=
  match fuel with
  | O => []
  | S fuel' =>
      match l with
      | [] => []
      | _ => firstn n l :: chunks fuel' n (skipn n l)
      end
  end.


(** ** Minibatch slicing: [range], slices and [gen_batch] *)

Module Batching.

Local Open Scope Z_scope.

(** [range(start, stop, step)] unrolled: at most [fuel] elements. *)
Fixpoint range_from (fuel : nat) (i stop step : Z) : list Z :=
  match fuel with
  | O => []
  | S fuel' =>
      if (if 0 <? step then i <? stop else stop <? i)
      then i :: range_from fuel' (i + step) stop step
      else []
  end.

(** Python's [range]: a zero step raises [ValueError]; since [|step| >= 1]
    the distance [|stop - start|] bounds the number of elements. *)
Definition range (start stop step : Z) : result (list Z) :=
  if step =? 0 then Err ValueError
  else Ok (range_from (Z.abs_nat (stop - start)) start stop step).

(** Python's normalisation of a slice bound against a length. *)
Definition norm_index (len i : Z) : Z :=
  if i <? 0 then Z.max 0 (i + len) else Z.min i len.

(** [arr[i : j]] *)
Definition slice {A : Type} (arr : list A) (i j : Z) : list A :=
  let len := Z.of_nat (length arr) in
  let lo := norm_index len i in
  let hi := norm_index len j in
  firstn (Z.to_nat (hi - lo)) (skipn (Z.to_nat lo) arr).

(** [gen_batch(arr, batch_size)], the same in both classes:
<<
    for i in range(0, len(arr), batch_size):
        yield arr[i : i+batch_size]
>>
    The generator is represented by the list of what it yields. *)
Definition gen_batch {A : Type} (arr : list A) (batch_size : Z)
  : result (list (list A)) :=
  (idx <- range 0 (Z.of_nat (length arr)) batch_size ;;
   Ok (map (fun i => slice arr i (i + batch_size)) idx))%result.

(** [zip] of two generators stops with the shorter one. *)
Definition zip {A B : Type} (xs : list A) (ys : list B) : list (A * B) :=
  combine xs ys.

End Batching.


(** ** Scalar helpers shared by both classes *)

Module Py.

Local Open Scope R_scope.

(** Python's built-in [sum]: a left fold starting from [0]. *)
Definition sum (l : list R) : R := fold_left Rplus l 0.

(** [len(l)] as a number. *)
Definition len {A : Type} (l : list A) : R := INR (length l).

(** The unweighted arithmetic mean: sum over count. *)
Definition mean (l : list R) : R := sum l / len l.

End Py.


(** ** Values of the framework's tensor operations

    Tensors are nested lists of reals, outermost axis first. An operation
    whose result shape depends on a static dimension takes that dimension
    as an argument, since a nested list with an empty axis does not record
    the sizes of the axes below it. *)

Module TF.

Local Open Scope R_scope.

Definition vector := list R.
Definition matrix := list (list R).
Definition tensor3 := list (list (list R)).

(** [tf.reduce_sum] over the innermost axis of one row. *)
Definition reduce_sum (v : vector) : R := fold_right Rplus 0 v.

Definition dot (u v : vector) : R :=
  reduce_sum (map (fun p => fst p * snd p) (combine u v)).

(** Column [j] of a matrix. *)
Definition column (j : nat) (m : matrix) : vector :=
  map (fun row => nth j row 0) m.

(** [tf.matmul] of an [m x k] by a [k x n] matrix; [n] is static. *)
Definition matmul (n : nat) (a b : matrix) : matrix :=
  map (fun row => map (fun j => dot row (column j b)) (seq 0 n)) a.

(** Batched [tf.matmul]: one product per example. *)
Definition matmul3 (n : nat) (a b : tensor3) : tensor3 :=
  map (fun p => matmul n (fst p) (snd p)) (combine a b).

(** [tf.transpose] of a matrix with [n] columns. *)
Definition transpose (n : nat) (m : matrix) : matrix :=
  map (fun j => column j m) (seq 0 n).

(** [tf.transpose(t, [0, 2, 1])] of a tensor whose last axis has size [n]. *)
Definition transpose_021 (n : nat) (t : tensor3) : tensor3 :=
  map (transpose n) t.

(** [tf.expand_dims(m, 2)]: (a, b) to (a, b, 1). *)
Definition expand_dims_2 (m : matrix) : tensor3 :=
  map (map (fun x => [x])) m.

(** [tf.squeeze(t, 2)]: (a, b, 1) to (a, b). *)
Definition squeeze_2 (t : tensor3) : matrix :=
  map (map (fun cell => hd 0 cell)) t.

(** [tf.reshape(t, [-1, n])] of a rank-3 tensor: row-major order is kept
    and the elements are regrouped [n] at a time. *)
Definition reshape_rows (n : nat) (t : tensor3) : matrix :=
  let flat := concat (concat t) in
  chunks (length flat) n flat.

(** Elementwise [tf.tanh] and [tf.exp]. *)
Definition tanh3 (t : tensor3) : tensor3 := map (map (map tanh)) t.
Definition exp2 (m : matrix) : matrix := map (map exp) m.

(** [tf.reduce_sum(m, 1, keep_dims=True)]: (a, b) to (a, 1). *)
Definition reduce_sum_1_keep (m : matrix) : matrix :=
  map (fun row => [reduce_sum row]) m.

(** [m / s] with [s] of shape (a, 1) broadcast along axis 1. *)
Definition div_broadcast_1 (m s : matrix) : matrix :=
  map (fun p => map (fun x => x / hd 0 (snd p)) (fst p)) (combine m s).

(** Maximum of a non-empty list of values. *)
Definition maximum (v : vector) : R :=
  match v with
  | [] => 0
  | x :: rest => fold_left Rmax rest x
  end.

(** [tf.nn.bias_add] and [tf.nn.relu] on one example. *)
Definition bias_add (m : matrix) (b : vector) : matrix :=
  map (fun row => map (fun p => fst p + snd p) (combine row b)) m.

Definition relu (m : matrix) : matrix := map (map (fun x => Rmax x 0)) m.

Definition valid_padding_name (padding : string) : bool :=
  String.eqb padding "VALID" || String.eqb padding "SAME".

(** Output width and left padding of a pooling or convolution window of
    size [k] and stride [s] over [len] positions; the framework rejects a
    window or stride that is not positive, a padding scheme other than
    ['VALID'] and ['SAME'], and a ['VALID'] window longer than the
    input. *)
Definition out_width (padding : string) (len : nat) (k s : Z)
  : result nat :=
  if ((k <=? 0) || (s <=? 0))%Z then Err ValueError
  else if String.eqb padding "VALID" then
    if (k <=? Z.of_nat len)%Z
    then Ok (Z.to_nat ((Z.of_nat len - k) / s + 1))
    else Err ValueError
  else if String.eqb padding "SAME" then
    Ok (Z.to_nat ((Z.of_nat len + s - 1) / s))
  else Err ValueError.

Definition pad_left (padding : string) (len : nat) (k s : Z) (out : nat)
  : nat :=
  if String.eqb padding "SAME"
  then Z.to_nat (Z.max ((Z.of_nat out - 1) * s + k - Z.of_nat len) 0 / 2)
  else 0%nat.

(** The rows of [x] seen by window [i]; padding positions are left out,
    as they never win a maximum. *)
Definition window (pad : nat) (k s : Z) (x : matrix) (i : nat) : matrix :=
  let lo := (i * Z.to_nat s - pad)%nat in
  let hi := Nat.min (length x) (i * Z.to_nat s + Z.to_nat k - pad) in
  firstn (hi - lo) (skipn lo x).

(** [tf.nn.max_pool] with [ksize=[1,1,k,1]] and [strides=[1,1,s,1]] on one
    row of one example, of shape (len, channels): a maximum per window and
    channel. *)
Definition max_pool_1k (channels : nat) (k s : Z) (padding : string)
           (x : matrix) : result matrix :=
  (out <- out_width padding (length x) k s ;;
   let pad := pad_left padding (length x) k s out in
   Ok (map (fun i =>
              map (fun c => maximum (column c (window pad k s x i)))
                  (seq 0 channels))
           (seq 0 out)))%result.

(** The padded input of a convolution: zero outside the sequence. *)
Definition padded_at (pad : nat) (x : matrix) (i c : nat) : R :=
  if (i <? pad)%nat then 0 else nth c (nth (i - pad) x []) 0.

(** [tf.nn.conv1d(value, filters, stride, padding)] on one example of
    shape (len, in_channels) with filters of shape
    (k, in_channels, out_channels). An unknown padding and a ['VALID']
    window longer than the input are rejected when the operation is built;
    with filters of width 0 the operation is built and it is the run that
    fails. *)
Definition conv1d (k in_channels out_channels : nat) (s : Z)
           (padding : string) (x : matrix) (filters : tensor3)
  : result matrix :=
  if negb (valid_padding_name padding) then Err ValueError
  else if Nat.eqb k 0 then Err InvalidArgumentError
  else
    (out <- out_width padding (length x) (Z.of_nat k) s ;;
     let pad := pad_left padding (length x) (Z.of_nat k) s out in
     Ok (map (fun t =>
                map (fun o =>
                       reduce_sum
                         (map (fun dk =>
                                 reduce_sum
                                   (map (fun c =>
                                           padded_at pad x (t * Z.to_nat s + dk) c
                                           * nth o (nth c (nth dk filters []) []) 0)
                                        (seq 0 in_channels)))
                              (seq 0 k)))
                    (seq 0 out_channels))
             (seq 0 out)))%result.

End TF.

(** The weighted sum [sum_t w_t * row_t] of the rows of a matrix with
    [n] columns, used to state what attention pooling computes. *)
Definition weighted_sum (n : nat) (w : TF.vector) (rows : TF.matrix)
  : TF.vector :=
  fold_right (fun p acc =>
                map (fun q => (fst p * fst q + snd q)%R) (combine (snd p) acc))
             (repeat 0%R n) (combine w rows).


(** ** Arrays of any rank and [tf.squeeze] *)

#[warnings="-register-all"]
Inductive ndarray : Type :=
| Scalar (x : R)
| Array (items : list ndarray).

Definition of_vector (v : TF.vector) : ndarray := Array (map Scalar v).
Definition of_matrix (m : TF.matrix) : ndarray := Array (map of_vector m).
Definition of_tensor3 (t : TF.tensor3) : ndarray := Array (map of_matrix t).
Definition of_tensor4 (t : list TF.tensor3) : ndarray :=
  Array (map of_tensor3 t).

(** [tf.squeeze(t)] without an axis: every axis of size 1 is removed. *)
Fixpoint squeeze (t : ndarray) : ndarray :=
  match t with
  | Scalar x => Scalar x
  | Array items =>
      match items with
      | [x] => squeeze x
      | _ => Array (map squeeze items)
      end
  end.

(** [mapM] of the error monad: the first error stops the traversal. *)
Fixpoint mapM {A B : Type} (f : A -> result B) (l : list A)
  : result (list B) :=
  match l with
  | [] => Ok []
  | a :: l' =>
      (b <- f a ;; bs <- mapM f l' ;; Ok (b :: bs))%result
  end.


(** ** The symbolic graph

    What the framework's graph-construction calls return: terms naming the
    operation and its inputs. Only the calls the two classes make appear. *)

Module Graph.

Inductive dtype : Type := int32 | int64 | float32.

Inductive initializer : Type :=
| random_uniform_initializer (minval maxval : Z)
| random_normal_initializer
| truncated_normal_initializer_stddev_0_1
| constant_initializer_0_1
| orthogonal_initializer.

Inductive tensor : Type :=
| Placeholder (id : nat) (dt : dtype) (shape : option (list (option Z)))
| GetVariable (name : string) (shape : list Z) (dt : dtype)
              (init : initializer)
| EmbeddingLookup (params ids : tensor)
| ZeroState (cell : rnn_cell) (batch_size : tensor) (dt : dtype)
| DynamicRnnOutputs (cell : rnn_cell) (inputs initial_state : tensor)
| DynamicRnnFinalState (cell : rnn_cell) (inputs initial_state : tensor)
| StateH (state : tensor)
| ExpandDims (t : tensor) (axis : Z)
| MatMul (a b : tensor)
| Tanh (t : tensor)
| Reshape (t : tensor) (shape : list Z)
| Exp (t : tensor)
| ReduceSum (t : tensor) (axis : Z) (keep_dims : bool)
| Div (a b : tensor)
| Transpose (t : tensor) (perm : list Z)
| Squeeze (t : tensor) (axis : option Z)
| Dense (inputs : tensor) (units : Z)
| SparseSoftmaxCrossEntropyWithLogits (logits labels : tensor)
| SoftmaxCrossEntropyWithLogits (logits labels : tensor)
| ReduceMean (t : tensor)
| ArgMax (t : tensor) (axis : Z)
| Equal (a b : tensor)
| Cast (t : tensor) (dt : dtype)
| Conv1d (value filters : tensor) (stride : Z) (padding : string)
| BiasAdd (value bias : tensor)
| Relu (t : tensor)
| MaxPool (value : tensor) (ksize strides : list Z) (padding : string)
| Dropout (t keep_prob : tensor)
with rnn_cell : Type :=
| LSTMCell (num_units : Z) (init : initializer)
| DropoutWrapper (cell : rnn_cell) (input_keep_prob : tensor).

(** [tf.train.AdamOptimizer(learning_rate).minimize(loss)]; without an
    argument the optimizer keeps its default rate. *)
Inductive operation : Type :=
| AdamMinimize (learning_rate : option tensor) (loss : tensor).

(** The default graph: placeholders are numbered in creation order. *)
Definition graph := nat.

Definition placeholder (g : graph) (dt : dtype)
           (shape : option (list (option Z))) : tensor * graph :=
  (Placeholder g dt shape, S g).

Definition valid_padding (padding : string) : bool :=
  String.eqb padding "VALID" || String.eqb padding "SAME".

(** The static shape of a tensor, for the tensors a convolution is built
    on in these sources: what the placeholder or the variable was declared
    with, and for an embedding lookup the shape of the ids followed by the
    shape of one embedding. [None] is an unknown shape or dimension. *)
Fixpoint static_shape (t : tensor) : option (list (option Z)) :=
  match t with
  | Placeholder _ _ shape => shape
  | GetVariable _ shape _ _ => Some (map Some shape)
  | EmbeddingLookup params ids =>
      match static_shape params, static_shape ids with
      | Some params_shape, Some ids_shape =>
          Some (ids_shape ++ tl params_shape)
      | _, _ => None
      end
  | _ => None
  end.

Definition static_dim (axis : nat) (t : tensor) : option Z :=
  match static_shape t with
  | Some shape => nth axis shape None
  | None => None
  end.

(** Shape inference of a ['VALID'] convolution subtracts the filter width
    from the input width and fails on a negative size. *)
Definition window_exceeds_input (value filters : tensor) : bool :=
  match static_dim 1 value, static_dim 0 filters with
  | Some width, Some k => (width <? k)%Z
  | _, _ => false
  end.

(** [tf.nn.conv1d] rejects an unknown padding and, under ['VALID'], filters
    wider than the input, both with [ValueError] when the operation is
    built. *)
Definition conv1d (value filters : tensor) (stride : Z) (padding : string)
  : result tensor :=
  if valid_padding padding then
    if String.eqb padding "VALID" && window_exceeds_input value filters
    then Err ValueError
    else Ok (Conv1d value filters stride padding)
  else Err ValueError.

(** [tf.nn.max_pool] rejects an unknown padding. *)

Definition max_pool (value : tensor) (ksize strides : list Z)
           (padding : string) : result tensor :=
  if valid_padding padding then Ok (MaxPool value ksize strides padding)
  else Err ValueError.

(** The tensors a tensor is computed from, itself included. *)
Fixpoint subterms (t : tensor) : list tensor :=
  t ::
  match t with
  | Placeholder _ _ _ | GetVariable _ _ _ _ => []
  | EmbeddingLookup a b | MatMul a b | Div a b | Equal a b
  | SparseSoftmaxCrossEntropyWithLogits a b
  | SoftmaxCrossEntropyWithLogits a b
  | BiasAdd a b | Dropout a b => subterms a ++ subterms b
  | ZeroState c a _ => cell_subterms c ++ subterms a
  | DynamicRnnOutputs c a b | DynamicRnnFinalState c a b =>
      cell_subterms c ++ subterms a ++ subterms b
  | StateH a | ExpandDims a _ | Tanh a | Reshape a _ | Exp a
  | ReduceSum a _ _ | Transpose a _ | Squeeze a _ | Dense a _
  | ReduceMean a | ArgMax a _ | Cast a _ | Relu a
  | MaxPool a _ _ _ => subterms a
  | Conv1d a b _ _ => subterms a ++ subterms b
  end
with cell_subterms (c : rnn_cell) : list tensor :=
  match c with
  | LSTMCell _ _ => []
  | DropoutWrapper c' k => cell_subterms c' ++ subterms k
  end.

(** A softmax over some scores, as the recurrent classifier spells it:
    exponentials divided by their sum. *)
Definition is_softmax (t : tensor) : bool :=
  match t with
  | Div (Exp _) (ReduceSum (Exp _) _ _) => true
  | _ => false
  end.

(** An attention-pooling step: a product of features with normalised,
    computed weights. *)
Definition is_attention_pooling (t : tensor) : bool :=
  match t with
  | MatMul _ (ExpandDims w _) => is_softmax w
  | _ => false
  end.

Definition is_max_pool (t : tensor) : bool :=
  match t with MaxPool _ _ _ _ => true | _ => false end.

Definition is_exp (t : tensor) : bool :=
  match t with Exp _ => true | _ => false end.

Definition mentions (p : tensor -> bool) (t : tensor) : bool :=
  existsb p (subterms t).

(** *** Attributes of [self] *)

Inductive value : Type :=
| VTensor (t : tensor)
| VCell (c : rnn_cell)
| VOperation (o : operation)
| VInt (z : Z)
| VNone.

(** The attributes assigned so far, latest first. *)
Definition attrs := list (string * value).

Definition setattr (name : string) (v : value) (self : attrs) : attrs :=
  (name, v) :: self.

Fixpoint getattr (name : string) (self : attrs) : result value :=
  match self with
  | [] => Err AttributeError
  | (n, v) :: rest => if String.eqb n name then Ok v else getattr name rest
  end.

Definition get_tensor (name : string) (self : attrs) : result tensor :=
  (v <- getattr name self ;;
   match v with VTensor t => Ok t | _ => Err TypeError end)%result.

Definition get_cell (name : string) (self : attrs) : result rnn_cell :=
  (v <- getattr name self ;;
   match v with VCell c => Ok c | _ => Err TypeError end)%result.

Definition get_int (name : string) (self : attrs) : result Z :=
  (v <- getattr name self ;;
   match v with VInt z => Ok z | _ => Err TypeError end)%result.

Definition get_operation (name : string) (self : attrs)
  : result operation :=
  (v <- getattr name self ;;
   match v with VOperation o => Ok o | _ => Err TypeError end)%result.

End Graph.

(** ** numpy helpers and loops in the error monad *)

Module Np.

Local Open Scope R_scope.

(** [np.vstack] and [np.concatenate] of a list of 2-D arrays along axis 0;
    both raise [ValueError] on an empty list. *)
Definition vstack (arrays : list TF.matrix) : result TF.matrix :=
  match arrays with
  | [] => Err ValueError
  | _ => Ok (concat arrays)
  end.

Definition concatenate (arrays : list TF.matrix) : result TF.matrix :=
  match arrays with
  | [] => Err ValueError
  | _ => Ok (concat arrays)
  end.

(** The first index holding the maximum of [best :: l], the candidates in
    [l] being numbered from [i]. *)
Fixpoint argmax_from (best_i : nat) (best : R) (i : nat) (l : list R)
  : nat :=
  match l with
  | [] => best_i
  | x :: l' =>
      if Rlt_dec best x
      then argmax_from i x (S i) l'
      else argmax_from best_i best (S i) l'
  end.

(** [np.argmax] of one row: the first index of the maximum; an empty row
    raises [ValueError]. *)
Definition argmax_row (row : TF.vector) : result nat :=
  match row with
  | [] => Err ValueError
  | x :: l => Ok (argmax_from 0 x 1 l)
  end.

(** [np.argmax(m, 1)] *)
Definition argmax_1 (m : TF.matrix) : result (list nat) :=
  mapM argmax_row m.

End Np.

(** [j] is the first index of the maximum of [row]. *)
Definition first_argmax (row : TF.vector) (j : nat) : Prop :=
  (j < length row)%nat
  /\ (forall k, (k < length row)%nat -> (nth k row 0 <= nth j row 0)%R)
  /\ (forall k, (k < j)%nat -> (nth k row 0 < nth j row 0)%R).

(** A [for] loop over a list whose body may raise: the state is threaded
    from one iteration to the next and the first exception ends the loop. *)
Fixpoint for_each {A S : Type} (body : S -> A -> result S) (items : list A)
         (s : S) : result S :=
  match items with
  | [] => Ok s
  | a :: rest => (s' <- body s a ;; for_each body rest s')%result
  end.

(** [for epoch in range(n)] *)
Definition for_range {S : Type} (n : Z) (body : S -> Z -> result S) (s : S)
  : result S :=
  for_each body (map Z.of_nat (seq 0 (Z.to_nat n))) s.

(** The training log: the dictionary
    [{'loss':[], 'acc':[], 'val_loss':[], 'val_acc':[]}] and its appends. *)
Record log : Type := {
  log_loss : list R;
  log_acc : list R;
  log_val_loss : list R;
  log_val_acc : list R
}.

Definition empty_log : log :=
  {| log_loss := []; log_acc := []; log_val_loss := []; log_val_acc := [] |}.

Definition append_train (l : log) (loss acc : R) : log :=
  {| log_loss := log_loss l ++ [loss];
     log_acc := log_acc l ++ [acc];
     log_val_loss := log_val_loss l;
     log_val_acc := log_val_acc l |}.

Definition append_val (l : log) (val_loss val_acc : R) : log :=
  {| log_loss := log_loss l;
     log_acc := log_acc l;
     log_val_loss := log_val_loss l ++ [val_loss];
     log_val_acc := log_val_acc l ++ [val_acc] |}.


(** ** RNNTextClassifier (nlp-models/tensorflow/rnn_attn_text_clf.py) *)

Module RNNTextClassifier.

Local Open Scope R_scope.

(** The constructor's arguments, kept on [self]. *)
Record config : Type := {
  seq_len : Z;
  vocab_size : Z;
  n_out : Z;
  embedding_dims : Z;   (* default 128 *)
  cell_size : Z;        (* default 128 *)
  grad_clip : Z;        (* default 5 *)
  stateful : bool       (* default False *)
}.

(** The sizes the constructor is meant for: every one at least 1. *)
Definition positive_sizes (self : config) : Prop :=
  (1 <= seq_len self /\ 1 <= vocab_size self /\ 1 <= n_out self
   /\ 1 <= embedding_dims self /\ 1 <= cell_size self)%Z.

(** *** Graph construction *)

Module Build.

Import Graph.
Local Open Scope string_scope.
Local Open Scope result_scope.

(** The default graph and the attributes of [self]. *)
Definition state : Type := graph * attrs.

Definition add_input_layer (cfg : config) (st : state) : result state :=
  let '(g, self) := st in
  let '(x, g) := placeholder g int32 (Some [None; Some (seq_len cfg)]) in
  let self := setattr "X" (VTensor x) self in
  let '(y, g) := placeholder g int64 (Some [None]) in
  let self := setattr "Y" (VTensor y) self in
  let '(bs, g) := placeholder g int32 (Some []) in
  let self := setattr "batch_size" (VTensor bs) self in
  let '(kp, g) := placeholder g float32 None in
  let self := setattr "rnn_keep_prob" (VTensor kp) self in
  let '(lr, g) := placeholder g float32 None in
  let self := setattr "lr" (VTensor lr) self in
  x <- get_tensor "X" self ;;
  Ok (g, setattr "_pointer" (VTensor x) self).

Definition add_word_embedding_layer (cfg : config) (st : state)
  : result state :=
  let '(g, self) := st in
  let embedding :=
    GetVariable "encoder" [vocab_size cfg; embedding_dims cfg] float32
                (random_uniform_initializer (-1) 1) in
  pointer <- get_tensor "_pointer" self ;;
  let self := setattr "embedded"
                      (VTensor (EmbeddingLookup embedding pointer)) self in
  embedded <- get_tensor "embedded" self ;;
  Ok (g, setattr "_pointer" (VTensor embedded) self).

Definition add_lstm_cells (cfg : config) (st : state) : result state :=
  let '(g, self) := st in
  let cell := LSTMCell (cell_size cfg) orthogonal_initializer in
  keep_prob <- get_tensor "rnn_keep_prob" self ;;
  let cell := DropoutWrapper cell keep_prob in
  Ok (g, setattr "cell" (VCell cell) self).

Definition add_dynamic_rnn (cfg : config) (st : state) : result state :=
  let '(g, self) := st in
  cell <- get_cell "cell" self ;;
  batch_size <- get_tensor "batch_size" self ;;
  let self := setattr "init_state"
                      (VTensor (ZeroState cell batch_size float32)) self in
  cell <- get_cell "cell" self ;;
  pointer <- get_tensor "_pointer" self ;;
  init_state <- get_tensor "init_state" self ;;
  let self := setattr "_pointer"
                      (VTensor (DynamicRnnOutputs cell pointer init_state))
                      self in
  Ok (g, setattr "final_state"
                 (VTensor (DynamicRnnFinalState cell pointer init_state))
                 self).

Definition softmax (tensor : Graph.tensor) : Graph.tensor :=
  let exps := Exp tensor in
  Div exps (ReduceSum exps 1 true).

Definition add_attention (cfg : config) (st : state) : result state :=
  let '(g, self) := st in
  final_state <- get_tensor "final_state" self ;;
  let encoder_state := ExpandDims (StateH final_state) 2 in
  pointer <- get_tensor "_pointer" self ;;
  let weights := Tanh (MatMul pointer encoder_state) in
  let weights := softmax (Reshape weights [-1; seq_len cfg])%Z in
  pointer <- get_tensor "_pointer" self ;;
  Ok (g, setattr "_pointer"
                 (VTensor (Squeeze (MatMul (Transpose pointer [0; 2; 1]%Z)
                                           (ExpandDims weights 2))
                                   (Some 2%Z)))
                 self).

Definition add_output_layer (cfg : config) (st : state) : result state :=
  let '(g, self) := st in
  pointer <- get_tensor "_pointer" self ;;
  Ok (g, setattr "logits" (VTensor (Dense pointer (n_out cfg))) self).

Definition add_backward_path (cfg : config) (st : state) : result state :=
  let '(g, self) := st in
  logits <- get_tensor "logits" self ;;
  labels <- get_tensor "Y" self ;;
  let self :=
    setattr "loss"
            (VTensor (ReduceMean
                        (SparseSoftmaxCrossEntropyWithLogits logits labels)))
            self in
  logits <- get_tensor "logits" self ;;
  labels <- get_tensor "Y" self ;;
  let self :=
    setattr "acc"
            (VTensor (ReduceMean
                        (Cast (Equal (ArgMax logits 1) labels) float32)))
            self in
  loss <- get_tensor "loss" self ;;
  Ok (g, setattr "train_op" (VOperation (AdamMinimize None loss)) self).

(** [build_graph], called by the constructor after [self._pointer = None]
    on an otherwise fresh [self]. *)
Definition build_graph (cfg : config) (st : state) : result state :=
  st <- add_input_layer cfg st ;;
  st <- add_word_embedding_layer cfg st ;;
  st <- add_lstm_cells cfg st ;;
  st <- add_dynamic_rnn cfg st ;;
  st <- add_attention cfg st ;;
  st <- add_output_layer cfg st ;;
  add_backward_path cfg st.

(** The constructor, on an empty default graph:
<<
  self._pointer = None
  self.build_graph()
>> *)
Definition init (cfg : config) : result state :=
  build_graph cfg (O, setattr "_pointer" VNone []).

End Build.

(** *** Values computed by the attention stage *)

Module Forward.

(** [softmax]:
<<
    exps = tf.exp(tensor)
    return exps / tf.reduce_sum(exps, 1, keep_dims=True)
>> *)
Definition softmax (tensor : TF.matrix) : TF.matrix :=
  let exps := TF.exp2 tensor in
  TF.div_broadcast_1 exps (TF.reduce_sum_1_keep exps).

(** The [weights] of [add_attention], after the softmax:
<<
    encoder_state = tf.expand_dims(self.final_state.h, 2)
    weights = tf.tanh(tf.matmul(self._pointer, encoder_state))
    weights = self.softmax(tf.reshape(weights, [-1, self.seq_len]))
>>
    [pointer] is the RNN output (batch, seq_len, cell_size) and
    [final_state_h] the final hidden state (batch, cell_size). *)
Definition attention_weights (seq_len : nat) (pointer : TF.tensor3)
           (final_state_h : TF.matrix) : TF.matrix :=
  let encoder_state := TF.expand_dims_2 final_state_h in
  let weights := TF.tanh3 (TF.matmul3 1 pointer encoder_state) in
  softmax (TF.reshape_rows seq_len weights).

(** What [attention_weights] feeds to the softmax for one example, in
    closed form: one [tanh] of a dot product with the final hidden state
    per sequence position. *)
Definition scores (p : TF.matrix * TF.vector) : TF.vector :=
  map (fun row => tanh (TF.dot row (snd p))) (fst p).

(** The new [_pointer] of [add_attention]:
<<
    self._pointer = tf.squeeze(tf.matmul(tf.transpose(self._pointer, [0, 2, 1]),
                                         tf.expand_dims(weights, 2)), 2)
>> *)
Definition add_attention (seq_len cell_size : nat) (pointer : TF.tensor3)
           (final_state_h : TF.matrix) : TF.matrix :=
  let weights := attention_weights seq_len pointer final_state_h in
  TF.squeeze_2 (TF.matmul3 1 (TF.transpose_021 cell_size pointer)
                           (TF.expand_dims_2 weights)).

End Forward.


(** *** Helper methods *)

Definition gen_batch {A : Type} := @Batching.gen_batch A.

(** [decrease_lr]:
<<
    if en_exp_decay:
        max_lr = 0.005
        min_lr = 0.001
        decay_rate = math.log(min_lr/max_lr) / (-n_epoch*len_X/batch_size)
        lr = max_lr*math.exp(-decay_rate*global_step)
    else:
        lr = 0.001
    return lr
>>
    [-n_epoch*len_X] is an integer product and [/batch_size] a true
    division; either division raises on a zero divisor. *)
Definition decrease_lr (en_exp_decay : bool) (global_step : R)
           (n_epoch len_X batch_size : Z) : result R :=
  if en_exp_decay then
    let max_lr := 5 / 1000 in
    let min_lr := 1 / 1000 in
    if (batch_size =? 0)%Z then Err ZeroDivisionError
    else
      let steps := IZR (- n_epoch * len_X) / IZR batch_size in
      if (- n_epoch * len_X =? 0)%Z then Err ZeroDivisionError
      else
        let decay_rate := ln (min_lr / max_lr) / steps in
        Ok (max_lr * exp (- decay_rate * global_step))
  else Ok (1 / 1000).

(** [list_avg]: [return sum(l) / len(l)] *)
Definition list_avg (l : list R) : result R :=
  match l with
  | [] => Err ZeroDivisionError
  | _ => Ok (Py.sum l / Py.len l)
  end.

(** *** The session

    What [self.sess.run] returns for the fetches the class asks for. The
    world holds the values of the graph's variables and the state of the
    random generators; a run that fetches [train_op] or draws a dropout
    mask or a shuffle changes it. [rnn_state] is the value of an LSTM
    state. A feed dictionary carries the keys the call site sets; a key
    that is not fed is [None], and the graph then computes the tensor
    itself (for [init_state], the zero state of the fed batch size).
    The operations give the result of a run the graph accepts; the two
    rejections the loops can meet before any batch is formed, a negative
    batch size for the zero state and arrays of different lengths for the
    shuffle, are [fetch_init_state] and [sklearn_shuffle] below. *)

Record feed_dict (sample label rnn_state : Type) : Type := {
  feed_X : list sample;
  feed_Y : option (list label);
  feed_batch_size : Z;
  feed_rnn_keep_prob : option R;
  feed_lr : option R;
  feed_init_state : option rnn_state
}.

Class Session : Type := {
  world : Type;
  sample : Type;
  label : Type;
  rnn_state : Type;
  (** [sess.run(tf.global_variables_initializer())] *)
  run_initializer : world -> world;
  (** [sess.run(self.init_state, feed_dict={self.batch_size: n})] *)
  run_init_state : world -> Z -> rnn_state;
  (** [sess.run([self.train_op, self.final_state, self.loss, self.acc], feed)];
      a call that leaves [final_state] out of the fetches drops it. *)
  run_train : world -> feed_dict sample label rnn_state
              -> world * (rnn_state * R * R);
  (** [sess.run([self.loss, self.acc, self.final_state], feed)] *)
  run_eval : world -> feed_dict sample label rnn_state
             -> world * (R * R * rnn_state);
  (** [sess.run([self.logits, self.final_state], feed)] *)
  run_logits : world -> feed_dict sample label rnn_state
               -> world * (TF.matrix * rnn_state);
  (** [sklearn.utils.shuffle(X, Y)] *)
  shuffle : world -> list sample -> list label
            -> world * (list sample * list label)
}.

Section Loops.

Context `{Session}.
Variable self : config.

Local Open Scope result_scope.

(** [self.sess.run(self.init_state, feed_dict={self.batch_size:batch_size})]:
    the zero state of a negative number of rows cannot be built and the
    run raises. *)
Definition fetch_init_state (w : world) (batch_size : Z)
  : result rnn_state :=
  if (batch_size <? 0)%Z then Err InvalidArgumentError
  else Ok (run_init_state w batch_size).

(** [sklearn.utils.shuffle(X, Y)]: arrays with different numbers of rows
    are rejected with [ValueError]. *)
Definition sklearn_shuffle (w : world) (X : list sample) (Y : list label)
  : result (world * (list sample * list label)) :=
  if Nat.eqb (length X) (length Y) then Ok (shuffle w X Y)
  else Err ValueError.

(** What the loops of [fit] carry from one batch to the next. *)
Record train_state : Type := {
  ts_world : world;
  ts_next_state : rnn_state;
  ts_global_step : Z;
  (** [loss], [acc] and [lr], unbound before the first batch *)
  ts_last : option (R * R * R)
}.

(** The body of the batch loop of [fit]:
<<
  lr = self.decrease_lr(en_exp_decay, global_step, n_epoch, len(X), batch_size)
  if (self.stateful) and (len(X_batch) == batch_size):
      _, next_state, loss, acc = self.sess.run([self.train_op, self.final_state, self.loss, self.acc],
                                               {self.X:X_batch, self.Y:Y_batch,
                                                self.batch_size:batch_size,
                                                self.rnn_keep_prob:rnn_keep_prob,
                                                self.lr:lr, self.init_state:next_state})
  else:
      _, loss, acc = self.sess.run([self.train_op, self.loss, self.acc],
                                   {self.X:X_batch, self.Y:Y_batch,
                                    self.batch_size:len(X_batch), self.lr:lr,
                                    self.rnn_keep_prob:rnn_keep_prob})
  global_step += 1
>> *)
Definition train_batch (n_epoch : Z) (len_X : Z) (batch_size : Z)
           (en_exp_decay : bool) (rnn_keep_prob : R)
           (s : train_state) (batch : list sample * list label)
  : result train_state :=
  let '(X_batch, Y_batch) := batch in
  lr <- decrease_lr en_exp_decay (IZR (ts_global_step s)) n_epoch len_X
                    batch_size ;;
  if stateful self && (Z.of_nat (length X_batch) =? batch_size)%Z then
    let '(w, (next_state, loss, acc)) :=
      run_train (ts_world s)
                {| feed_X := X_batch; feed_Y := Some Y_batch;
                   feed_batch_size := batch_size;
                   feed_rnn_keep_prob := Some rnn_keep_prob;
                   feed_lr := Some lr;
                   feed_init_state := Some (ts_next_state s) |} in
    Ok {| ts_world := w; ts_next_state := next_state;
          ts_global_step := ts_global_step s + 1;
          ts_last := Some (loss, acc, lr) |}
  else
    let '(w, (_, loss, acc)) :=
      run_train (ts_world s)
                {| feed_X := X_batch; feed_Y := Some Y_batch;
                   feed_batch_size := Z.of_nat (length X_batch);
                   feed_rnn_keep_prob := Some rnn_keep_prob;
                   feed_lr := Some lr;
                   feed_init_state := None |} in
    Ok {| ts_world := w; ts_next_state := ts_next_state s;
          ts_global_step := ts_global_step s + 1;
          ts_last := Some (loss, acc, lr) |}.

(** What the validation loop carries. *)
Record val_state : Type := {
  vs_world : world;
  vs_next_state : rnn_state;
  vs_loss_list : list R;
  vs_acc_list : list R
}.

(** The body of the validation loop of [fit]:
<<
  if (self.stateful) and (len(X_test_batch) == batch_size):
      v_loss, v_acc, next_state = self.sess.run([self.loss, self.acc, self.final_state],
                                                {self.X:X_test_batch, self.Y:Y_test_batch,
                                                 self.batch_size:batch_size,
                                                 self.rnn_keep_prob:1.0,
                                                 self.init_state:next_state})
  else:
      v_loss, v_acc = self.sess.run([self.loss, self.acc],
                                    {self.X:X_test_batch, self.Y:Y_test_batch,
                                     self.batch_size:len(X_test_batch),
                                     self.rnn_keep_prob:1.0})
  val_loss_list.append(v_loss)
  val_acc_list.append(v_acc)
>> *)
Definition val_batch (batch_size : Z) (s : val_state)
           (batch : list sample * list label) : result val_state :=
  let '(X_test_batch, Y_test_batch) := batch in
  if stateful self && (Z.of_nat (length X_test_batch) =? batch_size)%Z then
    let '(w, (v_loss, v_acc, next_state)) :=
      run_eval (vs_world s)
               {| feed_X := X_test_batch; feed_Y := Some Y_test_batch;
                  feed_batch_size := batch_size;
                  feed_rnn_keep_prob := Some 1%R;
                  feed_lr := None;
                  feed_init_state := Some (vs_next_state s) |} in
    Ok {| vs_world := w; vs_next_state := next_state;
          vs_loss_list := vs_loss_list s ++ [v_loss];
          vs_acc_list := vs_acc_list s ++ [v_acc] |}
  else
    let '(w, (v_loss, v_acc, _)) :=
      run_eval (vs_world s)
               {| feed_X := X_test_batch; feed_Y := Some Y_test_batch;
                  feed_batch_size := Z.of_nat (length X_test_batch);
                  feed_rnn_keep_prob := Some 1%R;
                  feed_lr := None;
                  feed_init_state := None |} in
    Ok {| vs_world := w; vs_next_state := vs_next_state s;
          vs_loss_list := vs_loss_list s ++ [v_loss];
          vs_acc_list := vs_acc_list s ++ [v_acc] |}.

(** The validation pass of one epoch, up to the two lists of scores. *)
Definition validate (w : world) (val_data : list sample * list label)
           (batch_size : Z) : result val_state :=
  next_state <- fetch_init_state w batch_size ;;
  X_batches <- gen_batch (fst val_data) batch_size ;;
  Y_batches <- gen_batch (snd val_data) batch_size ;;
  for_each (val_batch batch_size) (Batching.zip X_batches Y_batches)
           {| vs_world := w; vs_next_state := next_state;
              vs_loss_list := []; vs_acc_list := [] |}.

(** What the epoch loop of [fit] carries. *)
Record fit_state : Type := {
  fs_world : world;
  fs_X : list sample;
  fs_Y : list label;
  fs_global_step : Z;
  fs_last : option (R * R * R);
  fs_log : log
}.

(** The training half of one epoch of [fit]: the shuffle and the batch
    loop. *)
Definition train_epoch (n_epoch batch_size : Z)
           (en_exp_decay en_shuffle : bool) (rnn_keep_prob : R)
           (s : fit_state)
  : result (list sample * list label * train_state) :=
  shuffled <- (if en_shuffle
               then sklearn_shuffle (fs_world s) (fs_X s) (fs_Y s)
               else Ok (fs_world s, (fs_X s, fs_Y s))) ;;
  let '(w, (X, Y)) := shuffled in
  next_state <- fetch_init_state w batch_size ;;
  X_batches <- gen_batch X batch_size ;;
  Y_batches <- gen_batch Y batch_size ;;
  t <- for_each (train_batch n_epoch (Z.of_nat (length X)) batch_size
                             en_exp_decay rnn_keep_prob)
                (Batching.zip X_batches Y_batches)
                {| ts_world := w; ts_next_state := next_state;
                   ts_global_step := fs_global_step s;
                   ts_last := fs_last s |} ;;
  Ok (X, Y, t).

(** One epoch of [fit]: training, validation when there is validation
    data, then the appends to the log. *)
Definition fit_epoch (val_data : option (list sample * list label))
           (n_epoch batch_size : Z) (en_exp_decay en_shuffle : bool)
           (rnn_keep_prob : R) (s : fit_state) (epoch : Z)
  : result fit_state :=
  trained <- train_epoch n_epoch batch_size en_exp_decay en_shuffle
                         rnn_keep_prob s ;;
  let '(X, Y, t) := trained in
  v <- match val_data with
       | None => Ok (ts_world t, None)
       | Some vd =>
           vs <- validate (ts_world t) vd batch_size ;;
           val_loss <- list_avg (vs_loss_list vs) ;;
           val_acc <- list_avg (vs_acc_list vs) ;;
           Ok (vs_world vs, Some (val_loss, val_acc))
       end ;;
  let '(w, val_scores) := v in
  match ts_last t with
  | None => Err UnboundLocalError
  | Some (loss, acc, lr) =>
      let l := append_train (fs_log s) loss acc in
      let l := match val_scores with
               | None => l
               | Some (val_loss, val_acc) => append_val l val_loss val_acc
               end in
      Ok {| fs_world := w; fs_X := X; fs_Y := Y;
            fs_global_step := ts_global_step t;
            fs_last := ts_last t; fs_log := l |}
  end.

(** The locals of [fit] before the first epoch:
<<
  log = {'loss':[], 'acc':[], 'val_loss':[], 'val_acc':[]}
  global_step = 0
  self.sess.run(tf.global_variables_initializer())
>> *)
Definition fit_init (w : world) (X : list sample) (Y : list label)
  : fit_state :=
  {| fs_world := run_initializer w; fs_X := X; fs_Y := Y;
     fs_global_step := 0; fs_last := None; fs_log := empty_log |}.

(** [fit]; the printed progress lines are left out. *)
Definition fit (w : world) (X : list sample) (Y : list label)
           (val_data : option (list sample * list label))
           (n_epoch batch_size : Z) (en_exp_decay en_shuffle : bool)
           (rnn_keep_prob : R) : result (world * log) :=
  s <- for_range n_epoch
                 (fit_epoch val_data n_epoch batch_size en_exp_decay
                            en_shuffle rnn_keep_prob)
                 (fit_init w X Y) ;;
  Ok (fs_world s, fs_log s).

(** What the loop of [predict] carries. *)
Record predict_state : Type := {
  ps_world : world;
  ps_next_state : rnn_state;
  ps_batch_pred_list : list TF.matrix
}.

(** The body of the loop of [predict]:
<<
  if (self.stateful) and (len(X_test_batch) == batch_size):
      batch_pred, next_state = self.sess.run([self.logits, self.final_state],
                                             {self.X:X_test_batch, self.batch_size:batch_size,
                                              self.rnn_keep_prob:1.0,
                                              self.init_state:next_state})
  else:
      batch_pred = self.sess.run(self.logits,
                                {self.X:X_test_batch, self.batch_size:len(X_test_batch),
                                 self.rnn_keep_prob:1.0})
  batch_pred_list.append(batch_pred)
>> *)
Definition predict_batch (batch_size : Z) (s : predict_state)
           (X_test_batch : list sample) : result predict_state :=
  if stateful self && (Z.of_nat (length X_test_batch) =? batch_size)%Z then
    let '(w, (batch_pred, next_state)) :=
      run_logits (ps_world s)
                 {| feed_X := X_test_batch; feed_Y := None;
                    feed_batch_size := batch_size;
                    feed_rnn_keep_prob := Some 1%R;
                    feed_lr := None;
                    feed_init_state := Some (ps_next_state s) |} in
    Ok {| ps_world := w; ps_next_state := next_state;
          ps_batch_pred_list := ps_batch_pred_list s ++ [batch_pred] |}
  else
    let '(w, (batch_pred, _)) :=
      run_logits (ps_world s)
                 {| feed_X := X_test_batch; feed_Y := None;
                    feed_batch_size := Z.of_nat (length X_test_batch);
                    feed_rnn_keep_prob := Some 1%R;
                    feed_lr := None;
                    feed_init_state := None |} in
    Ok {| ps_world := w; ps_next_state := ps_next_state s;
          ps_batch_pred_list := ps_batch_pred_list s ++ [batch_pred] |}.

(** The loop of [predict], up to [batch_pred_list]. *)
Definition predict_batches (w : world) (X_test : list sample)
           (batch_size : Z) : result predict_state :=
  next_state <- fetch_init_state w batch_size ;;
  batches <- gen_batch X_test batch_size ;;
  for_each (predict_batch batch_size) batches
           {| ps_world := w; ps_next_state := next_state;
              ps_batch_pred_list := [] |}.

(** [predict]: [return np.argmax(np.vstack(batch_pred_list), 1)] *)
Definition predict (w : world) (X_test : list sample) (batch_size : Z)
  : result (world * list nat) :=
  s <- predict_batches w X_test batch_size ;;
  stacked <- Np.vstack (ps_batch_pred_list s) ;;
  labels <- Np.argmax_1 stacked ;;
  Ok (ps_world s, labels).

(** A batch result [pred] is the logits of a run fed with [batch]. *)
Definition logits_of (batch : list sample) (pred : TF.matrix) : Prop :=
  exists w f, feed_X f = batch /\ pred = fst (snd (run_logits w f)).

(** A pair of scores is what a validation run fed with [batch] returns. *)
Definition scores_of (batch : list sample * list label) (scores : R * R)
  : Prop :=
  exists w f,
    feed_X f = fst batch /\ feed_Y f = Some (snd batch)
    /\ feed_rnn_keep_prob f = Some 1%R
    /\ scores = fst (snd (run_eval w f)).

End Loops.

End RNNTextClassifier.

(** ** Conv1DClassifier (tensorflow-models/cnn/conv_1d_text_clf.py) *)

Module Conv1DClassifier.

Local Open Scope R_scope.

(** The constructor's arguments, kept on [self]. *)
Record config : Type := {
  seq_len : Z;
  vocab_size : Z;
  n_out : Z;
  embedding_dims : Z;   (* default 50 *)
  n_filters : Z;        (* default 250 *)
  kernel_size : Z;      (* default 3 *)
  padding : string;     (* default 'VALID' *)
  hidden_dims : Z       (* default 250 *)
}.

(** [self.current_seq_len] after [add_conv1d]:
<<
    if self.padding == 'VALID':
        self.current_seq_len = self.seq_len - self.kernel_size + 1
    if self.padding == 'SAME':
        self.current_seq_len = self.seq_len
>>
    The attribute stays unset for any other padding. *)
Definition current_seq_len (self : config) : option Z :=
  let unset : option Z := None in
  let after_valid :=
    if String.eqb (padding self) "VALID"
    then Some (seq_len self - kernel_size self + 1)%Z else unset in
  if String.eqb (padding self) "SAME"
  then Some (seq_len self) else after_valid.

(** The sizes the constructor is meant for: every one at least 1. *)
Definition positive_sizes (self : config) : Prop :=
  (1 <= seq_len self /\ 1 <= vocab_size self /\ 1 <= n_out self
   /\ 1 <= embedding_dims self /\ 1 <= n_filters self
   /\ 1 <= kernel_size self /\ 1 <= hidden_dims self)%Z.

(** *** Graph construction *)

Module Build.

Import Graph.
Local Open Scope string_scope.
Local Open Scope result_scope.

(** The default graph and the attributes of [self]. *)
Definition state : Type := graph * attrs.

(** [_W] and [_b] *)
Definition _W (name : string) (shape : list Z) : tensor :=
  GetVariable name shape float32 truncated_normal_initializer_stddev_0_1.

Definition _b (name : string) (shape : list Z) : tensor :=
  GetVariable name shape float32 constant_initializer_0_1.

Definition add_input_layer (cfg : config) (st : state) : result state :=
  let '(g, self) := st in
  let '(x, g) := placeholder g int32 (Some [None; Some (seq_len cfg)]) in
  let self := setattr "X" (VTensor x) self in
  let '(y, g) := placeholder g float32 (Some [None; Some (n_out cfg)]) in
  let self := setattr "Y" (VTensor y) self in
  let '(kp, g) := placeholder g float32 None in
  let self := setattr "keep_prob" (VTensor kp) self in
  x <- get_tensor "X" self ;;
  Ok (g, setattr "current_layer" (VTensor x) self).

Definition add_word_embedding (cfg : config) (st : state) : result state :=
  let '(g, self) := st in
  let E := GetVariable "E" [vocab_size cfg; embedding_dims cfg] float32
                       random_normal_initializer in
  current <- get_tensor "current_layer" self ;;
  Ok (g, setattr "current_layer" (VTensor (EmbeddingLookup E current)) self).

(** [add_conv1d(name, filter_shape, stride=1)]; [filter_shape[-1]] is the
    last entry of the shape. *)
Definition add_conv1d (cfg : config) (name : string)
           (filter_shape : list Z) (st : state) : result state :=
  let stride := 1%Z in
  let '(g, self) := st in
  let W := _W (name ++ "_w") filter_shape in
  let b := _b (name ++ "_b") [last filter_shape 0%Z] in
  current <- get_tensor "current_layer" self ;;
  conv <- conv1d current W stride (padding cfg) ;;
  let conv := BiasAdd conv b in
  let conv := Relu conv in
  let self := setattr "current_layer" (VTensor conv) self in
  let self :=
    if String.eqb (padding cfg) "VALID"
    then setattr "current_seq_len"
                 (VInt (seq_len cfg - kernel_size cfg + 1)%Z) self
    else self in
  let self :=
    if String.eqb (padding cfg) "SAME"
    then setattr "current_seq_len" (VInt (seq_len cfg)) self
    else self in
  Ok (g, self).

Definition add_global_maxpool (cfg : config) (st : state) : result state :=
  let '(g, self) := st in
  k <- get_int "current_seq_len" self ;;
  current <- get_tensor "current_layer" self ;;
  let conv := ExpandDims current 1 in
  conv <- max_pool conv [1; 1; k; 1]%Z [1; 1; k; 1]%Z (padding cfg) ;;
  let conv := Squeeze conv None in
  Ok (g, setattr "current_layer" (VTensor conv) self).

Definition add_fc (cfg : config) (name : string) (w_shape : list Z)
           (st : state) : result state :=
  let '(g, self) := st in
  let W := _W (name ++ "_w") w_shape in
  let b := _b (name ++ "_b") [last w_shape 0%Z] in
  current <- get_tensor "current_layer" self ;;
  let fc := BiasAdd (MatMul current W) b in
  let fc := Relu fc in
  keep_prob <- get_tensor "keep_prob" self ;;
  let fc := Dropout fc keep_prob in
  Ok (g, setattr "current_layer" (VTensor fc) self).

Definition add_output_layer (cfg : config) (in_dim : Z) (st : state)
  : result state :=
  let '(g, self) := st in
  current <- get_tensor "current_layer" self ;;
  Ok (g, setattr "logits"
                 (VTensor (BiasAdd
                             (MatMul current (_W "w_out" [in_dim; n_out cfg]))
                             (_b "b_out" [n_out cfg])))
                 self).

Definition add_backward_path (cfg : config) (st : state) : result state :=
  let '(g, self) := st in
  let '(lr, g) := placeholder g float32 None in
  let self := setattr "lr" (VTensor lr) self in
  logits <- get_tensor "logits" self ;;
  labels <- get_tensor "Y" self ;;
  let self :=
    setattr "loss"
            (VTensor (ReduceMean (SoftmaxCrossEntropyWithLogits logits labels)))
            self in
  lr <- get_tensor "lr" self ;;
  loss <- get_tensor "loss" self ;;
  let self :=
    setattr "train_op" (VOperation (AdamMinimize (Some lr) loss)) self in
  logits <- get_tensor "logits" self ;;
  labels <- get_tensor "Y" self ;;
  Ok (g, setattr "acc"
                 (VTensor (ReduceMean
                             (Cast (Equal (ArgMax logits 1) (ArgMax labels 1))
                                   float32)))
                 self).

Definition build_graph (cfg : config) (st : state) : result state :=
  st <- add_input_layer cfg st ;;
  st <- add_word_embedding cfg st ;;
  st <- add_conv1d cfg "conv"
                  [kernel_size cfg; embedding_dims cfg; n_filters cfg] st ;;
  st <- add_global_maxpool cfg st ;;
  st <- add_fc cfg "fully_connected" [n_filters cfg; hidden_dims cfg] st ;;
  st <- add_output_layer cfg (hidden_dims cfg) st ;;
  add_backward_path cfg st.

(** The constructor, on an empty default graph:
<<
  self.current_layer = None
  self.build_graph()
>> *)
Definition init (cfg : config) : result state :=
  build_graph cfg (O, setattr "current_layer" VNone []).

End Build.

(** *** Values computed by the convolution and pooling stages *)

Module Forward.

(** The new [current_layer] of [add_conv1d], called with [stride=1] and
    filters of shape [kernel_size, embedding_dims, n_filters]:
<<
    conv = tf.nn.conv1d(self.current_layer, W, stride=stride, padding=self.padding)
    conv = tf.nn.bias_add(conv, b)
    conv = tf.nn.relu(conv)
>> *)
Definition add_conv1d (self : config) (current_layer : TF.tensor3)
           (W : TF.tensor3) (b : TF.vector) : result TF.tensor3 :=
  (conv <- mapM (fun x =>
                   TF.conv1d (Z.to_nat (kernel_size self))
                             (Z.to_nat (embedding_dims self))
                             (Z.to_nat (n_filters self))
                             1 (padding self) x W)
                current_layer ;;
   let conv := map (fun x => TF.bias_add x b) conv in
   let conv := map TF.relu conv in
   Ok conv)%result.

(** The pooled tensor of [add_global_maxpool], before the squeeze, of
    shape (batch, 1, width, n_filters):
<<
    k = self.current_seq_len
    conv = tf.expand_dims(self.current_layer, 1)
    conv = tf.nn.max_pool(conv, ksize=[1,1,k,1], strides=[1,1,k,1], padding=self.padding)
>> *)
Definition global_maxpool (self : config) (current_layer : TF.tensor3)
  : result (list TF.tensor3) :=
  match current_seq_len self with
  | None => Err AttributeError
  | Some k =>
      let conv := map (fun x => [x]) current_layer in
      mapM (mapM (TF.max_pool_1k (Z.to_nat (n_filters self)) k k
                                 (padding self)))
           conv
  end.

(** The new [current_layer] of [add_global_maxpool]:
<<
    conv = tf.squeeze(conv)
    self.current_layer = conv
>> *)
Definition add_global_maxpool (self : config) (current_layer : TF.tensor3)
  : result ndarray :=
  (conv <- global_maxpool self current_layer ;;
   Ok (squeeze (of_tensor4 conv)))%result.

(** The values of the graph's variables. *)
Record variables : Type := {
  E : TF.matrix;                  (* (vocab_size, embedding_dims) *)
  conv_w : TF.tensor3;            (* (kernel_size, embedding_dims, n_filters) *)
  conv_b : TF.vector;             (* (n_filters) *)
  fully_connected_w : TF.matrix;  (* (n_filters, hidden_dims) *)
  fully_connected_b : TF.vector;  (* (hidden_dims) *)
  w_out : TF.matrix;              (* (hidden_dims, n_out) *)
  b_out : TF.vector               (* (n_out) *)
}.

(** A value can be fed to [self.X], a placeholder of shape
    [None, seq_len], when every row has [seq_len] entries. *)
Definition feeds_X (self : config) (X : list (list Z)) : bool :=
  forallb (fun row => (Z.of_nat (length row) =? seq_len self)%Z) X.

(** [tf.nn.embedding_lookup(E, ids)]: row [id] of [E] for every id; the
    run rejects an id outside the table. *)
Definition embedding_lookup (E : TF.matrix) (ids : list (list Z))
  : result TF.tensor3 :=
  mapM (mapM (fun id =>
                if ((0 <=? id) && (id <? Z.of_nat (length E)))%Z
                then Ok (nth (Z.to_nat id) E [])
                else Err InvalidArgumentError))
       ids.

(** An array of rank 1 as a vector and an array of rank 2 as a matrix;
    [None] for an array of any other rank. *)
Definition as_scalar (t : ndarray) : option R :=
  match t with
  | Scalar x => Some x
  | Array _ => None
  end.

Fixpoint all_some {A : Type} (l : list (option A)) : option (list A) :=
  match l with
  | [] => Some []
  | None :: _ => None
  | Some a :: rest =>
      match all_some rest with
      | Some r => Some (a :: r)
      | None => None
      end
  end.

Definition as_vector (t : ndarray) : option TF.vector :=
  match t with
  | Scalar _ => None
  | Array items => all_some (map as_scalar items)
  end.

Definition as_matrix (t : ndarray) : option TF.matrix :=
  match t with
  | Scalar _ => None
  | Array items => all_some (map as_vector items)
  end.

(** The run of [tf.matmul(a, W)] for [W] with [n] columns, where the
    shape of [a] is not known before the run: the kernel rejects an [a]
    that is not a matrix, and rows whose length is not the number of
    rows of [W]. *)
Definition matmul_run (n : nat) (a : ndarray) (W : TF.matrix)
  : result TF.matrix :=
  match as_matrix a with
  | None => Err InvalidArgumentError
  | Some m =>
      if forallb (fun row => Nat.eqb (length row) (length W)) m
      then Ok (TF.matmul n m W)
      else Err InvalidArgumentError
  end.

(** The new [current_layer] of [add_fc], for [keep_prob = 1.0], the
    value [predict] and the validation pass feed, at which the dropout
    keeps every entry unchanged:
<<
    fc = tf.nn.bias_add(tf.matmul(self.current_layer, W), b)
    fc = tf.nn.relu(fc)
    fc = tf.nn.dropout(fc, self.keep_prob)
>> *)
Definition add_fc (self : config) (current_layer : ndarray)
           (W : TF.matrix) (b : TF.vector) : result TF.matrix :=
  (fc <- matmul_run (Z.to_nat (hidden_dims self)) current_layer W ;;
   let fc := TF.bias_add fc b in
   let fc := TF.relu fc in
   Ok fc)%result.

(** [self.logits] of [add_output_layer]. *)
Definition add_output_layer (self : config) (current_layer : TF.matrix)
           (W : TF.matrix) (b : TF.vector) : TF.matrix :=
  TF.bias_add (TF.matmul (Z.to_nat (n_out self)) current_layer W) b.

(** The value of [self.logits] in a run fed with [X] and
    [keep_prob = 1.0]: the stages of [build_graph] in order. *)
Definition logits (self : config) (vars : variables) (X : list (list Z))
  : result TF.matrix :=
  if negb (feeds_X self X) then Err ValueError
  else
    (embedded <- embedding_lookup (E vars) X ;;
     conv <- add_conv1d self embedded (conv_w vars) (conv_b vars) ;;
     pooled <- add_global_maxpool self conv ;;
     fc <- add_fc self pooled (fully_connected_w vars)
                  (fully_connected_b vars) ;;
     Ok (add_output_layer self fc (w_out vars) (b_out vars)))%result.

End Forward.

(** *** Helper methods *)

Definition gen_batch {A : Type} := @Batching.gen_batch A.

(** [decrease_lr]: as in the recurrent classifier, with
    [max_lr = 0.003] and [min_lr = 0.0001]. *)
Definition decrease_lr (en_exp_decay : bool) (global_step : R)
           (n_epoch len_X batch_size : Z) : result R :=
  if en_exp_decay then
    let max_lr := 3 / 1000 in
    let min_lr := 1 / 10000 in
    if (batch_size =? 0)%Z then Err ZeroDivisionError
    else
      let steps := IZR (- n_epoch * len_X) / IZR batch_size in
      if (- n_epoch * len_X =? 0)%Z then Err ZeroDivisionError
      else
        let decay_rate := ln (min_lr / max_lr) / steps in
        Ok (max_lr * exp (- decay_rate * global_step))
  else Ok (1 / 1000).

(** [list_avg]: [return sum(l) / len(l)] *)
Definition list_avg (l : list R) : result R :=
  match l with
  | [] => Err ZeroDivisionError
  | _ => Ok (Py.sum l / Py.len l)
  end.

(** *** The session

    What [self.sess.run] returns for the fetches the class asks for; see
    [RNNTextClassifier.Session]. A run of this graph can raise: the
    unqualified [tf.squeeze] of [add_global_maxpool] gives the pooled
    tensor a rank that depends on the fed batch, and [tf.matmul] in
    [add_fc] rejects what is not a matrix ([Forward.logits]). The
    operations that run the graph therefore return a [result]. *)

Record feed_dict (sample label : Type) : Type := {
  feed_X : list sample;
  feed_Y : option (list label);
  feed_lr : option R;
  feed_keep_prob : option R
}.

Class Session : Type := {
  world : Type;
  sample : Type;
  label : Type;
  (** [sess.run(tf.global_variables_initializer())] *)
  run_initializer : world -> world;
  (** [sess.run([self.train_op, self.loss, self.acc], feed_dict=...)] *)
  run_train : world -> feed_dict sample label -> result (world * (R * R));
  (** [sess.run([self.loss, self.acc], feed_dict=...)] *)
  run_eval : world -> feed_dict sample label -> result (world * (R * R));
  (** [sess.run(self.logits, feed_dict=...)] *)
  run_logits : world -> feed_dict sample label -> result (world * TF.matrix);
  (** [sklearn.utils.shuffle(X, Y)] on arrays of the same length *)
  shuffle : world -> list sample -> list label
            -> world * (list sample * list label)
}.

Section Loops.

Context `{Session}.

Local Open Scope result_scope.

(** [sklearn.utils.shuffle(X, Y)]: arrays with different numbers of rows
    are rejected with [ValueError]. *)
Definition sklearn_shuffle (w : world) (X : list sample) (Y : list label)
  : result (world * (list sample * list label)) :=
  if Nat.eqb (length X) (length Y) then Ok (shuffle w X Y)
  else Err ValueError.

(** What the batch loop of [fit] carries. *)
Record train_state : Type := {
  ts_world : world;
  ts_global_step : Z;
  (** [loss], [acc] and [lr], unbound before the first batch *)
  ts_last : option (R * R * R)
}.

(** The body of the batch loop of [fit]:
<<
  lr = self.decrease_lr(en_exp_decay, global_step, n_epoch, len(X), batch_size)
  _, loss, acc = self.sess.run([self.train_op, self.loss, self.acc],
                                feed_dict={self.X:X_batch, self.Y:Y_batch,
                                           self.lr:lr, self.keep_prob:keep_prob})
  local_step += 1
  global_step += 1
>> *)
Definition train_batch (n_epoch : Z) (len_X : Z) (batch_size : Z)
           (en_exp_decay : bool) (keep_prob : R)
           (s : train_state) (batch : list sample * list label)
  : result train_state :=
  let '(X_batch, Y_batch) := batch in
  lr <- decrease_lr en_exp_decay (IZR (ts_global_step s)) n_epoch len_X
                    batch_size ;;
  ran <- run_train (ts_world s)
                   {| feed_X := X_batch; feed_Y := Some Y_batch;
                      feed_lr := Some lr;
                      feed_keep_prob := Some keep_prob |} ;;
  let '(w, (loss, acc)) := ran in
  Ok {| ts_world := w;
        ts_global_step := ts_global_step s + 1;
        ts_last := Some (loss, acc, lr) |}.

(** What the validation loop carries. *)
Record val_state : Type := {
  vs_world : world;
  vs_loss_list : list R;
  vs_acc_list : list R
}.

(** The body of the validation loop of [fit]:
<<
  v_loss, v_acc = self.sess.run([self.loss, self.acc],
                                 feed_dict={self.X:X_test_batch, self.Y:Y_test_batch,
                                            self.keep_prob:1.0})
  val_loss_list.append(v_loss)
  val_acc_list.append(v_acc)
>> *)
Definition val_batch (s : val_state) (batch : list sample * list label)
  : result val_state :=
  let '(X_test_batch, Y_test_batch) := batch in
  ran <- run_eval (vs_world s)
                  {| feed_X := X_test_batch; feed_Y := Some Y_test_batch;
                     feed_lr := None; feed_keep_prob := Some 1%R |} ;;
  let '(w, (v_loss, v_acc)) := ran in
  Ok {| vs_world := w;
        vs_loss_list := vs_loss_list s ++ [v_loss];
        vs_acc_list := vs_acc_list s ++ [v_acc] |}.

(** The validation pass of one epoch, up to the two lists of scores. *)
Definition validate (w : world) (val_data : list sample * list label)
           (batch_size : Z) : result val_state :=
  X_batches <- gen_batch (fst val_data) batch_size ;;
  Y_batches <- gen_batch (snd val_data) batch_size ;;
  for_each val_batch (Batching.zip X_batches Y_batches)
           {| vs_world := w; vs_loss_list := []; vs_acc_list := [] |}.

(** What the epoch loop of [fit] carries. *)
Record fit_state : Type := {
  fs_world : world;
  fs_X : list sample;
  fs_Y : list label;
  fs_global_step : Z;
  fs_last : option (R * R * R);
  fs_log : log
}.

(** The training half of one epoch of [fit]: the shuffle and the batch
    loop. *)
Definition train_epoch (n_epoch batch_size : Z) (keep_prob : R)
           (en_exp_decay en_shuffle : bool) (s : fit_state)
  : result (list sample * list label * train_state) :=
  shuffled <- (if en_shuffle
               then sklearn_shuffle (fs_world s) (fs_X s) (fs_Y s)
               else Ok (fs_world s, (fs_X s, fs_Y s))) ;;
  let '(w, (X, Y)) := shuffled in
  X_batches <- gen_batch X batch_size ;;
  Y_batches <- gen_batch Y batch_size ;;
  t <- for_each (train_batch n_epoch (Z.of_nat (length X)) batch_size
                             en_exp_decay keep_prob)
                (Batching.zip X_batches Y_batches)
                {| ts_world := w;
                   ts_global_step := fs_global_step s;
                   ts_last := fs_last s |} ;;
  Ok (X, Y, t).

(** One epoch of [fit]: training, validation when there is validation
    data, then the appends to the log. *)
Definition fit_epoch (val_data : option (list sample * list label))
           (n_epoch batch_size : Z) (keep_prob : R)
           (en_exp_decay en_shuffle : bool) (s : fit_state) (epoch : Z)
  : result fit_state :=
  trained <- train_epoch n_epoch batch_size keep_prob en_exp_decay
                         en_shuffle s ;;
  let '(X, Y, t) := trained in
  v <- match val_data with
       | None => Ok (ts_world t, None)
       | Some vd =>
           vs <- validate (ts_world t) vd batch_size ;;
           val_loss <- list_avg (vs_loss_list vs) ;;
           val_acc <- list_avg (vs_acc_list vs) ;;
           Ok (vs_world vs, Some (val_loss, val_acc))
       end ;;
  let '(w, val_scores) := v in
  match ts_last t with
  | None => Err UnboundLocalError
  | Some (loss, acc, lr) =>
      let l := append_train (fs_log s) loss acc in
      let l := match val_scores with
               | None => l
               | Some (val_loss, val_acc) => append_val l val_loss val_acc
               end in
      Ok {| fs_world := w; fs_X := X; fs_Y := Y;
            fs_global_step := ts_global_step t;
            fs_last := ts_last t; fs_log := l |}
  end.

(** The locals of [fit] before the first epoch:
<<
  log = {'loss':[], 'acc':[], 'val_loss':[], 'val_acc':[]}
  global_step = 0
  self.sess.run(tf.global_variables_initializer())
>> *)
Definition fit_init (w : world) (X : list sample) (Y : list label)
  : fit_state :=
  {| fs_world := run_initializer w; fs_X := X; fs_Y := Y;
     fs_global_step := 0; fs_last := None; fs_log := empty_log |}.

(** [fit]; the printed progress lines are left out. *)
Definition fit (w : world) (X : list sample) (Y : list label)
           (val_data : option (list sample * list label))
           (n_epoch batch_size : Z) (keep_prob : R)
           (en_exp_decay en_shuffle : bool) : result (world * log) :=
  s <- for_range n_epoch
                 (fit_epoch val_data n_epoch batch_size keep_prob
                            en_exp_decay en_shuffle)
                 (fit_init w X Y) ;;
  Ok (fs_world s, fs_log s).

(** The body of the loop of [predict]:
<<
  batch_pred = self.sess.run(self.logits, feed_dict={self.X:X_test_batch, self.keep_prob:1.0})
  batch_pred_list.append(batch_pred)
>> *)
Definition predict_batch (s : world * list TF.matrix)
           (X_test_batch : list sample) : result (world * list TF.matrix) :=
  let '(w, batch_pred_list) := s in
  ran <- run_logits w {| feed_X := X_test_batch; feed_Y := None;
                         feed_lr := None; feed_keep_prob := Some 1%R |} ;;
  let '(w, batch_pred) := ran in
  Ok (w, batch_pred_list ++ [batch_pred]).

(** The loop of [predict], up to [batch_pred_list]. *)
Definition predict_batches (w : world) (X_test : list sample)
           (batch_size : Z) : result (world * list TF.matrix) :=
  batches <- gen_batch X_test batch_size ;;
  for_each predict_batch batches (w, []).

(** [predict]: [return np.concatenate(batch_pred_list)] *)
Definition predict (w : world) (X_test : list sample) (batch_size : Z)
  : result (world * TF.matrix) :=
  s <- predict_batches w X_test batch_size ;;
  logits <- Np.concatenate (snd s) ;;
  Ok (fst s, logits).

(** A batch result [pred] is the logits of a run fed with [batch]. *)
Definition logits_of (batch : list sample) (pred : TF.matrix) : Prop :=
  exists w w' f,
    feed_X f = batch /\ feed_Y f = None /\ feed_keep_prob f = Some 1%R
    /\ run_logits w f = Ok (w', pred).

(** A pair of scores is what a validation run fed with [batch] returns. *)
Definition scores_of (batch : list sample * list label) (scores : R * R)
  : Prop :=
  exists w w' f,
    feed_X f = fst batch /\ feed_Y f = Some (snd batch)
    /\ feed_keep_prob f = Some 1%R
    /\ run_eval w f = Ok (w', scores).

End Loops.

End Conv1DClassifier.

(** ** Small sessions to run the loops on

    The world counts the training runs; the loss of a batch is its number
    of rows and its accuracy the number of training runs so far; the
    shuffle keeps the order. *)

Module Toy.

Local Open Scope R_scope.

Definition rnn_session : RNNTextClassifier.Session := {|
  RNNTextClassifier.world := nat;
  RNNTextClassifier.sample := Z;
  RNNTextClassifier.label := Z;
  RNNTextClassifier.rnn_state := nat;
  RNNTextClassifier.run_initializer := fun _ => O;
  RNNTextClassifier.run_init_state := fun _ _ => O;
  RNNTextClassifier.run_train := fun w f =>
    (S w, (S w, INR (length (RNNTextClassifier.feed_X f)), INR w));
  RNNTextClassifier.run_eval := fun w f =>
    (w, (INR (length (RNNTextClassifier.feed_X f)), INR w, S w));
  RNNTextClassifier.run_logits := fun w f =>
    (w, (map (fun x => [IZR x; 1; 0]) (RNNTextClassifier.feed_X f), S w));
  RNNTextClassifier.shuffle := fun w X Y => (w, (X, Y))
|}.

(** A convolutional session whose runs raise on a feed of one row, as the
    runs of the built graph do, and return on any other feed. *)
Definition conv_session : Conv1DClassifier.Session := {|
  Conv1DClassifier.world := nat;
  Conv1DClassifier.sample := Z;
  Conv1DClassifier.label := Z;
  Conv1DClassifier.run_initializer := fun _ => O;
  Conv1DClassifier.run_train := fun w f =>
    if Nat.eqb (length (Conv1DClassifier.feed_X f)) 1
    then Err InvalidArgumentError
    else Ok (S w, (INR (length (Conv1DClassifier.feed_X f)), INR w));
  Conv1DClassifier.run_eval := fun w f =>
    if Nat.eqb (length (Conv1DClassifier.feed_X f)) 1
    then Err InvalidArgumentError
    else Ok (w, (INR (length (Conv1DClassifier.feed_X f)), INR w));
  Conv1DClassifier.run_logits := fun w f =>
    if Nat.eqb (length (Conv1DClassifier.feed_X f)) 1
    then Err InvalidArgumentError
    else Ok (w, map (fun x => [IZR x; 1; 0]) (Conv1DClassifier.feed_X f));
  Conv1DClassifier.shuffle := fun w X Y => (w, (X, Y))
|}.

Definition rnn_config (stateful : bool) : RNNTextClassifier.config :=
  {| RNNTextClassifier.seq_len := 20;
     RNNTextClassifier.vocab_size := 5000;
     RNNTextClassifier.n_out := 3;
     RNNTextClassifier.embedding_dims := 128;
     RNNTextClassifier.cell_size := 128;
     RNNTextClassifier.grad_clip := 5;
     RNNTextClassifier.stateful := stateful |}.

Definition conv_config : Conv1DClassifier.config :=
  {| Conv1DClassifier.seq_len := 20;
     Conv1DClassifier.vocab_size := 5000;
     Conv1DClassifier.n_out := 3;
     Conv1DClassifier.embedding_dims := 50;
     Conv1DClassifier.n_filters := 250;
     Conv1DClassifier.kernel_size := 3;
     Conv1DClassifier.padding := "VALID";
     Conv1DClassifier.hidden_dims := 250 |}.

(** A convolution over 3 tokens with a window of 2 and 2 filters. *)
Definition small_conv_config : Conv1DClassifier.config :=
  {| Conv1DClassifier.seq_len := 3;
     Conv1DClassifier.vocab_size := 10;
     Conv1DClassifier.n_out := 2;
     Conv1DClassifier.embedding_dims := 1;
     Conv1DClassifier.n_filters := 2;
     Conv1DClassifier.kernel_size := 2;
     Conv1DClassifier.padding := "VALID";
     Conv1DClassifier.hidden_dims := 2 |}.

(** Values for the variables of the graph of [small_conv_config]. *)
Definition small_variables : Conv1DClassifier.Forward.variables :=
  {| Conv1DClassifier.Forward.E :=
       [[0]; [1]; [2]; [3]; [4]; [5]; [6]; [7]; [8]; [9]];
     Conv1DClassifier.Forward.conv_w := [[[1; 0]]; [[0; 1]]];
     Conv1DClassifier.Forward.conv_b := [0; 0];
     Conv1DClassifier.Forward.fully_connected_w := [[1; 0]; [0; 1]];
     Conv1DClassifier.Forward.fully_connected_b := [0; 0];
     Conv1DClassifier.Forward.w_out := [[1; 1]; [0; 1]];
     Conv1DClassifier.Forward.b_out := [0; 0] |}.

(** A session that runs the graph of [small_conv_config] on
    [small_variables]: its logits are [Forward.logits], and the other
    fetches raise where the logits do. *)
Definition graph_session : Conv1DClassifier.Session := {|
  Conv1DClassifier.world := nat;
  Conv1DClassifier.sample := list Z;
  Conv1DClassifier.label := list R;
  Conv1DClassifier.run_initializer := fun w => w;
  Conv1DClassifier.run_train := fun w f =>
    (_ <- Conv1DClassifier.Forward.logits small_conv_config small_variables
                                          (Conv1DClassifier.feed_X f) ;;
     Ok (S w, (INR (length (Conv1DClassifier.feed_X f)), INR w)))%result;
  Conv1DClassifier.run_eval := fun w f =>
    (_ <- Conv1DClassifier.Forward.logits small_conv_config small_variables
                                          (Conv1DClassifier.feed_X f) ;;
     Ok (w, (INR (length (Conv1DClassifier.feed_X f)), INR w)))%result;
  Conv1DClassifier.run_logits := fun w f =>
    (logits <- Conv1DClassifier.Forward.logits
                 small_conv_config small_variables
                 (Conv1DClassifier.feed_X f) ;;
     Ok (w, logits))%result;
  Conv1DClassifier.shuffle := fun w X Y => (w, (X, Y))
|}.

End Toy.


(** ** Where the real numbers stand for floats

    The ranges within which every intermediate value of a computation is an
    ordinary float, so that the real number of the model is the float of
    the code up to rounding. *)

Module FloatRange.

Local Open Scope R_scope.

(** Sizes for which [-n_epoch*len_X/batch_size] and the decay rate
    computed from it are ordinary floats. *)
Definition float_sized (n_epoch len_X batch_size : Z) : Prop :=
  (0 < n_epoch <= 2 ^ 62)%Z /\ (0 < len_X <= 2 ^ 62)%Z
  /\ (0 < batch_size <= 2 ^ 62)%Z.

(** Steps at which the decayed rate is an ordinary float: within a
    hundred times the length [n_epoch*len_X/batch_size] of the schedule,
    before or after its start. *)
Definition within_schedule (global_step : R) (n_epoch len_X batch_size : Z)
  : Prop :=
  Rabs global_step <= 100 * (IZR n_epoch * IZR len_X / IZR batch_size).

(** Scores whose float32 exponentials, their sum over a row and the
    quotients are ordinary floats. *)
Definition float32_scores (tensor : TF.matrix) : Prop :=
  Forall (fun row => (Z.of_nat (length row) <= 1000000)%Z
                     /\ Forall (fun x => Rabs x <= 30) row) tensor.

End FloatRange.

(** ** Which placeholders a tensor is computed from *)

Module Deps.

Import Graph.

Definition placeholder_id (t : tensor) : option nat :=
  match t with
  | Placeholder id _ _ => Some id
  | _ => None
  end.

(** Placeholder number [id] is among the tensors [t] is computed from. *)
Definition uses_placeholder (id : nat) (t : tensor) : bool :=
  mentions (fun s => match placeholder_id s with
                     | Some i => Nat.eqb i id
                     | None => false
                     end) t.

(** [t] is computed from the placeholder bound to attribute [name]. *)
Definition depends_on (self : attrs) (name : string) (t : tensor) : bool :=
  match get_tensor name self with
  | Ok p =>
      match placeholder_id p with
      | Some id => uses_placeholder id t
      | None => false
      end
  | Err _ => false
  end.

(** The tensors a training operation reads: the loss and, when the
    optimizer was given one, the learning rate. *)
Definition operation_inputs (o : operation) : list tensor :=
  match o with
  | AdamMinimize (Some learning_rate) loss => [learning_rate; loss]
  | AdamMinimize None loss => [loss]
  end.

Definition operation_depends_on (self : attrs) (name : string)
           (o : operation) : bool :=
  existsb (depends_on self name) (operation_inputs o).

End Deps.

(** ** The driver script (tensorflow-models/mlp_clf_test.py)

    The classifier, the data loader and the one-hot encoder it imports are
    not part of these sources; what is embedded is what the script itself
    computes from their results. *)

Module MlpClfTest.

Local Open Scope R_scope.

(** A numpy float: the mean of an empty array is [nan]. *)
Inductive npfloat : Type :=
| Finite (x : R)
| NaN.

(** [np.equal] of two 1-D arrays: elementwise, an array of length 1
    being broadcast; other length mismatches raise [ValueError]. *)
Definition np_equal (a b : list nat) : result (list bool) :=
  if Nat.eqb (length a) (length b)
  then Ok (map (fun p => Nat.eqb (fst p) (snd p)) (combine a b))
  else match a, b with
       | [x], _ => Ok (map (fun y => Nat.eqb x y) b)
       | _, [y] => Ok (map (fun x => Nat.eqb x y) a)
       | _, _ => Err ValueError
       end.

(** [.astype(float).mean()] *)
Definition astype_float_mean (l : list bool) : npfloat :=
  match l with
  | [] => NaN
  | _ => Finite (Py.mean (map (fun b : bool => if b then 1 else 0) l))
  end.

(** [final_acc]:
<<
    final_acc = np.equal(np.argmax(pred, 1), np.argmax(y_test, 1)).astype(float).mean()
>> *)
Definition final_acc (pred y_test : TF.matrix) : result npfloat :=
  (predicted <- Np.argmax_1 pred ;;
   expected <- Np.argmax_1 y_test ;;
   hits <- np_equal predicted expected ;;
   Ok (astype_float_mean hits))%result.

(** The file name [plot] saves the figure under, before it is joined to the
    directory: [sys.argv[0][:-3]]. *)
Definition figure_name {A : Type} (argv0 : list A) : list A :=
  Batching.slice argv0 0 (-3).

End MlpClfTest.



(** * Verification *)

(** ** The model on small inputs *)

Example gen_batch_7_3 :
  Batching.gen_batch [1; 2; 3; 4; 5; 6; 7]%nat 3
  = Ok [[1; 2; 3]; [4; 5; 6]; [7]]%nat.
Proof. reflexivity. Qed.

Example gen_batch_zero_step :
  Batching.gen_batch [1; 2; 3]%nat 0 = Err ValueError.
Proof. reflexivity. Qed.

Example gen_batch_negative_step :
  Batching.gen_batch [1; 2; 3]%nat (-2) = Ok [].
Proof. reflexivity. Qed.

Example range_down : Batching.range 7 0 (-3) = Ok [7; 4; 1]%Z.
Proof. reflexivity. Qed.

Example slice_negative_index :
  Batching.slice [1; 2; 3; 4; 5]%nat (-2) 7 = [4; 5]%nat.
Proof. reflexivity. Qed.

Example out_width_same_7_3_2 :
  TF.out_width "SAME" 7 3 2 = Ok 4%nat
  /\ TF.pad_left "SAME" 7 3 2 4 = 1%nat.
Proof. split; reflexivity. Qed.

Example out_width_valid_7_3_2 : TF.out_width "VALID" 7 3 2 = Ok 3%nat.
Proof. reflexivity. Qed.

Example out_width_valid_too_short : TF.out_width "VALID" 2 3 1 = Err ValueError.
Proof. reflexivity. Qed.

Example conv_current_seq_len :
  Conv1DClassifier.current_seq_len Toy.conv_config = Some 18%Z.
Proof. reflexivity. Qed.

Example conv_unknown_padding_raises :
  Conv1DClassifier.Build.init
    {| Conv1DClassifier.seq_len := 20;
       Conv1DClassifier.vocab_size := 5000;
       Conv1DClassifier.n_out := 3;
       Conv1DClassifier.embedding_dims := 50;
       Conv1DClassifier.n_filters := 250;
       Conv1DClassifier.kernel_size := 3;
       Conv1DClassifier.padding := "FULL";
       Conv1DClassifier.hidden_dims := 250 |}
  = Err ValueError.
Proof. reflexivity. Qed.

(** Five rows in batches of two, stateful: the two full batches move the
    carried state, the last row does not. *)
Example stateful_predict_5_2 :
  match RNNTextClassifier.predict_batches
          (H := Toy.rnn_session) (Toy.rnn_config true) O [5; 0; 7; 1; 2]%Z 2
  with
  | Ok s => Some (RNNTextClassifier.ps_next_state s,
                  map (@length _) (RNNTextClassifier.ps_batch_pred_list s))
  | Err _ => None
  end = Some (1%nat, [2; 2; 1]%nat).
Proof. reflexivity. Qed.


(** ** Minibatch slicing *)

Section BatchingFacts.

Context {A : Type}.
Implicit Types (arr l : list A) (n fuel : nat).

Lemma slice_window arr (i bs : Z) :
  (0 <= i)%Z -> (0 < bs)%Z ->
  Batching.slice arr i (i + bs)
  = firstn (Z.to_nat bs) (skipn (Z.to_nat i) arr).
Proof.
  intros Hi Hbs. unfold Batching.slice, Batching.norm_index.
  destruct (Z.ltb_spec i 0) as [|_]; [lia|].
  destruct (Z.ltb_spec (i + bs) 0) as [|_]; [lia|].
  destruct (Z_lt_le_dec i (Z.of_nat (length arr))) as [Hlt|Hge].
  - rewrite (Z.min_l i) by lia.
    destruct (Z_le_gt_dec (i + bs) (Z.of_nat (length arr))) as [Hfit|Hcut].
    + rewrite Z.min_l by lia. f_equal. lia.
    + rewrite Z.min_r by lia.
      rewrite !firstn_all2; trivial; rewrite length_skipn; lia.
  - rewrite !Z.min_r by lia. rewrite Z.sub_diag. simpl.
    rewrite skipn_all2 by lia. now rewrite firstn_nil.
Qed.

Lemma range_chunks arr (bs : Z) :
  (0 < bs)%Z ->
  forall fuel (i : Z), (0 <= i)%Z ->
    map (fun j => Batching.slice arr j (j + bs))
        (Batching.range_from fuel i (Z.of_nat (length arr)) bs)
    = chunks fuel (Z.to_nat bs) (skipn (Z.to_nat i) arr).
Proof.
  intros Hbs. induction fuel as [|fuel IH]; intros i Hi; simpl; trivial.
  destruct (Z.ltb_spec 0 bs) as [_|]; [|lia].
  destruct (Z.ltb_spec i (Z.of_nat (length arr))) as [Hlt|Hge].
  - assert (Hlen : (length (skipn (Z.to_nat i) arr) <> 0)%nat)
      by (rewrite length_skipn; lia).
    destruct (skipn (Z.to_nat i) arr) as [|a rest] eqn:E;
      [now elim Hlen|].
    simpl map. rewrite slice_window, E by lia. f_equal.
    rewrite IH by lia. f_equal.
    rewrite <- E, skipn_skipn. f_equal. lia.
  - rewrite skipn_all2 by lia. reflexivity.
Qed.

Lemma gen_batch_chunks arr (bs : Z) :
  (0 < bs)%Z ->
  Batching.gen_batch arr bs = Ok (chunks (length arr) (Z.to_nat bs) arr).
Proof.
  intros Hbs. unfold Batching.gen_batch, Batching.range.
  destruct (Z.eqb_spec bs 0) as [|_]; [lia|]. simpl. f_equal.
  rewrite Z.sub_0_r, Zabs2Nat.id.
  now rewrite range_chunks by lia.
Qed.

Lemma chunks_nil fuel n : chunks fuel n (@nil A) = [].
Proof. now destruct fuel. Qed.

Lemma chunks_concat n :
  forall fuel l, (0 < n)%nat -> (length l <= fuel)%nat ->
    concat (chunks fuel n l) = l.
Proof.
  induction fuel as [|fuel IH]; intros l Hn Hl.
  - destruct l; simpl in *; trivial; lia.
  - destruct l as [|a l']; trivial.
    cbn [chunks concat]. rewrite IH; trivial.
    + apply firstn_skipn.
    + rewrite length_skipn. cbn [length] in *. lia.
Qed.

Lemma chunks_more_fuel n :
  forall fuel fuel' l, (0 < n)%nat ->
    (length l <= fuel)%nat -> (length l <= fuel')%nat ->
    chunks fuel n l = chunks fuel' n l.
Proof.
  induction fuel as [|fuel IH]; intros fuel' l Hn Hl Hl'.
  - destruct l; [now rewrite !chunks_nil | simpl in Hl; lia].
  - destruct l as [|a l']; [now rewrite !chunks_nil|].
    destruct fuel' as [|fuel']; [simpl in Hl'; lia|].
    cbn [chunks]. f_equal.
    apply IH; trivial; rewrite length_skipn; cbn [length] in *; lia.
Qed.

Lemma chunks_full_length n :
  forall fuel l k, (0 < n)%nat -> (length l <= fuel)%nat ->
    (S k < length (chunks fuel n l))%nat ->
    length (nth k (chunks fuel n l) []) = n.
Proof.
  induction fuel as [|fuel IH]; intros l k Hn Hl Hk; [simpl in Hk; lia|].
  destruct l as [|a l']; [simpl in Hk; lia|].
  cbn [chunks] in *. cbn [length] in Hk.
  destruct k as [|k].
  - cbn [nth]. rewrite length_firstn.
    destruct (le_lt_dec (length (a :: l')) n) as [Hshort|]; [|lia].
    rewrite skipn_all2, chunks_nil in Hk by trivial. simpl in Hk. lia.
  - cbn [nth]. apply IH; trivial; [|lia].
    rewrite length_skipn. cbn [length] in *. lia.
Qed.

Lemma chunks_last_length n :
  forall fuel l, (0 < n)%nat -> (length l <= fuel)%nat ->
    (length l mod n <> 0)%nat ->
    length (last (chunks fuel n l) []) = (length l mod n)%nat.
Proof.
  induction fuel as [|fuel IH]; intros l Hn Hl Hmod.
  - destruct l; [|simpl in Hl; lia].
    simpl in Hmod. rewrite Nat.Div0.mod_0_l in Hmod. lia.
  - destruct l as [|a l'].
    { simpl in Hmod. rewrite Nat.Div0.mod_0_l in Hmod. lia. }
    cbn [chunks].
    destruct (le_lt_dec (length (a :: l')) n) as [Hshort|Hlong].
    + rewrite skipn_all2, chunks_nil by trivial. cbn [last].
      rewrite firstn_all2 by trivial.
      assert (length (a :: l') <> n)
        by (intros E; rewrite E, Nat.Div0.mod_same in Hmod; lia).
      rewrite Nat.mod_small; lia.
    + assert (Hskip : length (skipn n (a :: l')) = (length (a :: l') - n)%nat)
        by apply length_skipn.
      assert (Hmod' : (length (skipn n (a :: l')) mod n
                       = length (a :: l') mod n)%nat).
      { rewrite Hskip.
        replace (length (a :: l')) with ((length (a :: l') - n) + 1 * n)%nat
          at 2 by lia.
        now rewrite Nat.Div0.mod_add. }
      assert (Hne : chunks fuel n (skipn n (a :: l')) <> []).
      { destruct fuel as [|fuel']; [cbn [length] in *; lia|].
        destruct (skipn n (a :: l')) eqn:E; [cbn [length] in *; lia|].
        discriminate. }
      destruct (chunks fuel n (skipn n (a :: l'))) as [|c cs] eqn:E;
        [now elim Hne|].
      change (last (firstn n (a :: l') :: c :: cs) [])
        with (last (c :: cs) []).
      rewrite <- E, IH; trivial; cbn [length] in *; lia.
Qed.

End BatchingFacts.

(** C3 (both classes share [gen_batch]). For a positive [batch_size],
    [gen_batch] yields batches whose concatenation, in order, is [arr];
    every batch but the last has exactly [batch_size] elements, and the last
    has [len(arr) mod batch_size] elements when that is not zero. *)
Theorem gen_batch_partitions (A : Type) (arr : list A) (batch_size : Z) :
  (0 < batch_size)%Z ->
  exists batches : list (list A),
    Batching.gen_batch arr batch_size = Ok batches
    /\ RNNTextClassifier.gen_batch arr batch_size = Ok batches
    /\ Conv1DClassifier.gen_batch arr batch_size = Ok batches
    /\ concat batches = arr
    /\ (forall k, (S k < length batches)%nat ->
          Z.of_nat (length (nth k batches [])) = batch_size)
    /\ ((Z.of_nat (length arr) mod batch_size <> 0)%Z ->
          Z.of_nat (length (last batches []))
          = (Z.of_nat (length arr) mod batch_size)%Z).
Proof.
  intros Hbs.
  assert (Hn : (0 < Z.to_nat batch_size)%nat) by lia.
  exists (chunks (length arr) (Z.to_nat batch_size) arr).
  repeat split; try (now apply gen_batch_chunks).
  - now apply chunks_concat.
  - intros k Hk. rewrite chunks_full_length; trivial. lia.
  - intros Hmod.
    assert (E : Z.of_nat (length arr mod Z.to_nat batch_size)
                = (Z.of_nat (length arr) mod batch_size)%Z).
    { rewrite Nat2Z.inj_mod, Z2Nat.id; lia. }
    rewrite chunks_last_length; trivial. lia.
Qed.

Lemma gen_batch_partitions_witness :
  exists batches : list (list nat),
    Batching.gen_batch [1; 2; 3; 4; 5; 6; 7]%nat 3 = Ok batches
    /\ RNNTextClassifier.gen_batch [1; 2; 3; 4; 5; 6; 7]%nat 3 = Ok batches
    /\ Conv1DClassifier.gen_batch [1; 2; 3; 4; 5; 6; 7]%nat 3 = Ok batches
    /\ concat batches = [1; 2; 3; 4; 5; 6; 7]%nat
    /\ (forall k, (S k < length batches)%nat ->
          Z.of_nat (length (nth k batches [])) = 3%Z)
    /\ ((Z.of_nat (length [1; 2; 3; 4; 5; 6; 7]%nat) mod 3 <> 0)%Z ->
          Z.of_nat (length (last batches []))
          = (Z.of_nat (length [1; 2; 3; 4; 5; 6; 7]%nat) mod 3)%Z).
Proof.
  apply (@gen_batch_partitions nat [1; 2; 3; 4; 5; 6; 7]%nat 3%Z). lia.
Defined.


(** ** Learning-rate decay *)

Section ExpDecay.

Local Open Scope R_scope.

(** The closed form both [decrease_lr] methods compute: the rate starts at
    [max_lr] and reaches [min_lr] after [steps] iterations. *)
Variables max_lr min_lr steps : R.
Hypothesis min_pos : 0 < min_lr.
Hypothesis min_lt_max : min_lr < max_lr.
Hypothesis steps_pos : 0 < steps.

Let decay_rate := ln (min_lr / max_lr) / - steps.
Let lr (g : R) := max_lr * exp (- decay_rate * g).

Lemma decay_rate_pos : 0 < decay_rate.
Proof.
  assert (Hmax : 0 < max_lr) by lra.
  assert (Hratio : 0 < min_lr / max_lr) by now apply Rdiv_lt_0_compat.
  assert (Hlt1 : min_lr / max_lr < 1).
  { apply Rmult_lt_reg_r with max_lr; trivial.
    unfold Rdiv. rewrite Rmult_assoc, Rinv_l; lra. }
  assert (Hln : ln (min_lr / max_lr) < 0)
    by (rewrite <- ln_1; now apply ln_increasing).
  unfold decay_rate.
  replace (ln (min_lr / max_lr) / - steps)
    with ((- ln (min_lr / max_lr)) / steps) by (field; lra).
  apply Rdiv_lt_0_compat; lra.
Qed.

Lemma exp_decay_decreasing g1 g2 : g1 < g2 -> lr g2 < lr g1.
Proof.
  intros Hg. unfold lr. apply Rmult_lt_compat_l; [lra|].
  apply exp_increasing. pose proof decay_rate_pos. nra.
Qed.

Lemma exp_decay_start : lr 0 = max_lr.
Proof. unfold lr. rewrite Rmult_0_r, exp_0. lra. Qed.

Lemma exp_decay_end : lr steps = min_lr.
Proof.
  assert (Hmax : 0 < max_lr) by lra.
  unfold lr, decay_rate.
  replace (- (ln (min_lr / max_lr) / - steps) * steps)
    with (ln (min_lr / max_lr)) by (field; lra).
  rewrite exp_ln by now apply Rdiv_lt_0_compat.
  field; lra.
Qed.

End ExpDecay.

Lemma total_steps_pos (n_epoch len_X batch_size : Z) :
  (0 < n_epoch)%Z -> (0 < len_X)%Z -> (0 < batch_size)%Z ->
  (0 < IZR n_epoch * IZR len_X / IZR batch_size)%R
  /\ (IZR (- n_epoch * len_X) / IZR batch_size
      = - (IZR n_epoch * IZR len_X / IZR batch_size))%R.
Proof.
  intros Hn Hl Hb.
  assert (0 < IZR n_epoch)%R by now apply IZR_lt.
  assert (0 < IZR len_X)%R by now apply IZR_lt.
  assert (0 < IZR batch_size)%R by now apply IZR_lt.
  split.
  - apply Rdiv_lt_0_compat; trivial. now apply Rmult_lt_0_compat.
  - rewrite mult_IZR, opp_IZR. field. lra.
Qed.


(** ** Attention pooling *)

Section ListFacts.

Context {A B C : Type}.

Lemma combine_map_r (f : B -> C) (l : list A) (l' : list B) :
  combine l (map f l') = map (fun p => (fst p, f (snd p))) (combine l l').
Proof.
  revert l'. induction l as [|a l IH]; intros [|b l']; simpl; trivial.
  now rewrite IH.
Qed.

Lemma combine_diag (f : A -> B) (l : list A) :
  combine l (map f l) = map (fun x => (x, f x)) l.
Proof. induction l as [|a l IH]; simpl; trivial. now rewrite IH. Qed.

Lemma concat_singletons (f : A -> B) (l : list A) :
  concat (map (fun x => [f x]) l) = map f l.
Proof. induction l as [|a l IH]; simpl; trivial. now rewrite IH. Qed.

Lemma concat_concat_map (l : list (list (list A))) :
  concat (concat l) = concat (map (@concat A) l).
Proof.
  induction l as [|x l IH]; simpl; trivial.
  now rewrite concat_app, IH.
Qed.

Lemma chunks_concat_uniform (n : nat) (ls : list (list A)) :
  (0 < n)%nat -> Forall (fun l => length l = n) ls ->
  forall fuel, (length (concat ls) <= fuel)%nat ->
    chunks fuel n (concat ls) = ls.
Proof.
  intros Hn Hall. induction Hall as [|l ls Hl Hls IH]; intros fuel Hfuel.
  - now destruct fuel.
  - simpl in *. rewrite length_app in Hfuel.
    destruct fuel as [|fuel]; [lia|].
    assert (Hstep : chunks (S fuel) n (l ++ concat ls)
                    = firstn n (l ++ concat ls)
                        :: chunks fuel n (skipn n (l ++ concat ls))).
    { destruct l; [simpl in Hl; lia | reflexivity]. }
    rewrite Hstep, <- Hl.
    rewrite firstn_app, Nat.sub_diag, firstn_all, firstn_O, app_nil_r.
    rewrite skipn_app, Nat.sub_diag, skipn_all, skipn_O. simpl app.
    rewrite Hl, IH; trivial. lia.
Qed.

End ListFacts.

Section AttentionFacts.

Local Open Scope R_scope.
Import TF.

Lemma column_expand (h : vector) :
  column 0 (map (fun x => [x]) h) = h.
Proof. unfold column. rewrite map_map. simpl. apply map_id. Qed.

Lemma matmul_column_vector (a : matrix) (h : vector) :
  matmul 1 a (map (fun x => [x]) h) = map (fun row => [dot row h]) a.
Proof. unfold matmul. simpl. now rewrite column_expand. Qed.

Lemma reshape_scores (seq_len : nat) (outputs : tensor3) (hs : matrix) :
  (0 < seq_len)%nat ->
  Forall (fun o => length o = seq_len) outputs ->
  reshape_rows seq_len (tanh3 (matmul3 1 outputs (expand_dims_2 hs)))
  = map RNNTextClassifier.Forward.scores (combine outputs hs).
Proof.
  intros Hpos Hshape. unfold reshape_rows, tanh3, matmul3, expand_dims_2.
  rewrite combine_map_r, !map_map. cbn [fst snd].
  rewrite concat_concat_map, map_map.
  erewrite map_ext.
  2:{ intros p. rewrite matmul_column_vector, map_map. cbn [map].
      apply (concat_singletons (fun row => Rtrigo_def.tanh (dot row (snd p)))). }
  apply chunks_concat_uniform; trivial.
  clear Hpos. revert hs.
  induction Hshape as [|o os Ho Hos IH]; intros [|h hs]; simpl;
    constructor; auto.
  unfold RNNTextClassifier.Forward.scores. now rewrite length_map.
Qed.

Lemma softmax_rows (m : matrix) :
  RNNTextClassifier.Forward.softmax m
  = map (fun row => map (fun e => e / reduce_sum (map exp row))
                        (map exp row)) m.
Proof.
  unfold RNNTextClassifier.Forward.softmax, div_broadcast_1, reduce_sum_1_keep, exp2.
  rewrite combine_diag, !map_map. reflexivity.
Qed.

Lemma reduce_sum_exp_pos (v : vector) :
  v <> [] -> 0 < reduce_sum (map exp v).
Proof.
  destruct v as [|x v]; [congruence|]. intros _. simpl.
  assert (0 <= reduce_sum (map exp v)).
  { induction v as [|y v IH]; simpl; [lra|].
    pose proof (exp_pos y). lra. }
  pose proof (exp_pos x). lra.
Qed.

Lemma reduce_sum_div (v : vector) (s : R) :
  reduce_sum (map (fun e => e / s) v) = reduce_sum v / s.
Proof.
  induction v as [|x v IH]; simpl; [unfold Rdiv; ring|].
  rewrite IH. unfold Rdiv. ring.
Qed.

Lemma softmax_row_convex (v : vector) :
  v <> [] ->
  let w := map (fun e => e / reduce_sum (map exp v)) (map exp v) in
  length w = length v
  /\ Forall (fun x => 0 <= x) w
  /\ reduce_sum w = 1.
Proof.
  intros Hv w. pose proof (reduce_sum_exp_pos Hv) as Hs.
  unfold w. repeat split.
  - now rewrite !length_map.
  - rewrite map_map. apply Forall_forall. intros x Hx.
    apply in_map_iff in Hx. destruct Hx as [y [<- _]].
    apply Rlt_le, Rdiv_lt_0_compat; trivial. apply exp_pos.
  - rewrite reduce_sum_div. field. lra.
Qed.

End AttentionFacts.

Section PoolingFacts.

Local Open Scope R_scope.
Import TF.

Lemma combine_map_both {A B A' B' : Type} (f : A -> A') (g : B -> B')
      (l : list A) (l' : list B) :
  combine (map f l) (map g l')
  = map (fun p => (f (fst p), g (snd p))) (combine l l').
Proof.
  revert l'. induction l as [|a l IH]; intros [|b l']; simpl; trivial.
  now rewrite IH.
Qed.

Lemma combine_diag_id {A : Type} (l : list A) :
  combine l l = map (fun x => (x, x)) l.
Proof. induction l as [|a l IH]; simpl; trivial. now rewrite IH. Qed.

Lemma map_const_seq {A : Type} (c : A) (n start : nat) :
  map (fun _ => c) (seq start n) = repeat c n.
Proof.
  revert start. induction n as [|n IH]; intros start; simpl; trivial.
  now rewrite IH.
Qed.

Lemma list_as_map_nth {A : Type} (d : A) (l : list A) :
  l = map (fun j => nth j l d) (seq 0 (length l)).
Proof.
  induction l as [|a l IH]; simpl; trivial.
  rewrite <- seq_shift, map_map. now rewrite <- IH.
Qed.

Lemma dot_nil_l (v : vector) : dot [] v = 0.
Proof. reflexivity. Qed.

Lemma dot_nil_r (u : vector) : dot u [] = 0.
Proof. unfold dot. now rewrite combine_nil. Qed.

Lemma dot_cons (x y : R) (u v : vector) :
  dot (x :: u) (y :: v) = x * y + dot u v.
Proof. reflexivity. Qed.

(** Multiplying the transposed outputs by the weight column is the
    weighted sum of the output rows. *)
Lemma pooled_weighted_sum (cell : nat) (o : matrix) :
  Forall (fun r => length r = cell) o ->
  forall w : vector,
    map (fun j => dot (column j o) w) (seq 0 cell) = weighted_sum cell w o.
Proof.
  unfold weighted_sum.
  induction 1 as [|r o Hr Ho IH]; intros w.
  - rewrite combine_nil. simpl. apply map_const_seq.
  - destruct w as [|wt w].
    + simpl fold_right. erewrite map_ext; [apply map_const_seq|].
      intros j. apply dot_nil_r.
    + cbn [combine fold_right fst snd]. rewrite <- IH.
      assert (Er : map (fun j => nth j r 0) (seq 0 cell) = r)
        by (rewrite <- Hr; symmetry; apply list_as_map_nth).
      transitivity
        (map (fun q => wt * fst q + snd q)
             (combine (map (fun j => nth j r 0) (seq 0 cell))
                      (map (fun j => dot (column j o) w) (seq 0 cell))));
        [|now rewrite Er].
      rewrite (combine_map_both (fun j => nth j r 0)
                                (fun j => dot (column j o) w)).
      rewrite combine_diag_id, !map_map. cbn [fst snd].
      apply map_ext. intros j. unfold column. cbn [map].
      rewrite dot_cons. ring.
Qed.

Lemma attention_pooling_rows (cell : nat) (outputs : tensor3) (W : matrix) :
  squeeze_2 (matmul3 1 (transpose_021 cell outputs) (expand_dims_2 W))
  = map (fun p => map (fun j => dot (column j (fst p)) (snd p)) (seq 0 cell))
        (combine outputs W).
Proof.
  unfold squeeze_2, matmul3, transpose_021, expand_dims_2.
  rewrite combine_map_both, !map_map. cbn [fst snd].
  apply map_ext. intros [o w]. cbn [fst snd].
  rewrite matmul_column_vector. unfold transpose.
  now rewrite !map_map.
Qed.

End PoolingFacts.

(** C4. In [RNNTextClassifier.Forward.add_attention], for a batch of RNN outputs of
    shape (batch, seq_len, cell_size) with [seq_len >= 1] and final hidden
    states of shape (batch, cell_size), the weights produced by the custom
    softmax are nonnegative and sum to 1 over the sequence positions of each
    example, and the value of the stage is, per example, the weighted sum
    of the output vectors with these weights: a convex combination. *)
Theorem attention_is_weighted_average
        (seq_len cell_size : nat) (outputs : TF.tensor3) (final_h : TF.matrix) :
  (0 < seq_len)%nat ->
  Forall (fun o => length o = seq_len) outputs ->
  length final_h = length outputs ->
  let weights := RNNTextClassifier.Forward.attention_weights seq_len outputs final_h in
  length weights = length outputs
  /\ Forall (fun w => length w = seq_len
                      /\ Forall (fun x => (0 <= x)%R) w
                      /\ TF.reduce_sum w = 1%R) weights
  /\ (Forall (Forall (fun r => length r = cell_size)) outputs ->
      RNNTextClassifier.Forward.add_attention seq_len cell_size outputs final_h
      = map (fun p => weighted_sum cell_size (snd p) (fst p))
            (combine outputs weights)).
Proof.
  intros Hpos Hshape Hbatch weights.
  assert (Hw : weights
               = map (fun v => map (fun e => (e / TF.reduce_sum (map exp v))%R)
                                   (map exp v))
                     (map RNNTextClassifier.Forward.scores (combine outputs final_h))).
  { unfold weights, RNNTextClassifier.Forward.attention_weights.
    now rewrite reshape_scores, softmax_rows. }
  split; [|split].
  - rewrite Hw, !length_map, length_combine. lia.
  - rewrite Hw, map_map. apply Forall_forall. intros w Hin.
    apply in_map_iff in Hin. destruct Hin as [[o h] [<- Hin]].
    apply in_combine_l in Hin.
    assert (Ho : length o = seq_len)
      by exact (proj1 (Forall_forall _ _) Hshape o Hin).
    assert (Hne : RNNTextClassifier.Forward.scores (o, h) <> []).
    { unfold RNNTextClassifier.Forward.scores. cbn [fst].
      destruct o; [simpl in Ho; lia | discriminate]. }
    destruct (softmax_row_convex Hne) as [Hlen [Hnonneg Hsum]].
    repeat split; trivial.
    rewrite Hlen. unfold RNNTextClassifier.Forward.scores. now rewrite length_map.
  - intros Hcells. unfold RNNTextClassifier.Forward.add_attention. fold weights.
    rewrite attention_pooling_rows. apply map_ext_in. intros [o w] Hin.
    cbn [fst snd]. apply pooled_weighted_sum.
    apply in_combine_l in Hin.
    exact (proj1 (Forall_forall _ _) Hcells o Hin).
Qed.


(** ** Convolution and global max-pool *)

Section MaxPoolFacts.

Local Open Scope R_scope.
Import TF.

Lemma fold_left_Rmax_spec (rest : vector) :
  forall x,
    let m := fold_left Rmax rest x in
    (m = x \/ In m rest) /\ x <= m /\ Forall (fun y => y <= m) rest.
Proof.
  induction rest as [|y rest IH]; intros x; simpl.
  - repeat split; auto; lra.
  - destruct (IH (Rmax x y)) as [Hin [Hle Hall]].
    pose proof (Rmax_l x y). pose proof (Rmax_r x y).
    repeat split.
    + destruct Hin as [E|Hin]; auto.
      rewrite E. unfold Rmax. destruct (Rle_dec x y); auto.
    + lra.
    + constructor; trivial. lra.
Qed.

(** [maximum] is attained in the list and bounds every element. *)
Lemma maximum_spec (v : vector) :
  v <> [] -> In (maximum v) v /\ Forall (fun y => y <= maximum v) v.
Proof.
  destruct v as [|x rest]; [congruence|]. intros _. unfold maximum.
  destruct (fold_left_Rmax_spec rest x) as [Hin [Hle Hall]].
  split.
  - destruct Hin as [E|Hin]; [left; now rewrite E | now right].
  - now constructor.
Qed.

Lemma out_width_global (pad : string) (x : matrix) (k : Z) :
  (pad = "VALID" \/ pad = "SAME")%string ->
  (1 <= k)%Z -> Z.of_nat (length x) = k ->
  out_width pad (length x) k k = Ok 1%nat
  /\ pad_left pad (length x) k k 1 = 0%nat.
Proof.
  intros Hpad Hk Hlen. unfold out_width, pad_left.
  destruct (Z.leb_spec k 0) as [|_]; [lia|]. simpl orb.
  destruct Hpad as [-> | ->]; simpl String.eqb.
  - rewrite Hlen, Z.leb_refl, Z.sub_diag, Z.div_0_l by lia. auto.
  - rewrite Hlen. split.
    + f_equal. replace (k + k - 1)%Z with (1 * k + (k - 1))%Z by lia.
      rewrite Z.div_add_l, Z.div_small by lia. reflexivity.
    + replace ((Z.of_nat 1 - 1) * k + k - k)%Z with 0%Z by lia.
      reflexivity.
Qed.

(** The per-channel maxima over all the positions of one example. *)
Lemma max_pool_global (channels : nat) (pad : string) (x : matrix) (k : Z) :
  (pad = "VALID" \/ pad = "SAME")%string ->
  (1 <= k)%Z -> Z.of_nat (length x) = k ->
  max_pool_1k channels k k pad x
  = Ok [map (fun c => maximum (column c x)) (seq 0 channels)].
Proof.
  intros Hpad Hk Hlen. unfold max_pool_1k.
  destruct (out_width_global x Hpad Hk Hlen) as [Hout Hleft].
  rewrite Hout. cbn [bind]. rewrite Hleft. cbn [seq map].
  unfold window. rewrite Nat.sub_0_r, Nat.add_0_l, Nat.sub_0_r.
  replace (Z.to_nat k) with (length x) by lia.
  rewrite Nat.min_id, firstn_all. reflexivity.
Qed.

Lemma conv1d_length (k cin cout : nat) (pad : string) (x : matrix)
      (filters : tensor3) (width : Z) :
  (1 <= k)%nat ->
  ((pad = "VALID" /\ width = Z.of_nat (length x) - Z.of_nat k + 1)
   \/ (pad = "SAME" /\ width = Z.of_nat (length x)))%string%Z ->
  (1 <= width)%Z ->
  exists conv, conv1d k cin cout 1 pad x filters = Ok conv
               /\ Z.of_nat (length conv) = width.
Proof.
  intros Hk Hpad Hw. unfold conv1d, out_width.
  destruct (Nat.eqb_spec k 0) as [|_]; [lia|].
  destruct (Z.leb_spec (Z.of_nat k) 0) as [|_]; [lia|]. simpl orb.
  destruct Hpad as [[-> ->] | [-> ->]];
    [change (negb (valid_padding_name "VALID")) with false
    |change (negb (valid_padding_name "SAME")) with false];
    cbv iota; simpl String.eqb.
  - destruct (Z.leb_spec (Z.of_nat k) (Z.of_nat (length x))) as [_|]; [|lia].
    simpl bind. eexists. split; [reflexivity|].
    rewrite length_map, length_seq, Z.div_1_r. lia.
  - simpl bind. eexists. split; [reflexivity|].
    rewrite length_map, length_seq, Z.div_1_r. lia.
Qed.

End MaxPoolFacts.

Section MapMFacts.

Context {A B : Type}.

Lemma mapM_ok_map (f : A -> result B) (g : A -> B) (l : list A) :
  (forall a, In a l -> f a = Ok (g a)) -> mapM f l = Ok (map g l).
Proof.
  induction l as [|a l IH]; intros Hf; simpl; trivial.
  rewrite (Hf a) by now left. simpl.
  rewrite IH by (intros; apply Hf; now right). reflexivity.
Qed.

Lemma mapM_ok_exists (f : A -> result B) (P : B -> Prop) (l : list A) :
  (forall a, In a l -> exists b, f a = Ok b /\ P b) ->
  exists bs, mapM f l = Ok bs /\ length bs = length l /\ Forall P bs.
Proof.
  induction l as [|a l IH]; intros Hf; simpl.
  - exists []. auto.
  - destruct (Hf a) as [b [Hb HP]]; [now left|].
    destruct IH as [bs [Hbs [Hlen Hall]]]; [intros; apply Hf; now right|].
    exists (b :: bs). rewrite Hb, Hbs. simpl. auto.
Qed.

End MapMFacts.

Section SqueezeFacts.

Lemma squeeze_of_vector (v : TF.vector) :
  length v <> 1%nat -> squeeze (of_vector v) = of_vector v.
Proof.
  intros Hv. unfold of_vector.
  assert (Hmap : map squeeze (map Scalar v) = map Scalar v)
    by (rewrite map_map; now apply map_ext).
  destruct v as [|a [|b v]]; trivial; [simpl in Hv; lia|].
  cbn [map squeeze] in *. now rewrite Hmap.
Qed.

Lemma squeeze_pooled_example (v : TF.vector) :
  squeeze (of_tensor3 [[v]]) = squeeze (of_vector v).
Proof. reflexivity. Qed.

Lemma squeeze_pooled_batch (channels : nat) (pooled : list TF.vector) :
  length pooled <> 1%nat -> channels <> 1%nat ->
  Forall (fun v => length v = channels) pooled ->
  squeeze (of_tensor4 (map (fun v => [[v]]) pooled)) = of_matrix pooled.
Proof.
  intros Hbatch Hch Hall. unfold of_tensor4, of_matrix.
  assert (Hmap : map squeeze (map of_tensor3 (map (fun v => [[v]]) pooled))
                 = map of_vector pooled).
  { rewrite !map_map. apply map_ext_in. intros v Hin.
    rewrite squeeze_pooled_example. apply squeeze_of_vector.
    rewrite (proj1 (Forall_forall _ _) Hall v Hin). trivial. }
  destruct pooled as [|a [|b pooled]]; trivial; [simpl in Hbatch; lia|].
  cbn [map squeeze] in *. now rewrite Hmap.
Qed.

Lemma squeeze_pooled_single (v : TF.vector) :
  length v <> 1%nat ->
  squeeze (of_tensor4 [[[v]]]) = of_vector v.
Proof. intros Hv. now apply squeeze_of_vector. Qed.

End SqueezeFacts.

Lemma current_seq_len_cases (self : Conv1DClassifier.config) (k : Z) :
  Conv1DClassifier.current_seq_len self = Some k ->
  (Conv1DClassifier.padding self = "VALID"%string
   /\ k = (Conv1DClassifier.seq_len self - Conv1DClassifier.kernel_size self + 1)%Z)
  \/ (Conv1DClassifier.padding self = "SAME"%string
      /\ k = Conv1DClassifier.seq_len self).
Proof.
  unfold Conv1DClassifier.current_seq_len.
  destruct (String.eqb_spec (Conv1DClassifier.padding self) "SAME") as [Es|_].
  - intros [= <-]. now right.
  - destruct (String.eqb_spec (Conv1DClassifier.padding self) "VALID") as [Ev|_].
    + intros [= <-]. now left.
    + discriminate.
Qed.

(** Channel [c] of the pooled vector of example [i] is the maximum of that
    channel over the positions of the example. *)
Lemma channel_maxima_nth (channels : nat) (k : Z) (conv : TF.tensor3)
      (i c : nat) :
  (1 <= k)%Z ->
  Forall (fun x => Z.of_nat (length x) = k) conv ->
  (i < length conv)%nat -> (c < channels)%nat ->
  let pooled :=
    map (fun x => map (fun c => TF.maximum (TF.column c x)) (seq 0 channels))
        conv in
  let v := nth c (nth i pooled []) 0%R in
  let col := TF.column c (nth i conv []) in
  In v col /\ Forall (fun y => (y <= v)%R) col.
Proof.
  intros Hk Hshape Hi Hc pooled v col. subst pooled v col.
  set (cm := fun x : TF.matrix =>
               map (fun c => TF.maximum (TF.column c x)) (seq 0 channels)).
  rewrite (nth_indep _ [] (cm [])) by now rewrite length_map.
  rewrite map_nth. unfold cm.
  rewrite (nth_indep _ 0%R (TF.maximum (TF.column 0 (nth i conv []))))
    by now rewrite length_map, length_seq.
  rewrite (map_nth (fun c => TF.maximum (TF.column c (nth i conv [])))).
  rewrite seq_nth by trivial. cbn [Nat.add].
  apply maximum_spec.
  assert (Hx : Z.of_nat (length (nth i conv [])) = k)
    by (apply (proj1 (Forall_forall _ _) Hshape); now apply nth_In).
  unfold TF.column. destruct (nth i conv []); [simpl in Hx; lia|discriminate].
Qed.

(** C5. In [Conv1DClassifier], when the window [current_seq_len] is at least
    1, the convolution stage turns sequences of [seq_len] embedded tokens
    into sequences of [current_seq_len] feature vectors
    ([seq_len - kernel_size + 1] under ['VALID'], [seq_len] under ['SAME']),
    and the global max-pool stage maps every such sequence to a single
    vector of [n_filters] channels whose channel [c] is the maximum, over
    all the positions, of that channel: it is attained at some position and
    bounds every position. After the squeeze the stage is the matrix of
    these vectors (the vector itself for a batch of one). *)
Theorem global_maxpool_channel_maxima
        (self : Conv1DClassifier.config) (k : Z) (conv : TF.tensor3) :
  Conv1DClassifier.current_seq_len self = Some k ->
  (1 <= k)%Z ->
  Forall (fun x => Z.of_nat (length x) = k) conv ->
  let channels := Z.to_nat (Conv1DClassifier.n_filters self) in
  (forall embedded W b,
      (1 <= Conv1DClassifier.kernel_size self)%Z ->
      Forall (fun x => Z.of_nat (length x) = Conv1DClassifier.seq_len self)
             embedded ->
      exists features,
        Conv1DClassifier.Forward.add_conv1d self embedded W b = Ok features
        /\ length features = length embedded
        /\ Forall (fun x => Z.of_nat (length x) = k) features)
  /\ exists pooled : list TF.vector,
      Conv1DClassifier.Forward.global_maxpool self conv
      = Ok (map (fun v => [[v]]) pooled)
      /\ length pooled = length conv
      /\ Forall (fun v => length v = channels) pooled
      /\ (forall i c, (i < length conv)%nat -> (c < channels)%nat ->
            let v := nth c (nth i pooled []) 0%R in
            let col := TF.column c (nth i conv []) in
            In v col /\ Forall (fun y => (y <= v)%R) col)
      /\ (length conv <> 1%nat -> channels <> 1%nat ->
          Conv1DClassifier.Forward.add_global_maxpool self conv = Ok (of_matrix pooled))
      /\ (length conv = 1%nat -> channels <> 1%nat ->
          Conv1DClassifier.Forward.add_global_maxpool self conv
          = Ok (of_vector (hd [] pooled))).
Proof.
  intros Hk Hpos Hshape channels.
  pose proof (current_seq_len_cases self Hk) as Hcases.
  assert (Hpad : Conv1DClassifier.padding self = "VALID"%string
                 \/ Conv1DClassifier.padding self = "SAME"%string)
    by (destruct Hcases as [[? _]|[? _]]; auto).
  split.
  - intros embedded W b Hks Hemb.
    unfold Conv1DClassifier.Forward.add_conv1d.
    destruct (@mapM_ok_exists _ _
                (fun x => TF.conv1d (Z.to_nat (Conv1DClassifier.kernel_size self))
                                    (Z.to_nat (Conv1DClassifier.embedding_dims self))
                                    (Z.to_nat (Conv1DClassifier.n_filters self))
                                    1 (Conv1DClassifier.padding self) x W)
                (fun c => Z.of_nat (length c) = k) embedded)
      as [cs [Hcs [Hlen Hall]]].
    { intros x Hin.
      pose proof (proj1 (Forall_forall _ _) Hemb x Hin) as Hx.
      apply conv1d_length; try lia.
      cbv beta in Hx.
      destruct Hcases as [[Hp ->]|[Hp ->]]; [left|right]; split; trivial; lia. }
    rewrite Hcs. cbn [bind]. eexists. split; [reflexivity|]. split.
    + now rewrite !length_map.
    + rewrite !Forall_map. revert Hall. apply Forall_impl. intros c Hc.
      unfold TF.relu, TF.bias_add. now rewrite !length_map.
  - set (cm := fun x : TF.matrix =>
                 map (fun c => TF.maximum (TF.column c x)) (seq 0 channels)).
    assert (Hpool : Conv1DClassifier.Forward.global_maxpool self conv
                    = Ok (map (fun v => [[v]]) (map cm conv))).
    { unfold Conv1DClassifier.Forward.global_maxpool. rewrite Hk.
      rewrite (mapM_ok_map _ (map (fun x => [cm x]))).
      - now rewrite !map_map.
      - intros a Hin. apply in_map_iff in Hin. destruct Hin as [x [<- Hin]].
        cbn [mapM map]. rewrite max_pool_global; trivial.
        exact (proj1 (Forall_forall _ _) Hshape x Hin). }
    assert (Hlens : Forall (fun v => length v = channels) (map cm conv)).
    { rewrite Forall_map. apply Forall_forall. intros x _.
      unfold cm. now rewrite length_map, length_seq. }
    exists (map cm conv). split; [exact Hpool|].
    split; [apply length_map|]. split; [exact Hlens|].
    split; [intros i c Hi Hc; now apply channel_maxima_nth with k|].
    split.
    + intros Hbatch Hch. unfold Conv1DClassifier.Forward.add_global_maxpool.
      rewrite Hpool. cbn [bind]. f_equal.
      apply squeeze_pooled_batch with channels; trivial.
      now rewrite length_map.
    + intros Hbatch Hch. unfold Conv1DClassifier.Forward.add_global_maxpool.
      rewrite Hpool. cbn [bind]. f_equal.
      destruct conv as [|x [|y conv]]; try discriminate.
      cbn [map hd]. apply squeeze_pooled_single.
      unfold cm. now rewrite length_map, length_seq.
Qed.


(** ** The wiring of the two graphs *)

Section GraphFacts.

Import Graph.
Local Open Scope string_scope.
Local Open Scope Z_scope.

(** What a convolution is built on in [Conv1DClassifier.build_graph] is
    accepted when the padding is ['SAME'], or ['VALID'] with a kernel no
    longer than the sequence. *)
Lemma conv_window_fits (sl ks : Z) (pad : string) (k : Z) :
  (pad = "VALID" /\ k = sl - ks + 1) \/ (pad = "SAME" /\ k = sl) ->
  1 <= k -> 1 <= ks ->
  (String.eqb pad "VALID" && (sl <? ks))%bool = false.
Proof.
  intros [[-> ->] | [-> ->]] Hk Hks.
  - destruct (Z.ltb_spec sl ks); [lia | reflexivity].
  - reflexivity.
Qed.

(** C1, amended. For sizes that are all at least 1,
    [RNNTextClassifier.build_graph] wires, in order, an embedding lookup,
    a recurrent feature extraction, an attention pooling (softmax weights
    times the features), a dense output layer and the loss and optimizer.
    [Conv1DClassifier.build_graph], for sizes that are all at least 1 and
    a padding ['SAME'], or ['VALID'] with a kernel no longer than the
    sequence, wires an embedding lookup, a convolutional feature
    extraction, a global max-pool, a fully connected layer with dropout,
    a dense output and the loss and optimizer: its logits go through a
    max-pool and through no attention pooling. *)
Theorem classifier_graph_stages :
  (forall cfg : RNNTextClassifier.config,
      RNNTextClassifier.positive_sizes cfg ->
      let X := Placeholder 0 int32 (Some [None; Some (RNNTextClassifier.seq_len cfg)]) in
      let Y := Placeholder 1 int64 (Some [None]) in
      let batch_size := Placeholder 2 int32 (Some []) in
      let keep_prob := Placeholder 3 float32 None in
      let cell :=
        DropoutWrapper (LSTMCell (RNNTextClassifier.cell_size cfg)
                                 orthogonal_initializer) keep_prob in
      let init_state := ZeroState cell batch_size float32 in
      let embedded :=
        EmbeddingLookup
          (GetVariable "encoder"
                       [RNNTextClassifier.vocab_size cfg;
                        RNNTextClassifier.embedding_dims cfg]
                       float32 (random_uniform_initializer (-1) 1)) X in
      let outputs := DynamicRnnOutputs cell embedded init_state in
      let final_state := DynamicRnnFinalState cell embedded init_state in
      let weights :=
        RNNTextClassifier.Build.softmax
          (Reshape (Tanh (MatMul outputs (ExpandDims (StateH final_state) 2)))
                   [-1; RNNTextClassifier.seq_len cfg]) in
      let pooled :=
        Squeeze (MatMul (Transpose outputs [0; 2; 1]) (ExpandDims weights 2))
                (Some 2) in
      let logits := Dense pooled (RNNTextClassifier.n_out cfg) in
      let loss := ReduceMean (SparseSoftmaxCrossEntropyWithLogits logits Y) in
      exists st,
        RNNTextClassifier.Build.init cfg = Ok st
        /\ get_tensor "embedded" (snd st) = Ok embedded
        /\ get_tensor "final_state" (snd st) = Ok final_state
        /\ get_tensor "_pointer" (snd st) = Ok pooled
        /\ get_tensor "logits" (snd st) = Ok logits
        /\ get_tensor "loss" (snd st) = Ok loss
        /\ get_operation "train_op" (snd st) = Ok (AdamMinimize None loss)
        /\ mentions is_attention_pooling logits = true)
  /\
  (forall (cfg : Conv1DClassifier.config) (k : Z),
      Conv1DClassifier.positive_sizes cfg ->
      Conv1DClassifier.current_seq_len cfg = Some k ->
      1 <= k ->
      let X := Placeholder 0 int32 (Some [None; Some (Conv1DClassifier.seq_len cfg)]) in
      let Y := Placeholder 1 float32 (Some [None; Some (Conv1DClassifier.n_out cfg)]) in
      let keep_prob := Placeholder 2 float32 None in
      let lr := Placeholder 3 float32 None in
      let embedded :=
        EmbeddingLookup
          (GetVariable "E"
                       [Conv1DClassifier.vocab_size cfg;
                        Conv1DClassifier.embedding_dims cfg]
                       float32 random_normal_initializer) X in
      let features :=
        Relu (BiasAdd
                (Conv1d embedded
                        (Conv1DClassifier.Build._W
                           "conv_w"
                           [Conv1DClassifier.kernel_size cfg;
                            Conv1DClassifier.embedding_dims cfg;
                            Conv1DClassifier.n_filters cfg])
                        1 (Conv1DClassifier.padding cfg))
                (Conv1DClassifier.Build._b "conv_b"
                                           [Conv1DClassifier.n_filters cfg])) in
      let pooled :=
        Squeeze (MaxPool (ExpandDims features 1) [1; 1; k; 1] [1; 1; k; 1]
                         (Conv1DClassifier.padding cfg)) None in
      let hidden :=
        Dropout
          (Relu (BiasAdd
                   (MatMul pooled
                           (Conv1DClassifier.Build._W
                              "fully_connected_w"
                              [Conv1DClassifier.n_filters cfg;
                               Conv1DClassifier.hidden_dims cfg]))
                   (Conv1DClassifier.Build._b
                      "fully_connected_b" [Conv1DClassifier.hidden_dims cfg])))
          keep_prob in
      let logits :=
        BiasAdd (MatMul hidden
                        (Conv1DClassifier.Build._W
                           "w_out" [Conv1DClassifier.hidden_dims cfg;
                                    Conv1DClassifier.n_out cfg]))
                (Conv1DClassifier.Build._b "b_out" [Conv1DClassifier.n_out cfg]) in
      let loss := ReduceMean (SoftmaxCrossEntropyWithLogits logits Y) in
      exists st,
        Conv1DClassifier.Build.init cfg = Ok st
        /\ get_tensor "current_layer" (snd st) = Ok hidden
        /\ get_tensor "logits" (snd st) = Ok logits
        /\ get_tensor "loss" (snd st) = Ok loss
        /\ get_operation "train_op" (snd st) = Ok (AdamMinimize (Some lr) loss)
        /\ mentions is_max_pool logits = true
        /\ mentions is_attention_pooling logits = false
        /\ mentions is_exp logits = false).
Proof.
  split.
  - intros. eexists. split; [reflexivity|]. cbn [snd].
    repeat split; reflexivity.
  - intros cfg k Hpos Hk Hk1. apply current_seq_len_cases in Hk.
    destruct cfg as [sl vs no ed nf ks pad hd].
    destruct Hpos as [_ [_ [_ [_ [_ [Hks _]]]]]].
    cbn [Conv1DClassifier.padding Conv1DClassifier.seq_len
         Conv1DClassifier.kernel_size] in Hk, Hks.
    pose proof (conv_window_fits Hk Hk1 Hks) as Hfit.
    intros.
    destruct (Conv1DClassifier.Build.init _) as [st|e] eqn:Einit.
    + exists st. split; [reflexivity|].
      destruct Hk as [[-> ->]|[-> ->]];
        cbv -[Z.ltb Z.sub Z.add] in Einit;
        try rewrite Hfit in Einit;
        try (cbv -[Z.ltb Z.sub Z.add] in Hfit; rewrite Hfit in Einit);
        injection Einit as <-; cbn [snd];
        repeat split; reflexivity.
    + exfalso.
      destruct Hk as [[-> ->]|[-> ->]];
        cbv -[Z.ltb Z.sub Z.add] in Einit;
        try (cbv -[Z.ltb Z.sub Z.add] in Hfit; rewrite Hfit in Einit);
        discriminate.
Qed.

End GraphFacts.


(** ** The optimizer and the decayed rate *)

(** C2. The schedule does not reach the optimizer of [RNNTextClassifier].
    With the default sizes, [decrease_lr] returns 0.005 at step 0 and 0.001
    at step [n_epoch*len_X/batch_size] (10 epochs of 1000 rows in batches
    of 100, step 100), and [fit] feeds these rates to the [lr] placeholder;
    but the training operation of the built graph is Adam's [minimize] of
    the loss with no learning rate given, and it reads the [lr] placeholder
    nowhere, so every step is taken at Adam's default rate. The training
    operation of [Conv1DClassifier], whose [decrease_lr] returns 0.003
    and 0.0001 at those steps, does take its rate from the [lr]
    placeholder. *)
Theorem rnn_optimizer_ignores_decayed_rate :
  (RNNTextClassifier.decrease_lr true 0 10 1000 100 = Ok (5 / 1000)%R
   /\ RNNTextClassifier.decrease_lr true 100 10 1000 100 = Ok (1 / 1000)%R
   /\ exists st lr loss op,
        RNNTextClassifier.Build.init (Toy.rnn_config false) = Ok st
        /\ Graph.get_tensor "lr" (snd st) = Ok lr
        /\ Graph.get_tensor "loss" (snd st) = Ok loss
        /\ Graph.get_operation "train_op" (snd st) = Ok op
        /\ op = Graph.AdamMinimize None loss
        /\ Deps.operation_depends_on (snd st) "lr" op = false)
  /\
  (Conv1DClassifier.decrease_lr true 0 10 1000 100 = Ok (3 / 1000)%R
   /\ Conv1DClassifier.decrease_lr true 100 10 1000 100 = Ok (1 / 10000)%R
   /\ exists st lr loss op,
        Conv1DClassifier.Build.init Toy.conv_config = Ok st
        /\ Graph.get_tensor "lr" (snd st) = Ok lr
        /\ Graph.get_tensor "loss" (snd st) = Ok loss
        /\ Graph.get_operation "train_op" (snd st) = Ok op
        /\ op = Graph.AdamMinimize (Some lr) loss
        /\ Deps.operation_depends_on (snd st) "lr" op = true).
Proof.
  assert (Hsteps : (IZR (Z.opp 10 * 1000) / IZR 100 = - 100)%R)
    by (change (Z.opp 10 * 1000)%Z with (-10000)%Z; lra).
  split.
  - split; [|split].
    + unfold RNNTextClassifier.decrease_lr.
      change (100 =? 0)%Z with false. change (Z.opp 10 * 1000 =? 0)%Z with false.
      cbv iota zeta. rewrite Hsteps. f_equal. apply exp_decay_start.
    + unfold RNNTextClassifier.decrease_lr.
      change (100 =? 0)%Z with false. change (Z.opp 10 * 1000 =? 0)%Z with false.
      cbv iota zeta. rewrite Hsteps. f_equal. apply exp_decay_end; lra.
    + do 4 eexists. split; [reflexivity|]. cbn [snd].
      repeat split; reflexivity.
  - split; [|split].
    + unfold Conv1DClassifier.decrease_lr.
      change (100 =? 0)%Z with false. change (Z.opp 10 * 1000 =? 0)%Z with false.
      cbv iota zeta. rewrite Hsteps. f_equal. apply exp_decay_start.
    + unfold Conv1DClassifier.decrease_lr.
      change (100 =? 0)%Z with false. change (Z.opp 10 * 1000 =? 0)%Z with false.
      cbv iota zeta. rewrite Hsteps. f_equal. apply exp_decay_end; lra.
    + do 4 eexists. split; [reflexivity|]. cbn [snd].
      repeat split; reflexivity.
Qed.


(** ** Loops in the error monad *)

Section ForEachFacts.

Context {A S : Type}.
Variable body : S -> A -> result S.

Lemma for_each_app (l1 l2 : list A) (s : S) :
  for_each body (l1 ++ l2) s
  = (s' <- for_each body l1 s ;; for_each body l2 s')%result.
Proof.
  revert s. induction l1 as [|a l1 IH]; intros s; simpl; trivial.
  destruct (body s a); simpl; auto.
Qed.

Lemma for_each_snoc (l : list A) (a : A) (s : S) :
  for_each body (l ++ [a]) s
  = (s' <- for_each body l s ;; body s' a)%result.
Proof.
  rewrite for_each_app. destruct (for_each body l s) as [s'|]; simpl; trivial.
  now destruct (body s' a).
Qed.

(** A body that never raises makes a loop that never raises. *)
Lemma for_each_total (P : S -> Prop) (Q : A -> Prop) :
  (forall s a, P s -> Q a -> exists s', body s a = Ok s' /\ P s') ->
  forall l s, P s -> Forall Q l -> exists s', for_each body l s = Ok s' /\ P s'.
Proof.
  intros Hbody. induction l as [|a l IH]; intros s Hs Hl; simpl.
  - eauto.
  - inversion Hl; subst.
    destruct (Hbody s a) as [s1 [-> Hs1]]; trivial. simpl. now apply IH.
Qed.

(** An invariant of the body is an invariant of the loop. *)
Lemma for_each_invariant (P : S -> Prop) :
  (forall s a s', P s -> body s a = Ok s' -> P s') ->
  forall l s s', P s -> for_each body l s = Ok s' -> P s'.
Proof.
  intros Hbody. induction l as [|a l IH]; intros s s' Hs Hrun; simpl in Hrun.
  - injection Hrun as <-. exact Hs.
  - destruct (body s a) as [s1|] eqn:E; [|discriminate]. simpl in Hrun.
    apply (IH s1); [now apply (Hbody s a)|exact Hrun].
Qed.

End ForEachFacts.

Section ForRangeFacts.

Context {St : Type}.
Variable body : St -> Z -> result St.

Lemma for_range_nonpos (n : Z) (s : St) :
  (n <= 0)%Z -> for_range n body s = Ok s.
Proof.
  intros Hn. unfold for_range.
  now replace (Z.to_nat n) with O by lia.
Qed.

Lemma for_range_succ (n : nat) (s : St) :
  for_range (Z.of_nat (S n)) body s
  = (s' <- for_range (Z.of_nat n) body s ;; body s' (Z.of_nat n))%result.
Proof.
  unfold for_range. rewrite !Nat2Z.id, seq_S, map_app. simpl.
  apply for_each_snoc.
Qed.

End ForRangeFacts.

Lemma list_avg_ok_inv (l : list R) (m : R) :
  RNNTextClassifier.list_avg l = Ok m ->
  l <> [] /\ m = (Py.sum l / INR (length l))%R.
Proof.
  unfold RNNTextClassifier.list_avg. destruct l; [discriminate|].
  intros [= <-]. split; [discriminate | reflexivity].
Qed.

Lemma conv_list_avg_ok_inv (l : list R) (m : R) :
  Conv1DClassifier.list_avg l = Ok m ->
  l <> [] /\ m = (Py.sum l / INR (length l))%R.
Proof.
  unfold Conv1DClassifier.list_avg. destruct l; [discriminate|].
  intros [= <-]. split; [discriminate | reflexivity].
Qed.

Lemma snoc_cases {A : Type} (l : list A) :
  l = [] \/ exists init a, l = init ++ [a].
Proof.
  destruct l as [|a l]; [now left | right].
  exists (removelast (a :: l)), (last (a :: l) a).
  apply app_removelast_last. discriminate.
Qed.

(** ** Batches at the edges *)

Lemma gen_batch_negative {A : Type} (arr : list A) (bs : Z) :
  (bs < 0)%Z -> Batching.gen_batch arr bs = Ok [].
Proof.
  intros Hbs. unfold Batching.gen_batch, Batching.range.
  destruct (Z.eqb_spec bs 0) as [|_]; [lia|]. cbn [bind]. f_equal.
  destruct (Z.abs_nat (Z.of_nat (length arr) - 0)) as [|fuel]; trivial.
  cbn [Batching.range_from].
  destruct (Z.ltb_spec 0 bs) as [|_]; [lia|].
  destruct (Z.ltb_spec (Z.of_nat (length arr)) 0) as [|_]; [lia|].
  reflexivity.
Qed.

Lemma gen_batch_zero {A : Type} (arr : list A) :
  Batching.gen_batch arr 0 = Err ValueError.
Proof. reflexivity. Qed.

Lemma gen_batch_ok_nonzero {A : Type} (arr : list A) (bs : Z)
      (batches : list (list A)) :
  Batching.gen_batch arr bs = Ok batches -> bs <> 0%Z.
Proof. intros Hgen ->. rewrite gen_batch_zero in Hgen. discriminate. Qed.

Section BatchRows.

Context {A : Type}.

(** With a batch size of at least 2 and a length that leaves no remainder
    of 1, every batch has at least two rows. *)
Lemma chunks_rows (n : nat) :
  (2 <= n)%nat ->
  forall fuel (l : list A),
    (length l <= fuel)%nat -> (length l mod n <> 1)%nat ->
    Forall (fun b => (2 <= length b)%nat) (chunks fuel n l).
Proof.
  intros Hn. induction fuel as [|fuel IH]; intros l Hl Hmod;
    [constructor|].
  destruct l as [|a l']; [constructor|].
  cbn [chunks]. destruct (le_lt_dec n (length (a :: l'))) as [Hlong|Hshort].
  - constructor.
    + rewrite length_firstn. lia.
    + apply IH.
      * rewrite length_skipn. cbn [length] in *. lia.
      * rewrite length_skipn.
        replace (length (a :: l') - n)%nat
          with (length (a :: l') - 1 * n)%nat by lia.
        intros E. apply Hmod. rewrite <- E.
        rewrite <- (Nat.Div0.mod_add (length (a :: l') - 1 * n) 1 n).
        f_equal. lia.
  - rewrite Nat.mod_small in Hmod by trivial.
    rewrite skipn_all2, chunks_nil by lia.
    constructor; [|constructor].
    rewrite firstn_all2 by lia. cbn [length] in *. lia.
Qed.

End BatchRows.

Lemma zip_rows {A B : Type} (P : list A -> Prop) (Xb : list (list A))
      (Yb : list (list B)) :
  Forall P Xb -> Forall (fun b => P (fst b)) (Batching.zip Xb Yb).
Proof.
  unfold Batching.zip. intros HX. revert Yb.
  induction HX as [|x Xb Hx HX IH]; intros [|y Yb]; simpl; constructor; auto.
Qed.



(** ** Validation scoring in [Conv1DClassifier.fit] *)

Lemma for_range_to_nat {St : Type} (body : St -> Z -> result St) (n : Z) (s : St) :
  for_range n body s = for_range (Z.of_nat (Z.to_nat n)) body s.
Proof. unfold for_range. now rewrite Nat2Z.id. Qed.

Lemma gen_batch_nonempty {A : Type} (arr : list A) (bs : Z) :
  (0 < bs)%Z -> arr <> [] ->
  exists b batches, Batching.gen_batch arr bs = Ok (b :: batches).
Proof.
  intros Hbs Harr. rewrite gen_batch_chunks by trivial.
  destruct arr as [|a arr]; [congruence|]. simpl. eauto.
Qed.

Lemma gen_batch_ok {A : Type} (arr : list A) (bs : Z) :
  (0 < bs)%Z -> exists batches, Batching.gen_batch arr bs = Ok batches.
Proof. intros Hbs. rewrite gen_batch_chunks by trivial. eauto. Qed.

Lemma gen_batch_rows {A : Type} (arr : list A) (bs : Z) :
  (2 <= bs)%Z -> (Z.of_nat (length arr) mod bs <> 1)%Z ->
  exists batches,
    Batching.gen_batch arr bs = Ok batches
    /\ Forall (fun b => (2 <= length b)%nat) batches.
Proof.
  intros Hbs Hmod. rewrite gen_batch_chunks by lia.
  eexists. split; [reflexivity|]. apply chunks_rows; [lia | lia |].
  intros E. apply Hmod.
  rewrite <- (Z2Nat.id bs) by lia. rewrite <- Nat2Z.inj_mod, E. reflexivity.
Qed.

Lemma conv_decrease_lr_ok (dec : bool) (g : R) (n_epoch len_X bs : Z) :
  (0 < n_epoch)%Z -> (0 < len_X)%Z -> (0 < bs)%Z ->
  exists lr, Conv1DClassifier.decrease_lr dec g n_epoch len_X bs = Ok lr.
Proof.
  intros Hn Hl Hb. unfold Conv1DClassifier.decrease_lr.
  destruct dec; [|eauto].
  destruct (Z.eqb_spec bs 0); [lia|].
  destruct (Z.eqb_spec (- n_epoch * len_X) 0); [nia|]. eauto.
Qed.

Section ConvFitFacts.

Import Conv1DClassifier.
Context `{Session}.

(** A validation step that completes has run the graph on its batch and
    appended the two scores of that run. *)
Lemma conv_val_batch_inv (s s' : val_state) (b : list sample * list label) :
  val_batch s b = Ok s' ->
  exists w' l a,
    run_eval (vs_world s)
             {| feed_X := fst b; feed_Y := Some (snd b);
                feed_lr := None; feed_keep_prob := Some 1%R |}
    = Ok (w', (l, a))
    /\ s' = {| vs_world := w';
               vs_loss_list := vs_loss_list s ++ [l];
               vs_acc_list := vs_acc_list s ++ [a] |}.
Proof.
  unfold val_batch. destruct b as [Xb Yb]. cbn [fst snd].
  destruct (run_eval _ _) as [[w' [l a]]|]; [|discriminate].
  cbn [bind]. intros [= <-]. exists w', l, a. auto.
Qed.

Lemma conv_val_loop_inv (batches : list (list sample * list label)) :
  forall s s',
    for_each val_batch batches s = Ok s' ->
    exists scores : list (R * R),
      vs_loss_list s' = vs_loss_list s ++ map fst scores
      /\ vs_acc_list s' = vs_acc_list s ++ map snd scores
      /\ Forall2 scores_of batches scores.
Proof.
  induction batches as [|b batches IH]; intros s s' Hrun.
  - injection Hrun as <-. exists []. cbn [map]. rewrite !app_nil_r. auto.
  - cbn [for_each] in Hrun.
    destruct (val_batch s b) as [s1|] eqn:E1; [|discriminate].
    cbn [bind] in Hrun.
    destruct (conv_val_batch_inv _ _ E1) as [w' [l [a [Hrun1 ->]]]].
    destruct (IH _ _ Hrun) as [scores [Hl [Ha Hall]]].
    cbn [vs_loss_list vs_acc_list] in Hl, Ha.
    exists ((l, a) :: scores). cbn [map fst snd].
    rewrite Hl, Ha, <- !app_assoc. repeat split; trivial.
    constructor; trivial.
    exists (vs_world s), w',
      {| feed_X := fst b; feed_Y := Some (snd b);
         feed_lr := None; feed_keep_prob := Some 1%R |}.
    cbn [feed_X feed_Y feed_keep_prob]. auto.
Qed.

(** The two lists a validation pass returns hold the scores of the runs
    on the zipped validation batches, one per batch and in their order. *)
Lemma conv_validate_inv (w : world) (vd : list sample * list label)
      (bs : Z) (vs : val_state) :
  validate w vd bs = Ok vs ->
  exists Xb Yb (scores : list (R * R)),
    gen_batch (fst vd) bs = Ok Xb
    /\ gen_batch (snd vd) bs = Ok Yb
    /\ vs_loss_list vs = map fst scores
    /\ vs_acc_list vs = map snd scores
    /\ Forall2 scores_of (Batching.zip Xb Yb) scores.
Proof.
  unfold validate.
  destruct (gen_batch (fst vd) bs) as [Xb|]; [|discriminate].
  destruct (gen_batch (snd vd) bs) as [Yb|]; [|discriminate].
  cbn [bind]. intros Hrun. exists Xb, Yb.
  destruct (conv_val_loop_inv _ _ Hrun) as [scores [Hl [Ha Hall]]].
  exists scores. auto.
Qed.

Lemma conv_fit_epoch_inv (vd : list sample * list label) (n_epoch bs : Z)
      (kp : R) (dec shuf : bool) (s s' : fit_state) (e : Z) :
  fit_epoch (Some vd) n_epoch bs kp dec shuf s e = Ok s' ->
  exists X Y t vs,
    train_epoch n_epoch bs kp dec shuf s = Ok (X, Y, t)
    /\ validate (ts_world t) vd bs = Ok vs
    /\ vs_loss_list vs <> [] /\ vs_acc_list vs <> []
    /\ log_val_loss (fs_log s')
       = log_val_loss (fs_log s)
           ++ [(Py.sum (vs_loss_list vs) / INR (length (vs_loss_list vs)))%R]
    /\ log_val_acc (fs_log s')
       = log_val_acc (fs_log s)
           ++ [(Py.sum (vs_acc_list vs) / INR (length (vs_acc_list vs)))%R].
Proof.
  unfold fit_epoch.
  destruct (train_epoch n_epoch bs kp dec shuf s) as [[[X Y] t]|] eqn:Et;
    [|discriminate]. cbn [bind].
  destruct (validate (ts_world t) vd bs) as [vs|] eqn:Ev; [|discriminate].
  cbn [bind].
  destruct (list_avg (vs_loss_list vs)) as [vl|] eqn:El; [|discriminate].
  destruct (list_avg (vs_acc_list vs)) as [va|] eqn:Ea; [|discriminate].
  cbn [bind].
  destruct (ts_last t) as [[[l a] lr]|]; [|discriminate].
  intros [= <-]. cbn [fs_log].
  apply conv_list_avg_ok_inv in El, Ea.
  destruct El as [Hl ->], Ea as [Ha ->].
  exists X, Y, t, vs. repeat split; trivial.
Qed.

(** The validation entries of the log, epoch by epoch. *)
Lemma conv_fit_log (vd : list sample * list label) (n_epoch bs : Z)
      (kp : R) (dec shuf : bool) (s0 : fit_state) :
  log_val_loss (fs_log s0) = [] -> log_val_acc (fs_log s0) = [] ->
  forall (n : nat) (s : fit_state),
    for_range (Z.of_nat n) (fit_epoch (Some vd) n_epoch bs kp dec shuf) s0
    = Ok s ->
    length (log_val_loss (fs_log s)) = n
    /\ length (log_val_acc (fs_log s)) = n
    /\ forall e, (e < n)%nat ->
         exists s_e X Y t vs,
           for_range (Z.of_nat e) (fit_epoch (Some vd) n_epoch bs kp dec shuf)
                     s0 = Ok s_e
           /\ train_epoch n_epoch bs kp dec shuf s_e = Ok (X, Y, t)
           /\ validate (ts_world t) vd bs = Ok vs
           /\ vs_loss_list vs <> [] /\ vs_acc_list vs <> []
           /\ nth e (log_val_loss (fs_log s)) 0%R
              = (Py.sum (vs_loss_list vs) / INR (length (vs_loss_list vs)))%R
           /\ nth e (log_val_acc (fs_log s)) 0%R
              = (Py.sum (vs_acc_list vs) / INR (length (vs_acc_list vs)))%R.
Proof.
  intros Hl0 Ha0. induction n as [|n IH]; intros s Hrun.
  - rewrite for_range_nonpos in Hrun by reflexivity.
    injection Hrun as <-. rewrite Hl0, Ha0. repeat split; trivial.
    intros e He. lia.
  - rewrite for_range_succ in Hrun.
    destruct (for_range (Z.of_nat n) _ s0) as [s_n|] eqn:En; [|discriminate].
    cbn [bind] in Hrun.
    destruct (IH s_n eq_refl) as [Hlen_l [Hlen_a Hentries]].
    destruct (conv_fit_epoch_inv _ _ _ _ _ _ _ _ Hrun)
      as [X [Y [t [vs [Ht [Hv [Hnl [Hna [Hl Ha]]]]]]]]].
    rewrite Hl, Ha, !length_app, Hlen_l, Hlen_a. cbn [length].
    repeat split; try lia.
    intros e He. destruct (Nat.eq_dec e n) as [->|Hne].
    + exists s_n, X, Y, t, vs. repeat split; trivial.
      * rewrite app_nth2 by lia. now rewrite Hlen_l, Nat.sub_diag.
      * rewrite app_nth2 by lia. now rewrite Hlen_a, Nat.sub_diag.
    + destruct (Hentries e) as [s_e [X' [Y' [t' [vs' Hrest]]]]]; [lia|].
      exists s_e, X', Y', t', vs'.
      rewrite !app_nth1 by lia. exact Hrest.
Qed.

(** *** When [fit] returns

    In a session whose shuffle keeps the lengths and whose runs return on
    every feed of at least two rows. *)

Hypothesis shuffle_lengths :
  forall w X Y,
    length (fst (snd (shuffle w X Y))) = length X
    /\ length (snd (snd (shuffle w X Y))) = length Y.
Hypothesis train_runs :
  forall w f, (2 <= length (feed_X f))%nat -> exists r, run_train w f = Ok r.
Hypothesis eval_runs :
  forall w f, (2 <= length (feed_X f))%nat -> exists r, run_eval w f = Ok r.

Lemma conv_train_loop_ok (n_epoch len_X bs : Z) (kp : R) (dec : bool)
      (batches : list (list sample * list label)) :
  (0 < n_epoch)%Z -> (0 < len_X)%Z -> (0 < bs)%Z ->
  Forall (fun b => (2 <= length (fst b))%nat) batches ->
  forall t, exists t',
    for_each (train_batch n_epoch len_X bs dec kp) batches t = Ok t'
    /\ (batches <> [] \/ ts_last t <> None -> ts_last t' <> None).
Proof.
  intros Hn Hl Hb Hrows. induction Hrows as [|[Xb Yb] batches Hrow _ IH];
    intros t.
  - exists t. split; trivial. intros [?|?]; congruence.
  - cbn [for_each]. unfold train_batch at 1.
    destruct (conv_decrease_lr_ok dec (IZR (ts_global_step t)) Hn Hl Hb)
      as [lr ->]. cbn [bind].
    destruct (train_runs (ts_world t)
                         {| feed_X := Xb; feed_Y := Some Yb;
                            feed_lr := Some lr;
                            feed_keep_prob := Some kp |} Hrow)
      as [[w [l a]] ->]. cbn [bind].
    destruct (IH {| ts_world := w; ts_global_step := (ts_global_step t + 1)%Z;
                    ts_last := Some (l, a, lr) |}) as [t' [-> Hlast]].
    exists t'. split; trivial. intros _. apply Hlast. right. discriminate.
Qed.

Lemma conv_val_loop_ok (batches : list (list sample * list label)) :
  Forall (fun b => (2 <= length (fst b))%nat) batches ->
  forall s, exists s',
    for_each val_batch batches s = Ok s'
    /\ length (vs_loss_list s')
       = (length (vs_loss_list s) + length batches)%nat
    /\ length (vs_acc_list s')
       = (length (vs_acc_list s) + length batches)%nat.
Proof.
  induction 1 as [|[Xb Yb] batches Hrow _ IH]; intros s.
  - exists s. cbn [for_each length]. repeat split; lia.
  - cbn [for_each]. unfold val_batch at 1.
    destruct (eval_runs (vs_world s)
                        {| feed_X := Xb; feed_Y := Some Yb;
                           feed_lr := None;
                           feed_keep_prob := Some 1%R |} Hrow)
      as [[w [l a]] ->]. cbn [bind].
    destruct (IH {| vs_world := w; vs_loss_list := vs_loss_list s ++ [l];
                    vs_acc_list := vs_acc_list s ++ [a] |})
      as [s' [-> [Hl Ha]]].
    exists s'. cbn [vs_loss_list vs_acc_list length] in *.
    rewrite length_app in Hl, Ha. cbn [length] in *.
    repeat split; lia.
Qed.

(** With validation inputs and labels that are not empty and leave no
    batch of one row, the validation pass scores at least one batch. *)
Lemma conv_validate_ok (w : world) (vd : list sample * list label) (bs : Z) :
  (2 <= bs)%Z -> fst vd <> [] -> snd vd <> [] ->
  (Z.of_nat (length (fst vd)) mod bs <> 1)%Z ->
  exists vs, validate w vd bs = Ok vs
             /\ vs_loss_list vs <> [] /\ vs_acc_list vs <> [].
Proof.
  intros Hbs HX HY Hmod. unfold validate, gen_batch.
  assert (Hpos : (0 < bs)%Z) by lia.
  destruct (gen_batch_nonempty Hpos HX) as [xb [xbs HXb]].
  destruct (gen_batch_rows (fst vd) Hbs Hmod) as [Xb [HXb' Hrows]].
  rewrite HXb in HXb'. injection HXb' as <-.
  destruct (gen_batch_nonempty Hpos HY) as [yb [ybs ->]].
  rewrite HXb. cbn [bind].
  destruct (conv_val_loop_ok
              (zip_rows (yb :: ybs) Hrows)
              {| vs_world := w; vs_loss_list := []; vs_acc_list := [] |})
    as [vs [-> [Hl Ha]]].
  exists vs. simpl in Hl, Ha.
  repeat split; trivial; intros E; rewrite E in *; simpl in *; lia.
Qed.

Lemma conv_fit_epoch_ok (vd : list sample * list label) (n_epoch bs : Z)
      (kp : R) (dec shuf : bool) (s : fit_state) (e : Z) :
  (0 < n_epoch)%Z -> (2 <= bs)%Z ->
  fst vd <> [] -> snd vd <> [] ->
  (Z.of_nat (length (fst vd)) mod bs <> 1)%Z ->
  fs_X s <> [] -> length (fs_X s) = length (fs_Y s) ->
  (Z.of_nat (length (fs_X s)) mod bs <> 1)%Z ->
  exists s', fit_epoch (Some vd) n_epoch bs kp dec shuf s e = Ok s'
             /\ length (fs_X s') = length (fs_X s)
             /\ length (fs_Y s') = length (fs_Y s).
Proof.
  intros Hn Hb HvX HvY Hvmod HX Hlen Hmod. unfold fit_epoch, train_epoch.
  assert (Hshuf : exists w X Y,
             (if shuf then sklearn_shuffle (fs_world s) (fs_X s) (fs_Y s)
              else Ok (fs_world s, (fs_X s, fs_Y s))) = Ok (w, (X, Y))
             /\ length X = length (fs_X s)
             /\ length Y = length (fs_Y s)).
  { destruct shuf.
    - unfold sklearn_shuffle.
      rewrite (proj2 (Nat.eqb_eq _ _) Hlen).
      destruct (shuffle_lengths (fs_world s) (fs_X s) (fs_Y s)) as [Hx Hy].
      destruct (shuffle _ _ _) as [w [X Y]]. cbn [fst snd] in *.
      exists w, X, Y. auto.
    - eauto 10. }
  destruct Hshuf as [w [X [Y [-> [HlenX HlenY]]]]]. cbn [bind].
  assert (HX' : X <> []).
  { intros ->. destruct (fs_X s); [congruence | simpl in HlenX; lia]. }
  assert (HY' : Y <> []).
  { intros ->. destruct (fs_X s); [congruence|].
    simpl in Hlen. rewrite <- Hlen in HlenY. simpl in HlenY. lia. }
  assert (Hpos : (0 < bs)%Z) by lia.
  unfold gen_batch.
  assert (Hmod' : (Z.of_nat (length X) mod bs <> 1)%Z) by now rewrite HlenX.
  destruct (gen_batch_nonempty Hpos HX') as [xb [xbs HXb]].
  destruct (gen_batch_rows X Hb Hmod') as [Xb [HXb' Hrows]].
  rewrite HXb in HXb'. injection HXb' as <-. rewrite HXb.
  destruct (gen_batch_nonempty Hpos HY') as [yb [ybs ->]]. cbn [bind].
  assert (HlenZ : (0 < Z.of_nat (length X))%Z)
    by (destruct X; [congruence | simpl; lia]).
  destruct (conv_train_loop_ok kp dec Hn HlenZ Hpos
              (zip_rows (yb :: ybs) Hrows)
              {| ts_world := w;
                 ts_global_step := fs_global_step s;
                 ts_last := fs_last s |})
    as [t [-> Hlast]]. cbn [bind].
  destruct (conv_validate_ok (ts_world t) vd Hb HvX HvY Hvmod)
    as [vs [-> [Hnl Hna]]]. cbn [bind].
  unfold list_avg.
  destruct (vs_loss_list vs) as [|l0 ls]; [congruence|].
  destruct (vs_acc_list vs) as [|a0 accs]; [congruence|]. cbn [bind].
  destruct (ts_last t) as [[[l a] lr]|] eqn:Elast.
  - eexists. split; [reflexivity|]. cbn [fs_X fs_Y]. auto.
  - exfalso. apply Hlast; trivial. left. discriminate.
Qed.

Lemma conv_fit_ok (w : world) (X : list sample) (Y : list label)
      (vd : list sample * list label) (n_epoch bs : Z) (kp : R)
      (dec shuf : bool) :
  (2 <= bs)%Z -> fst vd <> [] -> snd vd <> [] ->
  (Z.of_nat (length (fst vd)) mod bs <> 1)%Z ->
  X <> [] -> length X = length Y ->
  (Z.of_nat (length X) mod bs <> 1)%Z ->
  exists w' lg, fit w X Y (Some vd) n_epoch bs kp dec shuf = Ok (w', lg).
Proof.
  intros Hb HvX HvY Hvmod HX Hlen Hmod. unfold fit.
  destruct (Z_le_gt_dec n_epoch 0) as [Hn|Hn].
  - rewrite for_range_nonpos by trivial. cbn [bind]. eauto.
  - unfold for_range.
    destruct (@for_each_total _ _
                (fit_epoch (Some vd) n_epoch bs kp dec shuf)
                (fun s => length (fs_X s) = length X
                          /\ length (fs_Y s) = length Y)
                (fun _ => True))
      with (l := map Z.of_nat (seq 0 (Z.to_nat n_epoch)))
           (s := fit_init w X Y)
      as [s [-> _]].
    + intros s e [HsX HsY] _.
      destruct (@conv_fit_epoch_ok vd n_epoch bs kp dec shuf s e)
        as [s' [Hs' [HlX HlY]]]; trivial; try lia.
      * intros E. rewrite E in HsX. destruct X; [congruence|].
        simpl in HsX. lia.
      * now rewrite HsX.
      * exists s'. split; trivial.
        split; [now rewrite HlX | now rewrite HlY].
    + now split.
    + apply Forall_forall. trivial.
    + cbn [bind]. eauto.
Qed.

End ConvFitFacts.


(** ** Validation scoring in [RNNTextClassifier.fit] *)

Lemma rnn_decrease_lr_ok (dec : bool) (g : R) (n_epoch len_X bs : Z) :
  (0 < n_epoch)%Z -> (0 < len_X)%Z -> (0 < bs)%Z ->
  exists lr, RNNTextClassifier.decrease_lr dec g n_epoch len_X bs = Ok lr.
Proof.
  intros Hn Hl Hb. unfold RNNTextClassifier.decrease_lr.
  destruct dec; [|eauto].
  destruct (Z.eqb_spec bs 0); [lia|].
  destruct (Z.eqb_spec (- n_epoch * len_X) 0); [nia|]. eauto.
Qed.

Section RnnFitFacts.

Import RNNTextClassifier.
Context `{Session}.
Variable self : config.

Lemma fetch_init_state_ok (w : world) (bs : Z) :
  (0 <= bs)%Z -> fetch_init_state w bs = Ok (run_init_state w bs).
Proof.
  intros Hbs. unfold fetch_init_state.
  destruct (Z.ltb_spec bs 0); [lia | reflexivity].
Qed.

Lemma fetch_init_state_inv (w : world) (bs : Z) (st : rnn_state) :
  fetch_init_state w bs = Ok st ->
  (0 <= bs)%Z /\ st = run_init_state w bs.
Proof.
  unfold fetch_init_state.
  destruct (Z.ltb_spec bs 0); [discriminate|]. intros [= <-]. auto.
Qed.

Lemma fetch_init_state_negative (w : world) (bs : Z) :
  (bs < 0)%Z -> fetch_init_state w bs = Err InvalidArgumentError.
Proof.
  intros Hbs. unfold fetch_init_state.
  destruct (Z.ltb_spec bs 0); [reflexivity | lia].
Qed.

Lemma rnn_val_batch_ok (bs : Z) (s : val_state)
      (b : list sample * list label) :
  exists w st v_loss v_acc,
    val_batch self bs s b
    = Ok {| vs_world := w; vs_next_state := st;
            vs_loss_list := vs_loss_list s ++ [v_loss];
            vs_acc_list := vs_acc_list s ++ [v_acc] |}.
Proof.
  unfold val_batch. destruct b as [Xb Yb].
  destruct (stateful self && _)%bool;
    destruct (run_eval _ _) as [w [[l a] st]]; eauto.
Qed.

Lemma rnn_val_loop (bs : Z) (batches : list (list sample * list label)) :
  forall s, exists s',
    for_each (val_batch self bs) batches s = Ok s'
    /\ length (vs_loss_list s')
       = (length (vs_loss_list s) + length batches)%nat
    /\ length (vs_acc_list s')
       = (length (vs_acc_list s) + length batches)%nat.
Proof.
  induction batches as [|b batches IH]; intros s; simpl.
  - exists s. repeat split; lia.
  - destruct (rnn_val_batch_ok bs s b) as [w [st [l [a ->]]]]. simpl.
    destruct (IH {| vs_world := w; vs_next_state := st;
                    vs_loss_list := vs_loss_list s ++ [l];
                    vs_acc_list := vs_acc_list s ++ [a] |})
      as [s' [-> [Hl Ha]]].
    exists s'. simpl in *. rewrite length_app in Hl, Ha. simpl in *.
    repeat split; lia.
Qed.

(** Every score the validation loop appends is what the run on that
    batch returned. *)
Lemma rnn_val_loop_scores (bs : Z)
      (batches : list (list sample * list label)) :
  forall s s',
    for_each (val_batch self bs) batches s = Ok s' ->
    exists scores : list (R * R),
      vs_loss_list s' = vs_loss_list s ++ map fst scores
      /\ vs_acc_list s' = vs_acc_list s ++ map snd scores
      /\ Forall2 scores_of batches scores.
Proof.
  induction batches as [|b batches IH]; intros s s' Hrun.
  - injection Hrun as <-. exists []. cbn [map]. rewrite !app_nil_r. auto.
  - cbn [for_each] in Hrun.
    destruct (val_batch self bs s b) as [s1|] eqn:E1; [|discriminate].
    cbn [bind] in Hrun.
    destruct (IH _ _ Hrun) as [scores [Hl [Ha Hall]]].
    unfold val_batch in E1. destruct b as [Xb Yb].
    destruct (stateful self && _)%bool;
      match type of E1 with
      | context [run_eval ?w ?f] =>
          destruct (run_eval w f) as [w' [[l a] st]] eqn:Erun;
          injection E1 as <-;
          cbn [vs_loss_list vs_acc_list] in Hl, Ha;
          exists ((l, a) :: scores); cbn [map fst snd];
          rewrite Hl, Ha, <- !app_assoc; repeat split; trivial;
          constructor; trivial;
          exists w, f; cbn [feed_X feed_Y feed_rnn_keep_prob fst snd];
          rewrite Erun; auto
      end.
Qed.

(** The two lists a validation pass returns hold the scores of the runs
    on the zipped validation batches, one per batch and in their order. *)
Lemma rnn_validate_inv (w : world) (vd : list sample * list label)
      (bs : Z) (vs : val_state) :
  validate self w vd bs = Ok vs ->
  exists Xb Yb (scores : list (R * R)),
    gen_batch (fst vd) bs = Ok Xb
    /\ gen_batch (snd vd) bs = Ok Yb
    /\ vs_loss_list vs = map fst scores
    /\ vs_acc_list vs = map snd scores
    /\ Forall2 scores_of (Batching.zip Xb Yb) scores.
Proof.
  unfold validate.
  destruct (fetch_init_state w bs) as [st|]; [|discriminate]. cbn [bind].
  destruct (gen_batch (fst vd) bs) as [Xb|]; [|discriminate].
  destruct (gen_batch (snd vd) bs) as [Yb|]; [|discriminate].
  cbn [bind]. intros Hrun. exists Xb, Yb.
  destruct (rnn_val_loop_scores _ _ _ Hrun) as [scores [Hl [Ha Hall]]].
  exists scores. auto.
Qed.

Lemma rnn_validate_ok (w : world) (vd : list sample * list label) (bs : Z) :
  (0 < bs)%Z -> fst vd <> [] -> snd vd <> [] ->
  exists vs, validate self w vd bs = Ok vs
             /\ vs_loss_list vs <> [] /\ vs_acc_list vs <> [].
Proof.
  intros Hbs HX HY. unfold validate, gen_batch.
  rewrite fetch_init_state_ok by lia. cbn [bind].
  destruct (gen_batch_nonempty Hbs HX) as [xb [xbs ->]].
  destruct (gen_batch_nonempty Hbs HY) as [yb [ybs ->]]. cbn [bind].
  destruct (rnn_val_loop bs (Batching.zip (xb :: xbs) (yb :: ybs))
                         {| vs_world := w;
                            vs_next_state := run_init_state w bs;
                            vs_loss_list := []; vs_acc_list := [] |})
    as [vs [-> [Hl Ha]]].
  exists vs. simpl in Hl, Ha.
  repeat split; trivial; intros E; rewrite E in *; simpl in *; lia.
Qed.

Lemma rnn_fit_epoch_inv (vd : list sample * list label) (n_epoch bs : Z)
      (dec shuf : bool) (kp : R) (s s' : fit_state) (e : Z) :
  fit_epoch self (Some vd) n_epoch bs dec shuf kp s e = Ok s' ->
  exists X Y t vs,
    train_epoch self n_epoch bs dec shuf kp s = Ok (X, Y, t)
    /\ validate self (ts_world t) vd bs = Ok vs
    /\ vs_loss_list vs <> [] /\ vs_acc_list vs <> []
    /\ log_val_loss (fs_log s')
       = log_val_loss (fs_log s)
           ++ [(Py.sum (vs_loss_list vs) / INR (length (vs_loss_list vs)))%R]
    /\ log_val_acc (fs_log s')
       = log_val_acc (fs_log s)
           ++ [(Py.sum (vs_acc_list vs) / INR (length (vs_acc_list vs)))%R].
Proof.
  unfold fit_epoch.
  destruct (train_epoch self n_epoch bs dec shuf kp s)
    as [[[X Y] t]|] eqn:Et; [|discriminate]. cbn [bind].
  destruct (validate self (ts_world t) vd bs) as [vs|] eqn:Ev;
    [|discriminate].
  cbn [bind].
  destruct (list_avg (vs_loss_list vs)) as [vl|] eqn:El; [|discriminate].
  destruct (list_avg (vs_acc_list vs)) as [va|] eqn:Ea; [|discriminate].
  cbn [bind].
  destruct (ts_last t) as [[[l a] lr]|]; [|discriminate].
  intros [= <-]. cbn [fs_log].
  apply list_avg_ok_inv in El, Ea.
  destruct El as [Hl ->], Ea as [Ha ->].
  exists X, Y, t, vs. repeat split; trivial.
Qed.

Lemma rnn_fit_log (vd : list sample * list label) (n_epoch bs : Z)
      (dec shuf : bool) (kp : R) (s0 : fit_state) :
  log_val_loss (fs_log s0) = [] -> log_val_acc (fs_log s0) = [] ->
  forall (n : nat) (s : fit_state),
    for_range (Z.of_nat n) (fit_epoch self (Some vd) n_epoch bs dec shuf kp)
              s0 = Ok s ->
    length (log_val_loss (fs_log s)) = n
    /\ length (log_val_acc (fs_log s)) = n
    /\ forall e, (e < n)%nat ->
         exists s_e X Y t vs,
           for_range (Z.of_nat e)
                     (fit_epoch self (Some vd) n_epoch bs dec shuf kp) s0
           = Ok s_e
           /\ train_epoch self n_epoch bs dec shuf kp s_e = Ok (X, Y, t)
           /\ validate self (ts_world t) vd bs = Ok vs
           /\ vs_loss_list vs <> [] /\ vs_acc_list vs <> []
           /\ nth e (log_val_loss (fs_log s)) 0%R
              = (Py.sum (vs_loss_list vs) / INR (length (vs_loss_list vs)))%R
           /\ nth e (log_val_acc (fs_log s)) 0%R
              = (Py.sum (vs_acc_list vs) / INR (length (vs_acc_list vs)))%R.
Proof.
  intros Hl0 Ha0. induction n as [|n IH]; intros s Hrun.
  - rewrite for_range_nonpos in Hrun by reflexivity.
    injection Hrun as <-. rewrite Hl0, Ha0. repeat split; trivial.
    intros e He. lia.
  - rewrite for_range_succ in Hrun.
    destruct (for_range (Z.of_nat n) _ s0) as [s_n|] eqn:En; [|discriminate].
    cbn [bind] in Hrun.
    destruct (IH s_n eq_refl) as [Hlen_l [Hlen_a Hentries]].
    destruct (rnn_fit_epoch_inv _ _ _ _ _ _ _ _ Hrun)
      as [X [Y [t [vs [Ht [Hv [Hnl [Hna [Hl Ha]]]]]]]]].
    rewrite Hl, Ha, !length_app, Hlen_l, Hlen_a. cbn [length].
    repeat split; try lia.
    intros e He. destruct (Nat.eq_dec e n) as [->|Hne].
    + exists s_n, X, Y, t, vs. repeat split; trivial.
      * rewrite app_nth2 by lia. now rewrite Hlen_l, Nat.sub_diag.
      * rewrite app_nth2 by lia. now rewrite Hlen_a, Nat.sub_diag.
    + destruct (Hentries e) as [s_e [X' [Y' [t' [vs' Hrest]]]]]; [lia|].
      exists s_e, X', Y', t', vs'.
      rewrite !app_nth1 by lia. exact Hrest.
Qed.

Hypothesis shuffle_lengths :
  forall w X Y,
    length (fst (snd (shuffle w X Y))) = length X
    /\ length (snd (snd (shuffle w X Y))) = length Y.

Lemma rnn_train_loop_ok (n_epoch len_X bs : Z) (kp : R) (dec : bool)
      (batches : list (list sample * list label)) :
  (0 < n_epoch)%Z -> (0 < len_X)%Z -> (0 < bs)%Z ->
  forall t, exists t',
    for_each (train_batch self n_epoch len_X bs dec kp) batches t = Ok t'
    /\ (batches <> [] \/ ts_last t <> None -> ts_last t' <> None).
Proof.
  intros Hn Hl Hb. induction batches as [|[Xb Yb] batches IH]; intros t.
  - exists t. split; trivial. intros [?|?]; congruence.
  - cbn [for_each]. unfold train_batch at 1.
    destruct (rnn_decrease_lr_ok dec (IZR (ts_global_step t)) Hn Hl Hb)
      as [lr ->]. cbn [bind].
    destruct (stateful self && _)%bool;
      destruct (run_train _ _) as [w [[st l] a]]; cbn [bind];
      match goal with
      | |- context [for_each _ batches ?t1] =>
          destruct (IH t1) as [t' [-> Hlast]]
      end;
      exists t'; (split; trivial); intros _; apply Hlast; right;
      discriminate.
Qed.

Lemma rnn_fit_epoch_ok (vd : list sample * list label) (n_epoch bs : Z)
      (dec shuf : bool) (kp : R) (s : fit_state) (e : Z) :
  (0 < n_epoch)%Z -> (0 < bs)%Z ->
  fst vd <> [] -> snd vd <> [] ->
  fs_X s <> [] -> length (fs_X s) = length (fs_Y s) ->
  exists s', fit_epoch self (Some vd) n_epoch bs dec shuf kp s e = Ok s'
             /\ length (fs_X s') = length (fs_X s)
             /\ length (fs_Y s') = length (fs_Y s).
Proof.
  intros Hn Hb HvX HvY HX Hlen. unfold fit_epoch, train_epoch.
  assert (Hshuf : exists w X Y,
             (if shuf then sklearn_shuffle (fs_world s) (fs_X s) (fs_Y s)
              else Ok (fs_world s, (fs_X s, fs_Y s))) = Ok (w, (X, Y))
             /\ length X = length (fs_X s)
             /\ length Y = length (fs_Y s)).
  { destruct shuf.
    - unfold sklearn_shuffle.
      rewrite (proj2 (Nat.eqb_eq _ _) Hlen).
      destruct (shuffle_lengths (fs_world s) (fs_X s) (fs_Y s)) as [Hx Hy].
      destruct (shuffle _ _ _) as [w [X Y]]. cbn [fst snd] in *.
      exists w, X, Y. auto.
    - eauto 10. }
  destruct Hshuf as [w [X [Y [-> [HlenX HlenY]]]]]. cbn [bind].
  assert (HX' : X <> []).
  { intros ->. destruct (fs_X s); [congruence | simpl in HlenX; lia]. }
  assert (HY' : Y <> []).
  { intros ->. destruct (fs_X s); [congruence|].
    simpl in Hlen. rewrite <- Hlen in HlenY. simpl in HlenY. lia. }
  rewrite fetch_init_state_ok by lia. cbn [bind].
  unfold gen_batch.
  destruct (gen_batch_nonempty Hb HX') as [xb [xbs ->]].
  destruct (gen_batch_nonempty Hb HY') as [yb [ybs ->]]. cbn [bind].
  assert (HlenZ : (0 < Z.of_nat (length X))%Z)
    by (destruct X; [congruence | simpl; lia]).
  destruct (rnn_train_loop_ok kp dec (Batching.zip (xb :: xbs) (yb :: ybs))
                              Hn HlenZ Hb
                              {| ts_world := w;
                                 ts_next_state := run_init_state w bs;
                                 ts_global_step := fs_global_step s;
                                 ts_last := fs_last s |})
    as [t [-> Hlast]]. cbn [bind].
  destruct (rnn_validate_ok (ts_world t) vd Hb HvX HvY)
    as [vs [-> [Hnl Hna]]]. cbn [bind].
  unfold list_avg.
  destruct (vs_loss_list vs) as [|l0 ls]; [congruence|].
  destruct (vs_acc_list vs) as [|a0 accs]; [congruence|]. cbn [bind].
  destruct (ts_last t) as [[[l a] lr]|] eqn:Elast.
  - eexists. split; [reflexivity|]. cbn [fs_X fs_Y]. auto.
  - exfalso. apply Hlast; trivial. left. discriminate.
Qed.

Lemma rnn_fit_ok (w : world) (X : list sample) (Y : list label)
      (vd : list sample * list label) (n_epoch bs : Z)
      (dec shuf : bool) (kp : R) :
  (0 < bs)%Z -> fst vd <> [] -> snd vd <> [] ->
  X <> [] -> length X = length Y ->
  exists w' lg, fit self w X Y (Some vd) n_epoch bs dec shuf kp = Ok (w', lg).
Proof.
  intros Hb HvX HvY HX Hlen. unfold fit.
  destruct (Z_le_gt_dec n_epoch 0) as [Hn|Hn].
  - rewrite for_range_nonpos by trivial. cbn [bind]. eauto.
  - unfold for_range.
    destruct (@for_each_total _ _
                (fit_epoch self (Some vd) n_epoch bs dec shuf kp)
                (fun s => length (fs_X s) = length X
                          /\ length (fs_Y s) = length Y)
                (fun _ => True))
      with (l := map Z.of_nat (seq 0 (Z.to_nat n_epoch)))
           (s := fit_init w X Y)
      as [s [-> _]].
    + intros s e [HsX HsY] _.
      destruct (@rnn_fit_epoch_ok vd n_epoch bs dec shuf kp s e)
        as [s' [Hs' [HlX HlY]]]; trivial; try lia.
      * intros E. rewrite E in HsX. destruct X; [congruence|].
        simpl in HsX. lia.
      * exists s'. split; trivial.
        split; [now rewrite HlX | now rewrite HlY].
    + now split.
    + apply Forall_forall. trivial.
    + cbn [bind]. eauto.
Qed.

End RnnFitFacts.


(** ** The recorded validation scores *)

(** C6. Whenever [fit], called with validation data, returns its log, the
    log holds one validation loss and one validation accuracy per epoch, and
    the entry of epoch [e] is the unweighted mean, sum over count, of the
    scores of the validation batches of that epoch: there is one pair of
    scores per zipped validation batch, whatever the batch's size, each the
    loss and accuracy that a run fed with that batch and a keep probability
    of 1 returned, collected by the validation pass that starts from the
    world the training half of epoch [e] leaves. [fit] does return its log
    when the batch size is positive, the training and the validation data
    are not empty and have as many labels as inputs, the sizes are within
    the range of floats and the shuffle keeps lengths; for
    [Conv1DClassifier], whose runs raise on a batch of one row, when in
    addition no batch has one row and the runs return on every other
    feed. *)
Theorem validation_scores_are_batch_means :
  (forall (Sess : RNNTextClassifier.Session) (self : RNNTextClassifier.config)
          w X Y vd n_epoch batch_size en_exp_decay en_shuffle rnn_keep_prob,
      (forall w' lg,
          RNNTextClassifier.fit self w X Y (Some vd) n_epoch batch_size
                                en_exp_decay en_shuffle rnn_keep_prob
          = Ok (w', lg) ->
          length (log_val_loss lg) = Z.to_nat n_epoch
          /\ length (log_val_acc lg) = Z.to_nat n_epoch
          /\ forall e, (e < Z.to_nat n_epoch)%nat ->
               exists s_e X_e Y_e t vs Xb Yb (scores : list (R * R)),
                 for_range (Z.of_nat e)
                           (RNNTextClassifier.fit_epoch
                              self (Some vd) n_epoch batch_size en_exp_decay
                              en_shuffle rnn_keep_prob)
                           (RNNTextClassifier.fit_init w X Y) = Ok s_e
                 /\ RNNTextClassifier.train_epoch
                      self n_epoch batch_size en_exp_decay en_shuffle
                      rnn_keep_prob s_e = Ok (X_e, Y_e, t)
                 /\ RNNTextClassifier.validate
                      self (RNNTextClassifier.ts_world t) vd batch_size = Ok vs
                 /\ RNNTextClassifier.gen_batch (fst vd) batch_size = Ok Xb
                 /\ RNNTextClassifier.gen_batch (snd vd) batch_size = Ok Yb
                 /\ Forall2 RNNTextClassifier.scores_of
                            (Batching.zip Xb Yb) scores
                 /\ RNNTextClassifier.vs_loss_list vs = map fst scores
                 /\ RNNTextClassifier.vs_acc_list vs = map snd scores
                 /\ scores <> []
                 /\ nth e (log_val_loss lg) 0%R = Py.mean (map fst scores)
                 /\ nth e (log_val_acc lg) 0%R = Py.mean (map snd scores))
      /\ (FloatRange.float_sized n_epoch (Z.of_nat (length X)) batch_size ->
          fst vd <> [] -> length (fst vd) = length (snd vd) ->
          X <> [] -> length X = length Y ->
          (forall w0 X0 Y0,
              length (fst (snd (RNNTextClassifier.shuffle w0 X0 Y0))) = length X0
              /\ length (snd (snd (RNNTextClassifier.shuffle w0 X0 Y0)))
                 = length Y0) ->
          exists w' lg,
            RNNTextClassifier.fit self w X Y (Some vd) n_epoch batch_size
                                  en_exp_decay en_shuffle rnn_keep_prob
            = Ok (w', lg)))
  /\
  (forall (Sess : Conv1DClassifier.Session)
          w X Y vd n_epoch batch_size keep_prob en_exp_decay en_shuffle,
      (forall w' lg,
          Conv1DClassifier.fit w X Y (Some vd) n_epoch batch_size keep_prob
                               en_exp_decay en_shuffle
          = Ok (w', lg) ->
          length (log_val_loss lg) = Z.to_nat n_epoch
          /\ length (log_val_acc lg) = Z.to_nat n_epoch
          /\ forall e, (e < Z.to_nat n_epoch)%nat ->
               exists s_e X_e Y_e t vs Xb Yb (scores : list (R * R)),
                 for_range (Z.of_nat e)
                           (Conv1DClassifier.fit_epoch
                              (Some vd) n_epoch batch_size keep_prob
                              en_exp_decay en_shuffle)
                           (Conv1DClassifier.fit_init w X Y) = Ok s_e
                 /\ Conv1DClassifier.train_epoch
                      n_epoch batch_size keep_prob en_exp_decay en_shuffle s_e
                    = Ok (X_e, Y_e, t)
                 /\ Conv1DClassifier.validate
                      (Conv1DClassifier.ts_world t) vd batch_size = Ok vs
                 /\ Conv1DClassifier.gen_batch (fst vd) batch_size = Ok Xb
                 /\ Conv1DClassifier.gen_batch (snd vd) batch_size = Ok Yb
                 /\ Forall2 Conv1DClassifier.scores_of
                            (Batching.zip Xb Yb) scores
                 /\ Conv1DClassifier.vs_loss_list vs = map fst scores
                 /\ Conv1DClassifier.vs_acc_list vs = map snd scores
                 /\ scores <> []
                 /\ nth e (log_val_loss lg) 0%R = Py.mean (map fst scores)
                 /\ nth e (log_val_acc lg) 0%R = Py.mean (map snd scores))
      /\ (FloatRange.float_sized n_epoch (Z.of_nat (length X)) batch_size ->
          (2 <= batch_size)%Z ->
          fst vd <> [] -> length (fst vd) = length (snd vd) ->
          (Z.of_nat (length (fst vd)) mod batch_size <> 1)%Z ->
          X <> [] -> length X = length Y ->
          (Z.of_nat (length X) mod batch_size <> 1)%Z ->
          (forall w0 X0 Y0,
              length (fst (snd (Conv1DClassifier.shuffle w0 X0 Y0))) = length X0
              /\ length (snd (snd (Conv1DClassifier.shuffle w0 X0 Y0)))
                 = length Y0) ->
          (forall w0 f, (2 <= length (Conv1DClassifier.feed_X f))%nat ->
                        exists r, Conv1DClassifier.run_train w0 f = Ok r) ->
          (forall w0 f, (2 <= length (Conv1DClassifier.feed_X f))%nat ->
                        exists r, Conv1DClassifier.run_eval w0 f = Ok r) ->
          exists w' lg,
            Conv1DClassifier.fit w X Y (Some vd) n_epoch batch_size keep_prob
                                 en_exp_decay en_shuffle
            = Ok (w', lg))).
Proof.
  assert (Hnonempty : forall (A B : Type) (l : list A) (l' : list B),
             l <> [] -> length l = length l' -> l' <> []).
  { intros A B l l' Hl Hlen ->. destruct l; [congruence | discriminate]. }
  split.
  - intros Sess self w X Y vd n_epoch bs dec shuf kp. split.
    + intros w' lg Hfit. unfold RNNTextClassifier.fit in Hfit.
      rewrite for_range_to_nat in Hfit.
      destruct (for_range (Z.of_nat (Z.to_nat n_epoch)) _ _) as [s|] eqn:Erun;
        [|discriminate].
      cbn [bind] in Hfit. injection Hfit as <- <-.
      destruct (rnn_fit_log self vd n_epoch bs dec shuf kp
                            (RNNTextClassifier.fit_init w X Y)
                            eq_refl eq_refl _ Erun) as [Hl [Ha Hentries]].
      repeat split; trivial.
      intros e He.
      destruct (Hentries e He)
        as [s_e [X_e [Y_e [t [vs [Hs [Ht [Hv [Hnl [Hna [Hel Hea]]]]]]]]]]].
      destruct (rnn_validate_inv _ _ _ _ Hv)
        as [Xb [Yb [scores [HXb [HYb [Hls [Has Hall]]]]]]].
      exists s_e, X_e, Y_e, t, vs, Xb, Yb, scores.
      rewrite <- Hls, <- Has. repeat split; trivial.
      intros ->. now rewrite Hls in Hnl.
    + intros [_ [_ Hb]] HvX Hvlen HX Hlen Hshuffle.
      apply rnn_fit_ok; trivial; [lia | now apply (Hnonempty _ _ (fst vd))].
  - intros Sess w X Y vd n_epoch bs kp dec shuf. split.
    + intros w' lg Hfit. unfold Conv1DClassifier.fit in Hfit.
      rewrite for_range_to_nat in Hfit.
      destruct (for_range (Z.of_nat (Z.to_nat n_epoch)) _ _) as [s|] eqn:Erun;
        [|discriminate].
      cbn [bind] in Hfit. injection Hfit as <- <-.
      destruct (conv_fit_log vd n_epoch bs kp dec shuf
                             (Conv1DClassifier.fit_init w X Y)
                             eq_refl eq_refl _ Erun) as [Hl [Ha Hentries]].
      repeat split; trivial.
      intros e He.
      destruct (Hentries e He)
        as [s_e [X_e [Y_e [t [vs [Hs [Ht [Hv [Hnl [Hna [Hel Hea]]]]]]]]]]].
      destruct (conv_validate_inv _ _ _ Hv)
        as [Xb [Yb [scores [HXb [HYb [Hls [Has Hall]]]]]]].
      exists s_e, X_e, Y_e, t, vs, Xb, Yb, scores.
      rewrite <- Hls, <- Has. repeat split; trivial.
      intros ->. now rewrite Hls in Hnl.
    + intros _ Hb HvX Hvlen Hvmod HX Hlen Hmod Hshuffle Htrain Heval.
      apply conv_fit_ok; trivial. now apply (Hnonempty _ _ (fst vd)).
Qed.


(** ** Validation data without inputs *)

Lemma gen_batch_nil {A : Type} (bs : Z) :
  (0 < bs)%Z -> Batching.gen_batch (@nil A) bs = Ok [].
Proof. intros Hbs. now rewrite gen_batch_chunks. Qed.

Lemma gen_batch_nonzero {A : Type} (arr : list A) (bs : Z) :
  bs <> 0%Z -> exists batches, Batching.gen_batch arr bs = Ok batches.
Proof.
  intros Hbs. destruct (Z_lt_le_dec bs 0).
  - rewrite gen_batch_negative by trivial. eauto.
  - apply gen_batch_ok. lia.
Qed.

Lemma gen_batch_nil_nonzero {A : Type} (bs : Z) :
  bs <> 0%Z -> Batching.gen_batch (@nil A) bs = Ok [].
Proof.
  intros Hbs. destruct (Z_lt_le_dec bs 0).
  - now apply gen_batch_negative.
  - apply gen_batch_nil. lia.
Qed.

Lemma for_range_first_raises {St : Type} (body : St -> Z -> result St)
      (n : Z) (s : St) (e : exn) :
  (1 <= n)%Z -> body s 0%Z = Err e -> for_range n body s = Err e.
Proof.
  intros Hn Hbody. unfold for_range.
  destruct (Z.to_nat n) as [|k] eqn:E; [lia|].
  cbn [seq map for_each Z.of_nat]. now rewrite Hbody.
Qed.

Section EmptyValidation.

Lemma rnn_train_epoch_ok `{RNNTextClassifier.Session}
      (self : RNNTextClassifier.config) (n_epoch bs : Z) (dec shuf : bool)
      (kp : R) (s : RNNTextClassifier.fit_state) :
  (0 < n_epoch)%Z -> (0 < bs)%Z ->
  length (RNNTextClassifier.fs_X s) = length (RNNTextClassifier.fs_Y s) ->
  exists X Y t,
    RNNTextClassifier.train_epoch self n_epoch bs dec shuf kp s
    = Ok (X, Y, t).
Proof.
  intros Hn Hb Hlen. unfold RNNTextClassifier.train_epoch.
  assert (Hshuf : exists w X Y,
             (if shuf
              then RNNTextClassifier.sklearn_shuffle
                     (RNNTextClassifier.fs_world s)
                     (RNNTextClassifier.fs_X s) (RNNTextClassifier.fs_Y s)
              else Ok (RNNTextClassifier.fs_world s,
                       (RNNTextClassifier.fs_X s, RNNTextClassifier.fs_Y s)))
             = Ok (w, (X, Y))).
  { destruct shuf; [|eauto].
    unfold RNNTextClassifier.sklearn_shuffle.
    rewrite (proj2 (Nat.eqb_eq _ _) Hlen).
    destruct (RNNTextClassifier.shuffle _ _ _) as [w [X Y]]. eauto. }
  destruct Hshuf as [w [X [Y ->]]]. cbn [bind].
  rewrite fetch_init_state_ok by lia. cbn [bind].
  unfold RNNTextClassifier.gen_batch.
  destruct (gen_batch_ok Y Hb) as [Yb ->].
  destruct X as [|x X].
  - rewrite gen_batch_nil by trivial. cbn. eauto.
  - destruct (gen_batch_ok (x :: X) Hb) as [Xb ->]. cbn [bind].
    destruct (@rnn_train_loop_ok _ self n_epoch
                (Z.of_nat (length (x :: X))) bs kp dec
                (Batching.zip Xb Yb) Hn)
      with (t := {| RNNTextClassifier.ts_world := w;
                    RNNTextClassifier.ts_next_state :=
                      RNNTextClassifier.run_init_state w bs;
                    RNNTextClassifier.ts_global_step :=
                      RNNTextClassifier.fs_global_step s;
                    RNNTextClassifier.ts_last :=
                      RNNTextClassifier.fs_last s |})
      as [t [-> _]]; trivial; [simpl; lia|].
    cbn [bind]. eauto.
Qed.

(** An epoch of [fit] with validation data that has no input raises; when
    its training half completes, it is the average of no score that
    raises. *)
Lemma rnn_epoch_without_val_inputs `{RNNTextClassifier.Session}
      (self : RNNTextClassifier.config)
      (vl : list RNNTextClassifier.label) (n_epoch bs : Z)
      (dec shuf : bool) (kp : R) (s : RNNTextClassifier.fit_state)
      (e : Z) :
  (exists err,
      RNNTextClassifier.fit_epoch self (Some ([], vl)) n_epoch bs dec shuf
                                  kp s e = Err err)
  /\ (forall X Y t,
         RNNTextClassifier.train_epoch self n_epoch bs dec shuf kp s
         = Ok (X, Y, t) ->
         RNNTextClassifier.fit_epoch self (Some ([], vl)) n_epoch bs dec
                                     shuf kp s e
         = Err ZeroDivisionError)
  /\ (bs = 0%Z ->
      RNNTextClassifier.fit_epoch self (Some ([], vl)) n_epoch bs dec shuf
                                  kp s e = Err ValueError).
Proof.
  assert (Hcompleted :
            forall X Y t,
              RNNTextClassifier.train_epoch self n_epoch bs dec shuf kp s
              = Ok (X, Y, t) ->
              RNNTextClassifier.fit_epoch self (Some ([], vl)) n_epoch bs
                                          dec shuf kp s e
              = Err ZeroDivisionError).
  { intros X Y t Ht. unfold RNNTextClassifier.fit_epoch. rewrite Ht.
    cbn [bind]. unfold RNNTextClassifier.train_epoch in Ht.
    destruct (if shuf then _ else _) as [[w [X0 Y0]]|]; [|discriminate].
    cbn [bind] in Ht.
    destruct (RNNTextClassifier.fetch_init_state w bs) as [st|] eqn:Est;
      [|discriminate].
    apply fetch_init_state_inv in Est. destruct Est as [Hbs _].
    cbn [bind] in Ht.
    destruct (RNNTextClassifier.gen_batch X0 bs) as [Xb|] eqn:EX;
      [|discriminate].
    apply gen_batch_ok_nonzero in EX.
    unfold RNNTextClassifier.validate, RNNTextClassifier.gen_batch.
    rewrite fetch_init_state_ok by trivial. cbn [bind fst snd].
    rewrite gen_batch_nil_nonzero by trivial.
    destruct (gen_batch_nonzero vl EX) as [Yb ->]. reflexivity. }
  split; [|split; [exact Hcompleted|]].
  - destruct (RNNTextClassifier.train_epoch self n_epoch bs dec shuf kp s)
      as [[[X Y] t]|err] eqn:Et.
    + exists ZeroDivisionError. now apply (Hcompleted X Y t).
    + exists err. unfold RNNTextClassifier.fit_epoch. now rewrite Et.
  - intros ->. unfold RNNTextClassifier.fit_epoch,
      RNNTextClassifier.train_epoch.
    destruct shuf; [unfold RNNTextClassifier.sklearn_shuffle;
                    destruct (Nat.eqb _ _); [|reflexivity];
                    destruct (RNNTextClassifier.shuffle _ _ _)
                      as [w [X Y]] |];
      reflexivity.
Qed.

Lemma conv_epoch_without_val_inputs `{Conv1DClassifier.Session}
      (vl : list Conv1DClassifier.label) (n_epoch bs : Z) (kp : R)
      (dec shuf : bool) (s : Conv1DClassifier.fit_state) (e : Z) :
  (exists err,
      Conv1DClassifier.fit_epoch (Some ([], vl)) n_epoch bs kp dec shuf s e
      = Err err)
  /\ (forall X Y t,
         Conv1DClassifier.train_epoch n_epoch bs kp dec shuf s
         = Ok (X, Y, t) ->
         Conv1DClassifier.fit_epoch (Some ([], vl)) n_epoch bs kp dec shuf
                                    s e
         = Err ZeroDivisionError)
  /\ (bs = 0%Z ->
      Conv1DClassifier.fit_epoch (Some ([], vl)) n_epoch bs kp dec shuf s e
      = Err ValueError).
Proof.
  assert (Hcompleted :
            forall X Y t,
              Conv1DClassifier.train_epoch n_epoch bs kp dec shuf s
              = Ok (X, Y, t) ->
              Conv1DClassifier.fit_epoch (Some ([], vl)) n_epoch bs kp dec
                                         shuf s e
              = Err ZeroDivisionError).
  { intros X Y t Ht. unfold Conv1DClassifier.fit_epoch. rewrite Ht.
    cbn [bind]. unfold Conv1DClassifier.train_epoch in Ht.
    destruct (if shuf then _ else _) as [[w [X0 Y0]]|]; [|discriminate].
    cbn [bind] in Ht.
    destruct (Conv1DClassifier.gen_batch X0 bs) as [Xb|] eqn:EX;
      [|discriminate].
    apply gen_batch_ok_nonzero in EX.
    unfold Conv1DClassifier.validate, Conv1DClassifier.gen_batch.
    cbn [bind fst snd].
    rewrite gen_batch_nil_nonzero by trivial.
    destruct (gen_batch_nonzero vl EX) as [Yb ->]. reflexivity. }
  split; [|split; [exact Hcompleted|]].
  - destruct (Conv1DClassifier.train_epoch n_epoch bs kp dec shuf s)
      as [[[X Y] t]|err] eqn:Et.
    + exists ZeroDivisionError. now apply (Hcompleted X Y t).
    + exists err. unfold Conv1DClassifier.fit_epoch. now rewrite Et.
  - intros ->. unfold Conv1DClassifier.fit_epoch,
      Conv1DClassifier.train_epoch.
    destruct shuf; [unfold Conv1DClassifier.sklearn_shuffle;
                    destruct (Nat.eqb _ _); [|reflexivity];
                    destruct (Conv1DClassifier.shuffle _ _ _)
                      as [w [X Y]] |];
      reflexivity.
Qed.

End EmptyValidation.

(** C9, amended. For both classifiers, when [fit] is called for at least
    one epoch ([n_epoch >= 1]) with validation data whose inputs are empty,
    it raises instead of returning the log, whatever its other arguments.
    The error is the [ZeroDivisionError] of [list_avg] on the empty list of
    scores whenever the training half of the first epoch completes: in
    [RNNTextClassifier] for sizes within the range of floats and as many
    labels as inputs, in [Conv1DClassifier], whose runs can raise, for
    sizes within the range of floats whenever that training half
    returns. With a batch size of zero the error is the
    [ValueError] of the batch generator. With [n_epoch <= 0] no epoch runs
    and [fit] returns the empty log. *)
Theorem fit_empty_validation_raises :
  (forall (Sess : RNNTextClassifier.Session) (self : RNNTextClassifier.config)
          w X Y val_labels n_epoch batch_size en_exp_decay en_shuffle
          rnn_keep_prob,
      let call :=
        RNNTextClassifier.fit self w X Y (Some ([], val_labels)) n_epoch
                              batch_size en_exp_decay en_shuffle rnn_keep_prob in
      ((1 <= n_epoch)%Z -> exists e, call = Err e)
      /\ (FloatRange.float_sized n_epoch (Z.of_nat (length X)) batch_size ->
          length X = length Y ->
          call = Err ZeroDivisionError)
      /\ ((1 <= n_epoch)%Z -> batch_size = 0%Z -> call = Err ValueError)
      /\ ((n_epoch <= 0)%Z ->
          call = Ok (RNNTextClassifier.run_initializer w, empty_log)))
  /\
  (forall (Sess : Conv1DClassifier.Session)
          w X Y val_labels n_epoch batch_size keep_prob en_exp_decay en_shuffle,
      let call :=
        Conv1DClassifier.fit w X Y (Some ([], val_labels)) n_epoch batch_size
                             keep_prob en_exp_decay en_shuffle in
      ((1 <= n_epoch)%Z -> exists e, call = Err e)
      /\ (FloatRange.float_sized n_epoch (Z.of_nat (length X)) batch_size ->
          forall X' Y' t,
            Conv1DClassifier.train_epoch
              n_epoch batch_size keep_prob en_exp_decay en_shuffle
              (Conv1DClassifier.fit_init w X Y) = Ok (X', Y', t) ->
            call = Err ZeroDivisionError)
      /\ ((1 <= n_epoch)%Z -> batch_size = 0%Z -> call = Err ValueError)
      /\ ((n_epoch <= 0)%Z ->
          call = Ok (Conv1DClassifier.run_initializer w, empty_log))).
Proof.
  split.
  - intros Sess self w X Y vl n_epoch bs dec shuf kp call. unfold call.
    destruct (@rnn_epoch_without_val_inputs
                Sess self vl n_epoch bs dec shuf kp
                (RNNTextClassifier.fit_init w X Y) 0%Z)
      as [[err Herr] [Hcompleted Hzero]].
    repeat split.
    + intros Hn. exists err. unfold RNNTextClassifier.fit.
      now rewrite (for_range_first_raises _ _ (e := err)).
    + intros [[Hn _] [_ [Hb _]]] Hlen. unfold RNNTextClassifier.fit.
      rewrite (for_range_first_raises _ _ (e := ZeroDivisionError));
        trivial; [lia|].
      destruct (@rnn_train_epoch_ok Sess self n_epoch bs dec shuf kp
                  (RNNTextClassifier.fit_init w X Y)) as [X' [Y' [t Ht]]];
        trivial.
      now apply (Hcompleted X' Y' t).
    + intros Hn Hb. unfold RNNTextClassifier.fit.
      rewrite (for_range_first_raises _ _ (e := ValueError)); auto.
    + intros Hn. unfold RNNTextClassifier.fit.
      now rewrite for_range_nonpos.
  - intros Sess w X Y vl n_epoch bs kp dec shuf call. unfold call.
    destruct (@conv_epoch_without_val_inputs
                Sess vl n_epoch bs kp dec shuf
                (Conv1DClassifier.fit_init w X Y) 0%Z)
      as [[err Herr] [Hcompleted Hzero]].
    repeat split.
    + intros Hn. exists err. unfold Conv1DClassifier.fit.
      now rewrite (for_range_first_raises _ _ (e := err)).
    + intros [[Hn _] _] X' Y' t Ht. unfold Conv1DClassifier.fit.
      rewrite (for_range_first_raises _ _ (e := ZeroDivisionError));
        trivial; try lia.
      now apply (Hcompleted X' Y' t).
    + intros Hn Hb. unfold Conv1DClassifier.fit.
      rewrite (for_range_first_raises _ _ (e := ValueError)); auto.
    + intros Hn. unfold Conv1DClassifier.fit.
      now rewrite for_range_nonpos.
Qed.


(** ** Prediction *)

Section ArgmaxFacts.

Local Open Scope R_scope.

Lemma argmax_from_spec (l : list R) :
  forall (p : list R) (bi : nat) (b : R),
    (bi < length p)%nat -> nth bi p 0 = b ->
    (forall k, (k < length p)%nat -> nth k p 0 <= b) ->
    (forall k, (k < bi)%nat -> nth k p 0 < b) ->
    first_argmax (p ++ l) (Np.argmax_from bi b (length p) l).
Proof.
  induction l as [|x l IH]; intros p bi b Hbi Hb Hle Hlt.
  - rewrite app_nil_r. simpl. subst b. repeat split; trivial.
  - replace (p ++ x :: l) with ((p ++ [x]) ++ l)
      by (rewrite <- app_assoc; reflexivity).
    assert (Hlen : length (p ++ [x]) = S (length p))
      by (rewrite length_app; simpl; lia).
    cbn [Np.argmax_from].
    destruct (Rlt_dec b x) as [Hbx|Hbx].
    + replace (Np.argmax_from (length p) x (S (length p)) l)
        with (Np.argmax_from (length p) x (length (p ++ [x])) l)
        by now rewrite Hlen.
      apply IH.
      * rewrite Hlen. lia.
      * rewrite app_nth2, Nat.sub_diag by lia. reflexivity.
      * intros k Hk. rewrite Hlen in Hk.
        destruct (Nat.eq_dec k (length p)) as [->|Hne].
        -- rewrite app_nth2, Nat.sub_diag by lia. simpl. lra.
        -- rewrite app_nth1 by lia.
           assert (Hk' : (k < length p)%nat) by lia.
           specialize (Hle k Hk'). lra.
      * intros k Hk. rewrite app_nth1 by lia.
        specialize (Hle k Hk). lra.
    + replace (Np.argmax_from bi b (S (length p)) l)
        with (Np.argmax_from bi b (length (p ++ [x])) l)
        by now rewrite Hlen.
      apply IH.
      * rewrite Hlen. lia.
      * now rewrite app_nth1 by lia.
      * intros k Hk. rewrite Hlen in Hk.
        destruct (Nat.eq_dec k (length p)) as [->|Hne].
        -- rewrite app_nth2, Nat.sub_diag by lia. simpl. lra.
        -- rewrite app_nth1 by lia. apply Hle. lia.
      * intros k Hk. rewrite app_nth1 by lia. now apply Hlt.
Qed.

Lemma argmax_row_spec (row : TF.vector) :
  row <> [] -> exists j, Np.argmax_row row = Ok j /\ first_argmax row j.
Proof.
  destruct row as [|x l]; [congruence|]. intros _.
  exists (Np.argmax_from 0 x 1 l). split; trivial.
  apply (argmax_from_spec l [x]); simpl; trivial.
  - lia.
  - intros k Hk. replace k with O by lia. lra.
  - intros k Hk. lia.
Qed.

Lemma argmax_1_spec (m : TF.matrix) :
  Forall (fun row => row <> []) m ->
  exists labels,
    Np.argmax_1 m = Ok labels
    /\ length labels = length m
    /\ forall i, (i < length m)%nat ->
         first_argmax (nth i m []) (nth i labels O).
Proof.
  unfold Np.argmax_1. induction 1 as [|row m Hrow Hm IH]; simpl.
  - exists []. split; [reflexivity|]. split; [reflexivity|].
    intros i Hi. lia.
  - destruct (argmax_row_spec Hrow) as [j [-> Hj]].
    destruct IH as [labels [-> [Hlen Hall]]]. simpl.
    exists (j :: labels). split; [reflexivity|]. split; [simpl; lia|].
    intros i Hi. destruct i as [|i]; simpl; [exact Hj|].
    apply Hall. lia.
Qed.

End ArgmaxFacts.

Section BatchIndexFacts.

Context {A B : Type}.

(** Row [i] of the stacked per-batch results is row [i mod n] of the
    result of batch [i / n]. *)
Lemma nth_concat_batches (n : nat) (d : B) :
  (0 < n)%nat ->
  forall fuel (X : list A) (preds : list (list B)),
    (length X <= fuel)%nat ->
    Forall2 (fun b p => length p = length b) (chunks fuel n X) preds ->
    length (concat preds) = length X
    /\ forall i, (i < length X)%nat ->
         nth i (concat preds) d = nth (i mod n) (nth (i / n) preds []) d.
Proof.
  intros Hn. induction fuel as [|fuel IH]; intros X preds Hfuel Hall.
  - destruct X; [|simpl in Hfuel; lia]. simpl in Hall.
    inversion Hall; subst. split; trivial. simpl. intros; lia.
  - destruct X as [|a X'].
    { simpl in Hall. inversion Hall; subst. split; trivial.
      simpl. intros; lia. }
    cbn [chunks] in Hall. inversion Hall as [|b p bs ps Hp Hps]; subst.
    rewrite length_firstn in Hp.
    assert (Hskip : length (skipn n (a :: X')) = (length (a :: X') - n)%nat)
      by apply length_skipn.
    destruct (IH (skipn n (a :: X')) ps) as [Hlen Hnth]; trivial.
    { rewrite Hskip. cbn [length] in *. lia. }
    cbn [concat]. rewrite length_app, Hlen, Hskip. split; [lia|].
    intros i Hi. destruct (le_lt_dec (length p) i) as [Hge|Hlt].
    + assert (Hpn : length p = n) by lia.
      rewrite app_nth2 by lia. rewrite Hpn.
      rewrite Hnth by lia.
      assert (Hdiv : (i / n = S ((i - n) / n))%nat).
      { replace i with ((i - n) + 1 * n)%nat at 1 by lia.
        rewrite Nat.div_add by lia. lia. }
      assert (Hmod : (i mod n = (i - n) mod n)%nat).
      { replace i with ((i - n) + 1 * n)%nat at 1 by lia.
        now rewrite Nat.Div0.mod_add. }
      now rewrite Hdiv, Hmod.
    + rewrite app_nth1 by trivial.
      rewrite Nat.div_small, Nat.mod_small by lia. reflexivity.
Qed.

End BatchIndexFacts.

Section RnnPredictFacts.

Import RNNTextClassifier.
Context `{Session}.
Variable self : config.

Lemma rnn_predict_loop (bs : Z) (batches : list (list sample)) :
  forall s, exists s' preds,
    for_each (predict_batch self bs) batches s = Ok s'
    /\ ps_batch_pred_list s' = ps_batch_pred_list s ++ preds
    /\ Forall2 logits_of batches preds.
Proof.
  induction batches as [|b batches IH]; intros s.
  - exists s, []. simpl. rewrite app_nil_r. auto.
  - cbn [for_each]. unfold predict_batch at 1.
    destruct (stateful self && _)%bool;
      match goal with
      | |- context [run_logits ?w ?f] =>
          destruct (run_logits w f) as [w' [pred st]] eqn:Erun;
          assert (Hpred : logits_of b pred)
            by (exists w, f; split; [reflexivity | now rewrite Erun])
      end;
      cbn [bind];
      match goal with
      | |- context [for_each _ batches ?s1] =>
          destruct (IH s1) as [s' [preds [-> [Hlist Hall]]]]
      end;
      exists s', (pred :: preds); cbn [ps_batch_pred_list] in Hlist;
      rewrite Hlist, <- app_assoc; auto.
Qed.

End RnnPredictFacts.

Lemma Forall_concat {A : Type} (P : A -> Prop) (ls : list (list A)) :
  Forall (Forall P) ls -> Forall P (concat ls).
Proof.
  induction 1 as [|l ls Hl Hls IH]; simpl; [constructor|].
  apply Forall_app. now split.
Qed.

Lemma Forall2_impl {A B : Type} (P Q : A -> B -> Prop) (l : list A)
      (l' : list B) :
  (forall a b, P a b -> Q a b) -> Forall2 P l l' -> Forall2 Q l l'.
Proof. intros HPQ. induction 1; constructor; auto. Qed.

Lemma Forall2_right {A B : Type} (P : A -> B -> Prop) (Q : B -> Prop)
      (l : list A) (l' : list B) :
  (forall a b, P a b -> Q b) -> Forall2 P l l' -> Forall Q l'.
Proof. intros HPQ. induction 1; constructor; eauto. Qed.

(** C7. For a nonempty [X_test] and a positive [batch_size], in a session
    whose logits have one nonempty row per fed input row,
    [RNNTextClassifier.predict] returns one label per input row, in input
    order across the batch boundaries: the label of row [i] is the first
    index of the maximum of the logits row computed for it, which is row
    [i mod batch_size] of the result of batch [i / batch_size], each batch
    result being the logits of a run fed with that batch. *)
Theorem rnn_predict_labels
        (Sess : RNNTextClassifier.Session) (self : RNNTextClassifier.config)
        (w : RNNTextClassifier.world) (X_test : list RNNTextClassifier.sample)
        (batch_size : Z) :
  X_test <> [] -> (0 < batch_size)%Z ->
  (forall w0 f,
      let logits := fst (snd (RNNTextClassifier.run_logits w0 f)) in
      length logits = length (RNNTextClassifier.feed_X f)
      /\ Forall (fun row => row <> []) logits) ->
  exists s labels batches,
    RNNTextClassifier.gen_batch X_test batch_size = Ok batches
    /\ RNNTextClassifier.predict_batches self w X_test batch_size = Ok s
    /\ Forall2 RNNTextClassifier.logits_of batches
               (RNNTextClassifier.ps_batch_pred_list s)
    /\ RNNTextClassifier.predict self w X_test batch_size
       = Ok (RNNTextClassifier.ps_world s, labels)
    /\ length labels = length X_test
    /\ forall i, (i < length X_test)%nat ->
         let n := Z.to_nat batch_size in
         let row := nth (i mod n)
                        (nth (i / n) (RNNTextClassifier.ps_batch_pred_list s) [])
                        [] in
         nth i (concat (RNNTextClassifier.ps_batch_pred_list s)) [] = row
         /\ first_argmax row (nth i labels O).
Proof.
  intros HX Hbs Hshape.
  assert (Hn : (0 < Z.to_nat batch_size)%nat) by lia.
  pose proof (gen_batch_chunks X_test Hbs) as Hgen.
  destruct (rnn_predict_loop self batch_size
              (chunks (length X_test) (Z.to_nat batch_size) X_test)
              {| RNNTextClassifier.ps_world := w;
                 RNNTextClassifier.ps_next_state :=
                   RNNTextClassifier.run_init_state w batch_size;
                 RNNTextClassifier.ps_batch_pred_list := [] |})
    as [s [preds [Hloop [Hlist Hall]]]].
  cbn [RNNTextClassifier.ps_batch_pred_list app] in Hlist.
  assert (Hlens : Forall2 (fun b p => length p = length b)
                          (chunks (length X_test) (Z.to_nat batch_size) X_test)
                          preds).
  { revert Hall. apply Forall2_impl. intros b p [w0 [f [<- ->]]].
    apply Hshape. }
  assert (Hrows : Forall (Forall (fun row : list R => row <> [])) preds).
  { revert Hall. apply Forall2_right. intros b p [w0 [f [_ ->]]].
    apply Hshape. }
  destruct (nth_concat_batches (@nil R) Hn X_test (le_n _) Hlens)
    as [Hlen Hnth].
  destruct (argmax_1_spec (Forall_concat Hrows)) as [labels [Harg [Hll Hmax]]].
  assert (Hpredict_batches :
            RNNTextClassifier.predict_batches self w X_test batch_size = Ok s).
  { unfold RNNTextClassifier.predict_batches, RNNTextClassifier.gen_batch.
    rewrite fetch_init_state_ok by lia. cbn [bind].
    rewrite Hgen. exact Hloop. }
  exists s, labels, (chunks (length X_test) (Z.to_nat batch_size) X_test).
  rewrite Hlist. repeat split; trivial.
  - unfold RNNTextClassifier.predict. rewrite Hpredict_batches. cbn [bind].
    rewrite Hlist. unfold Np.vstack.
    destruct preds as [|p preds].
    { destruct X_test; [congruence|]. simpl in Hlens. inversion Hlens. }
    cbn [bind]. rewrite Harg. reflexivity.
  - lia.
  - now apply Hnth.
  - rewrite <- Hnth by trivial. apply Hmax. lia.
  - rewrite <- Hnth by trivial. apply Hmax. lia.
  - rewrite <- Hnth by trivial. apply Hmax. lia.
Qed.

Section ConvPredictFacts.

Import Conv1DClassifier.
Context `{Session}.

(** A loop of [predict] that completes has collected, batch by batch, the
    logits its runs returned. *)
Lemma conv_predict_loop_inv (batches : list (list sample)) :
  forall s s',
    for_each predict_batch batches s = Ok s' ->
    exists preds,
      snd s' = snd s ++ preds
      /\ Forall2 logits_of batches preds.
Proof.
  induction batches as [|b batches IH]; intros s s' Hrun.
  - injection Hrun as <-. exists []. rewrite app_nil_r. auto.
  - cbn [for_each] in Hrun. unfold predict_batch at 1 in Hrun.
    destruct s as [w l].
    destruct (run_logits w _) as [[w1 pred]|] eqn:Erun; [|discriminate].
    cbn [bind] in Hrun.
    destruct (IH _ _ Hrun) as [preds [Hlist Hall]].
    exists (pred :: preds). cbn [snd] in *.
    rewrite Hlist, <- app_assoc. split; trivial.
    constructor; trivial.
    exists w, w1,
      {| feed_X := b; feed_Y := None; feed_lr := None;
         feed_keep_prob := Some 1%R |}.
    cbn [feed_X feed_Y feed_keep_prob]. auto.
Qed.

(** The loop of [predict] stops at the first run that raises, with its
    error. *)
Lemma conv_predict_loop_raises (done : list (list sample))
      (b : list sample) (rest : list (list sample)) (e : exn) :
  (forall w, run_logits w {| feed_X := b; feed_Y := None; feed_lr := None;
                             feed_keep_prob := Some 1%R |} = Err e) ->
  (forall w b', In b' done ->
                exists r,
                  run_logits w {| feed_X := b'; feed_Y := None;
                                  feed_lr := None;
                                  feed_keep_prob := Some 1%R |} = Ok r) ->
  forall s, for_each predict_batch (done ++ b :: rest) s = Err e.
Proof.
  intros Hb. induction done as [|d done IH]; intros Hdone s.
  - cbn [app for_each]. unfold predict_batch. destruct s as [w l].
    now rewrite Hb.
  - cbn [app for_each]. unfold predict_batch at 1. destruct s as [w l].
    destruct (Hdone w d) as [[w1 p] ->]; [now left|]. cbn [bind].
    apply IH. intros w0 b' Hin. apply Hdone. now right.
Qed.

End ConvPredictFacts.


(** ** The carried RNN state *)

Section TailBatch.

Context {A : Type}.

(** After full batches, a remainder of at most [n] elements is one more
    batch, the last. *)
Lemma chunks_app_tail (n : nat) (tail : list A) :
  (0 < n)%nat -> (0 < length tail <= n)%nat ->
  forall (q : nat) (X : list A),
    length X = (q * n)%nat ->
    chunks (length (X ++ tail)) n (X ++ tail)
    = chunks (length X) n X ++ [tail].
Proof.
  intros Hn Htail. induction q as [|q IH]; intros X HX.
  - destruct X; [|simpl in HX; lia]. simpl app.
    destruct tail as [|a tail']; [simpl in Htail; lia|].
    cbn [length chunks] in *. rewrite firstn_all2, skipn_all2 by (cbn [length]; lia).
    now rewrite chunks_nil.
  - assert (Hlen : (n <= length X)%nat) by (rewrite HX; simpl; lia).
    destruct X as [|a X']; [simpl in Hlen; lia|].
    change ((a :: X') ++ tail) with (a :: (X' ++ tail)).
    cbn [length chunks].
    change (a :: (X' ++ tail)) with ((a :: X') ++ tail).
    rewrite firstn_app, skipn_app.
    replace (n - length (a :: X'))%nat with O by lia.
    rewrite firstn_O, skipn_O, app_nil_r.
    assert (Hskip : length (skipn n (a :: X')) = (q * n)%nat)
      by (rewrite length_skipn, HX; simpl; lia).
    rewrite <- app_comm_cons. f_equal.
    rewrite (chunks_more_fuel (fuel := length (X' ++ tail))
               (fuel' := length (skipn n (a :: X') ++ tail))); trivial.
    + rewrite IH by trivial.
      f_equal. apply chunks_more_fuel; trivial.
      rewrite Hskip. simpl in HX. lia.
    + rewrite !length_app, Hskip. simpl in HX. lia.
Qed.

Lemma chunks_full (n : nat) :
  (0 < n)%nat ->
  forall (q : nat) (X : list A) (fuel : nat),
    length X = (q * n)%nat -> (length X <= fuel)%nat ->
    Forall (fun b => length b = n) (chunks fuel n X).
Proof.
  intros Hn. induction q as [|q IH]; intros X fuel HX Hfuel.
  - destruct X; [|simpl in HX; lia]. rewrite chunks_nil. constructor.
  - destruct X as [|a X']; [simpl in HX; lia|].
    destruct fuel as [|fuel]; [simpl in Hfuel; lia|].
    cbn [chunks]. constructor.
    + rewrite length_firstn, HX. simpl. lia.
    + apply IH; rewrite length_skipn, HX.
      * simpl. lia.
      * cbn [length] in Hfuel, HX. simpl. lia.
Qed.

Lemma chunks_count (n : nat) :
  (0 < n)%nat ->
  forall (q : nat) (X : list A) (fuel : nat),
    length X = (q * n)%nat -> (length X <= fuel)%nat ->
    length (chunks fuel n X) = q.
Proof.
  intros Hn. induction q as [|q IH]; intros X fuel HX Hfuel.
  - destruct X; [|simpl in HX; lia]. now rewrite chunks_nil.
  - destruct X as [|a X']; [simpl in HX; lia|].
    destruct fuel as [|fuel]; [simpl in Hfuel; lia|].
    cbn [chunks length]. f_equal.
    apply IH; rewrite length_skipn, HX.
    + simpl. lia.
    + cbn [length] in Hfuel, HX. simpl. lia.
Qed.

Lemma gen_batch_app_tail (bs : Z) (X tail : list A) (q : nat) :
  (0 < bs)%Z -> Z.of_nat (length X) = (Z.of_nat q * bs)%Z ->
  (0 < Z.of_nat (length tail) <= bs)%Z ->
  exists batches,
    Batching.gen_batch X bs = Ok batches
    /\ (Forall (fun b => Z.of_nat (length b) = bs) batches
        /\ length batches = q)
    /\ Batching.gen_batch (X ++ tail) bs = Ok (batches ++ [tail]).
Proof.
  intros Hbs HX Htail.
  assert (Hn : (0 < Z.to_nat bs)%nat) by lia.
  assert (HX' : length X = (q * Z.to_nat bs)%nat) by nia.
  exists (chunks (length X) (Z.to_nat bs) X).
  rewrite !gen_batch_chunks by trivial. repeat split.
  - pose proof (chunks_full Hn q X HX' (le_n _)) as Hfull.
    revert Hfull. apply Forall_impl. intros b Hb. lia.
  - now apply chunks_count.
  - f_equal. apply chunks_app_tail with q; trivial. lia.
Qed.

End TailBatch.


Section StatefulCarry.

Import RNNTextClassifier.
Context {Sess : Session}.
Variable self : config.
Hypothesis stateful_on : stateful self = true.
Variable batch_size : Z.
Hypothesis batch_size_pos : (0 < batch_size)%Z.

Local Open Scope result_scope.






End StatefulCarry.


(** ** The theorems at concrete inputs *)

(** The runs of the small convolutional session return on every feed of
    two rows or more. *)
Lemma toy_conv_train_runs :
  forall w f, (2 <= length (Conv1DClassifier.feed_X f))%nat ->
    exists r, Conv1DClassifier.run_train (Session := Toy.conv_session) w f
              = Ok r.
Proof.
  intros w f Hf. cbn.
  destruct (Nat.eqb _ 1) eqn:E; [|eexists; reflexivity].
  apply Nat.eqb_eq in E.
  assert (H2 : (2 <= 1)%nat)
    by exact (eq_ind _ (fun n => (2 <= n)%nat) Hf _ E).
  lia.
Qed.

Lemma toy_conv_eval_runs :
  forall w f, (2 <= length (Conv1DClassifier.feed_X f))%nat ->
    exists r, Conv1DClassifier.run_eval (Session := Toy.conv_session) w f
              = Ok r.
Proof.
  intros w f Hf. cbn.
  destruct (Nat.eqb _ 1) eqn:E; [|eexists; reflexivity].
  apply Nat.eqb_eq in E.
  assert (H2 : (2 <= 1)%nat)
    by exact (eq_ind _ (fun n => (2 <= n)%nat) Hf _ E).
  lia.
Qed.

Lemma toy_conv_logits_run :
  forall w f, (2 <= length (Conv1DClassifier.feed_X f))%nat ->
    exists r, Conv1DClassifier.run_logits (Session := Toy.conv_session) w f
              = Ok r.
Proof.
  intros w f Hf. cbn.
  destruct (Nat.eqb _ 1) eqn:E; [|eexists; reflexivity].
  apply Nat.eqb_eq in E.
  assert (H2 : (2 <= 1)%nat)
    by exact (eq_ind _ (fun n => (2 <= n)%nat) Hf _ E).
  lia.
Qed.

Lemma attention_is_weighted_average_witness :
  exists weights,
    weights = RNNTextClassifier.Forward.attention_weights
                2 [[[1; 0]; [2; 1]]]%R [[1; 1]]%R
    /\ length weights = 1%nat
    /\ Forall (fun w => length w = 2%nat
                        /\ Forall (fun x => (0 <= x)%R) w
                        /\ TF.reduce_sum w = 1%R) weights.
Proof.
  eexists. split; [reflexivity|].
  destruct (@attention_is_weighted_average
              2 2 [[[1; 0]; [2; 1]]]%R [[1; 1]]%R)
    as [Hlen [Hconvex _]].
  - lia.
  - repeat constructor.
  - reflexivity.
  - split; assumption.
Defined.

Lemma global_maxpool_channel_maxima_witness :
  exists pooled,
    Conv1DClassifier.Forward.global_maxpool
      Toy.small_conv_config [[[1; 5]; [3; 2]]; [[0; 0]; [1; 1]]]%R
    = Ok (map (fun v => [[v]]) pooled)
    /\ length pooled = 2%nat
    /\ Conv1DClassifier.Forward.add_global_maxpool
         Toy.small_conv_config [[[1; 5]; [3; 2]]; [[0; 0]; [1; 1]]]%R
       = Ok (of_matrix pooled).
Proof.
  destruct (@global_maxpool_channel_maxima
              Toy.small_conv_config 2
              [[[1; 5]; [3; 2]]; [[0; 0]; [1; 1]]]%R)
    as [_ [pooled [Hpool [Hlen [_ [_ [Hsqueeze _]]]]]]].
  - reflexivity.
  - lia.
  - repeat constructor.
  - exists pooled. repeat split; trivial.
    apply Hsqueeze; simpl; lia.
Defined.

Lemma classifier_graph_stages_witness :
  exists st logits,
    Conv1DClassifier.Build.init Toy.conv_config = Ok st
    /\ Graph.get_tensor "logits" (snd st) = Ok logits
    /\ Graph.mentions Graph.is_max_pool logits = true.
Proof.
  destruct (proj2 classifier_graph_stages Toy.conv_config 18%Z)
    as [st [Hinit [_ [Hlogits [_ [_ [Hpool _]]]]]]].
  - unfold Conv1DClassifier.positive_sizes. simpl. lia.
  - reflexivity.
  - lia.
  - exists st. eexists. repeat split; eassumption.
Defined.

(** At the default-sized convolutional classifier the built graph has no
    attention-pooling step: its logits come through a max-pool. *)
Lemma conv1d_graph_has_no_attention :
  exists st logits,
    Conv1DClassifier.Build.init Toy.conv_config = Ok st
    /\ Graph.get_tensor "logits" (snd st) = Ok logits
    /\ Graph.mentions Graph.is_attention_pooling logits = false
    /\ Graph.mentions Graph.is_max_pool logits = true.
Proof.
  eexists. eexists. split; [reflexivity|]. cbn [snd].
  split; [reflexivity|]. split; reflexivity.
Qed.

Lemma validation_scores_are_batch_means_witness :
  (exists w' lg,
      RNNTextClassifier.fit (H := Toy.rnn_session) (Toy.rnn_config false)
                            O [1; 2; 3]%Z [0; 1; 0]%Z
                            (Some ([4; 5; 6]%Z, [1; 1; 0]%Z))
                            2 2 true true 1%R
      = Ok (w', lg))
  /\ (exists w' lg,
         Conv1DClassifier.fit (H := Toy.conv_session)
                              O [1; 2; 3; 4]%Z [0; 1; 0; 1]%Z
                              (Some ([4; 5; 6; 7]%Z, [1; 1; 0; 0]%Z))
                              2 2 (1 / 2)%R true true
         = Ok (w', lg)).
Proof.
  split.
  - apply (proj2 (proj1 validation_scores_are_batch_means
                        Toy.rnn_session (Toy.rnn_config false)
                        O [1; 2; 3]%Z [0; 1; 0]%Z
                        ([4; 5; 6]%Z, [1; 1; 0]%Z) 2%Z 2%Z true true 1%R));
      try discriminate; try reflexivity.
    + unfold FloatRange.float_sized. simpl. lia.
    + intros w0 X0 Y0. split; reflexivity.
  - apply (proj2 (proj2 validation_scores_are_batch_means
                        Toy.conv_session
                        O [1; 2; 3; 4]%Z [0; 1; 0; 1]%Z
                        ([4; 5; 6; 7]%Z, [1; 1; 0; 0]%Z) 2%Z 2%Z (1 / 2)%R
                        true true));
      try discriminate; try reflexivity.
    + unfold FloatRange.float_sized. simpl. lia.
    + intros w0 X0 Y0. split; reflexivity.
    + apply toy_conv_train_runs.
    + apply toy_conv_eval_runs.
Defined.

Lemma rnn_predict_labels_witness :
  exists s labels,
    RNNTextClassifier.predict (H := Toy.rnn_session) (Toy.rnn_config true)
                              O [5; 0; 7]%Z 2
    = Ok (RNNTextClassifier.ps_world s, labels)
    /\ length labels = 3%nat.
Proof.
  destruct (@rnn_predict_labels Toy.rnn_session (Toy.rnn_config true)
                                O [5; 0; 7]%Z 2%Z)
    as [s [labels [batches [_ [_ [_ [Hpredict [Hlen _]]]]]]]].
  - discriminate.
  - lia.
  - intros w0 f. split.
    + apply length_map.
    + apply Forall_forall. intros row Hin. apply in_map_iff in Hin.
      destruct Hin as [x [<- _]]. discriminate.
  - exists s, labels. split; assumption.
Defined.

Lemma fit_empty_validation_raises_witness :
  RNNTextClassifier.fit (H := Toy.rnn_session) (Toy.rnn_config false)
                        O [1; 2; 3]%Z [0; 1; 0]%Z (Some ([], [1]%Z))
                        2 2 true true 1%R
  = Err ZeroDivisionError
  /\ Conv1DClassifier.fit (H := Toy.conv_session)
                          O [1; 2; 3; 4]%Z [0; 1; 0; 1]%Z (Some ([], [1]%Z))
                          2 2 (1 / 2)%R true true
     = Err ZeroDivisionError.
Proof.
  split.
  - apply (proj1 (proj2 (proj1 fit_empty_validation_raises
                               Toy.rnn_session (Toy.rnn_config false)
                               O [1; 2; 3]%Z [0; 1; 0]%Z [1]%Z 2%Z 2%Z
                               true true 1%R))).
    + unfold FloatRange.float_sized. simpl. lia.
    + reflexivity.
  - eapply (proj1 (proj2 (proj2 fit_empty_validation_raises
                                Toy.conv_session
                                O [1; 2; 3; 4]%Z [0; 1; 0; 1]%Z [1]%Z 2%Z 2%Z
                                (1 / 2)%R true true))).
    + unfold FloatRange.float_sized. simpl. lia.
    + reflexivity.
Defined.

(** With [n_epoch = 0] and validation data without inputs, [fit] returns
    its log, empty, and raises nothing. *)
Lemma fit_zero_epochs_returns_log :
  RNNTextClassifier.fit (H := Toy.rnn_session) (Toy.rnn_config false)
                        O [1; 2; 3]%Z [0; 1; 0]%Z (Some ([], []))
                        0 2 true true 1%R
  = Ok (O, empty_log)
  /\ Conv1DClassifier.fit (H := Toy.conv_session)
                          O [1; 2; 3]%Z [0; 1; 0]%Z (Some ([], []))
                          0 2 (1 / 2)%R true true
     = Ok (O, empty_log).
Proof. split; reflexivity. Qed.



(** * Further properties *)

(** ** More on minibatch slicing *)

Section BatchCounts.

Context {A : Type}.

Lemma chunks_length (n : nat) :
  (0 < n)%nat ->
  forall fuel (l : list A), (length l <= fuel)%nat ->
    length (chunks fuel n l) = ((length l + n - 1) / n)%nat.
Proof.
  intros Hn. induction fuel as [|fuel IH]; intros l Hl.
  - destruct l; [|simpl in Hl; lia]. simpl.
    symmetry. apply Nat.div_small. lia.
  - destruct l as [|a l'].
    { simpl. symmetry. apply Nat.div_small. lia. }
    cbn [chunks length]. rewrite IH by (rewrite length_skipn; cbn [length] in *; lia).
    rewrite length_skipn. cbn [length].
    destruct (le_lt_dec (S (length l')) n) as [Hshort|Hlong].
    + replace (S (length l') - n)%nat with O by lia.
      rewrite (Nat.div_small (0 + n - 1)) by lia.
      apply (Nat.div_unique _ _ 1 (length l')); lia.
    + replace (S (length l') + n - 1)%nat
        with ((S (length l') - n + n - 1) + 1 * n)%nat by lia.
      rewrite Nat.div_add by lia. lia.
Qed.

Lemma chunks_sizes (n : nat) :
  (0 < n)%nat ->
  forall fuel (l : list A),
    Forall (fun b => b <> [] /\ (length b <= n)%nat) (chunks fuel n l).
Proof.
  intros Hn. induction fuel as [|fuel IH]; intros l; [constructor|].
  destruct l as [|a l']; [constructor|].
  cbn [chunks]. constructor; [|apply IH]. split.
  - destruct n; [lia | discriminate].
  - rewrite length_firstn. lia.
Qed.

Lemma chunks_self_lengths (fuel n : nat) (l : list A) :
  Forall2 (fun b p : list A => length p = length b)
          (chunks fuel n l) (chunks fuel n l).
Proof.
  induction (chunks fuel n l); constructor; trivial.
Qed.

End BatchCounts.

(** X1. For a positive [batch_size], [gen_batch] yields
    [ceil(len(arr) / batch_size)] batches, none of them empty and none
    longer than [batch_size]. *)
Theorem gen_batch_count_and_sizes (A : Type) (arr : list A) (batch_size : Z) :
  (0 < batch_size)%Z ->
  exists batches : list (list A),
    Batching.gen_batch arr batch_size = Ok batches
    /\ Z.of_nat (length batches)
       = ((Z.of_nat (length arr) + batch_size - 1) / batch_size)%Z
    /\ Forall (fun b => b <> [] /\ (Z.of_nat (length b) <= batch_size)%Z)
              batches.
Proof.
  intros Hbs. assert (Hn : (0 < Z.to_nat batch_size)%nat) by lia.
  exists (chunks (length arr) (Z.to_nat batch_size) arr).
  split; [now apply gen_batch_chunks|]. split.
  - rewrite chunks_length by trivial.
    rewrite Nat2Z.inj_div, Nat2Z.inj_sub, Nat2Z.inj_add, Z2Nat.id by lia.
    reflexivity.
  - pose proof (chunks_sizes Hn (length arr) arr) as Hall.
    revert Hall. apply Forall_impl. intros b [Hne Hle]. split; trivial. lia.
Qed.

Lemma gen_batch_count_and_sizes_witness :
  exists batches : list (list nat),
    Batching.gen_batch [1; 2; 3; 4; 5; 6; 7]%nat 3 = Ok batches
    /\ Z.of_nat (length batches) = 3%Z.
Proof.
  destruct (@gen_batch_count_and_sizes nat [1; 2; 3; 4; 5; 6; 7]%nat 3%Z)
    as [batches [Hgen [Hcount _]]]; [lia|].
  exists batches. split; trivial.
Defined.

(** X2. For a positive [batch_size], element [i] of [arr] is element
    [i mod batch_size] of batch number [i / batch_size]. *)
Theorem gen_batch_index (A : Type) (d : A) (arr : list A) (batch_size : Z) :
  (0 < batch_size)%Z ->
  exists batches : list (list A),
    Batching.gen_batch arr batch_size = Ok batches
    /\ forall i, (i < length arr)%nat ->
         nth i arr d
         = nth (i mod Z.to_nat batch_size)
               (nth (i / Z.to_nat batch_size) batches []) d.
Proof.
  intros Hbs. assert (Hn : (0 < Z.to_nat batch_size)%nat) by lia.
  exists (chunks (length arr) (Z.to_nat batch_size) arr).
  split; [now apply gen_batch_chunks|]. intros i Hi.
  destruct (nth_concat_batches d Hn arr (le_n _)
              (chunks_self_lengths (length arr) (Z.to_nat batch_size) arr))
    as [_ Hnth].
  rewrite <- Hnth by trivial.
  now rewrite chunks_concat.
Qed.

Lemma gen_batch_index_witness :
  exists batches : list (list nat),
    Batching.gen_batch [10; 20; 30; 40; 50]%nat 2 = Ok batches
    /\ nth 4 [10; 20; 30; 40; 50]%nat O = nth 0 (nth 2 batches []) O.
Proof.
  destruct (@gen_batch_index nat O [10; 20; 30; 40; 50]%nat 2%Z)
    as [batches [Hgen Hnth]]; [lia|].
  exists batches. split; trivial. apply (Hnth 4%nat). simpl. lia.
Defined.

(** X3. [gen_batch] raises exactly when the batch size is zero, and then a
    [ValueError], whatever the sequence, the empty one included; with a
    negative batch size it raises nothing and yields no batch at all. *)
Theorem gen_batch_degenerate_sizes (A : Type) (arr : list A) :
  (forall batch_size,
      Batching.gen_batch arr batch_size = Err ValueError <-> batch_size = 0%Z)
  /\ (forall batch_size e,
         Batching.gen_batch arr batch_size = Err e -> e = ValueError)
  /\ (forall batch_size, (batch_size < 0)%Z ->
         Batching.gen_batch arr batch_size = Ok []).
Proof.
  assert (Hneg : forall bs, (bs < 0)%Z -> Batching.gen_batch arr bs = Ok []).
  { intros bs Hbs. unfold Batching.gen_batch, Batching.range.
    destruct (Z.eqb_spec bs 0) as [|_]; [lia|]. cbn [bind]. f_equal.
    destruct (Z.abs_nat (Z.of_nat (length arr) - 0)) as [|fuel]; trivial.
    cbn [Batching.range_from].
    destruct (Z.ltb_spec 0 bs) as [|_]; [lia|].
    destruct (Z.ltb_spec (Z.of_nat (length arr)) 0) as [|_]; [lia|].
    reflexivity. }
  assert (Hok : forall bs, bs <> 0%Z ->
                           exists b, Batching.gen_batch arr bs = Ok b).
  { intros bs Hbs. destruct (Z_lt_le_dec bs 0).
    - rewrite Hneg by trivial. eauto.
    - apply gen_batch_ok. lia. }
  repeat split; trivial.
  - intros Herr. destruct (Z.eq_dec batch_size 0) as [|Hne]; trivial.
    destruct (Hok _ Hne) as [b Hb]. congruence.
  - now intros ->.
  - intros bs e Herr. destruct (Z.eq_dec bs 0) as [->|Hne].
    + change (Batching.gen_batch arr 0) with (@Err (list (list A)) ValueError)
        in Herr. congruence.
    + destruct (Hok _ Hne) as [b Hb]. congruence.
Qed.

Lemma gen_batch_degenerate_sizes_witness :
  Batching.gen_batch [1; 2; 3]%nat (-5) = Ok [].
Proof.
  apply (proj2 (proj2 (@gen_batch_degenerate_sizes nat [1; 2; 3]%nat))). lia.
Defined.

Section BatchAlignment.

Context {A B : Type}.

Lemma skipn_combine (n : nat) (l : list A) (l' : list B) :
  skipn n (combine l l') = combine (skipn n l) (skipn n l').
Proof.
  revert l l'. induction n as [|n IH]; intros [|a l] [|b l']; simpl; trivial.
  now destruct (skipn n l).
Qed.

Lemma unzip_combine (l : list A) (l' : list B) :
  length l = length l' ->
  map fst (combine l l') = l /\ map snd (combine l l') = l'.
Proof.
  revert l'. induction l as [|a l IH]; intros [|b l'] Hlen;
    simpl in *; try lia; auto.
  destruct (IH l') as [-> ->]; auto.
Qed.

Lemma chunks_combine (n : nat) :
  forall fuel (X : list A) (Y : list B),
    length X = length Y ->
    combine (chunks fuel n X) (chunks fuel n Y)
    = map (fun b => (map fst b, map snd b)) (chunks fuel n (combine X Y)).
Proof.
  induction fuel as [|fuel IH]; intros X Y Hlen; trivial.
  destruct X as [|x X], Y as [|y Y]; simpl in Hlen; try lia; trivial.
  cbn [combine chunks map].
  change ((x, y) :: combine X Y) with (combine (x :: X) (y :: Y)).
  rewrite combine_firstn, skipn_combine.
  destruct (unzip_combine (firstn n (x :: X)) (firstn n (y :: Y)))
    as [-> ->].
  { rewrite !length_firstn. cbn [length]. lia. }
  f_equal. apply IH. rewrite !length_skipn. cbn [length]. lia.
Qed.

End BatchAlignment.

(** X4. When [X] and [Y] have the same length and [batch_size] is positive,
    zipping the batches of [X] with the batches of [Y], as the loops of
    [fit] do, is the same as batching the rows paired with their labels:
    every row stays with its own label. *)
Theorem zipped_batches_stay_aligned
        (A B : Type) (X : list A) (Y : list B) (batch_size : Z) :
  (0 < batch_size)%Z -> length X = length Y ->
  exists X_batches Y_batches pair_batches,
    Batching.gen_batch X batch_size = Ok X_batches
    /\ Batching.gen_batch Y batch_size = Ok Y_batches
    /\ Batching.gen_batch (combine X Y) batch_size = Ok pair_batches
    /\ Batching.zip X_batches Y_batches
       = map (fun b => (map fst b, map snd b)) pair_batches
    /\ length X_batches = length Y_batches.
Proof.
  intros Hbs Hlen. rewrite !gen_batch_chunks by trivial.
  do 3 eexists. repeat split.
  - unfold Batching.zip. rewrite length_combine, <- Hlen, Nat.min_id.
    now apply chunks_combine.
  - assert (Hn : (0 < Z.to_nat batch_size)%nat) by lia.
    rewrite !chunks_length by trivial. now rewrite Hlen.
Qed.

Lemma zipped_batches_stay_aligned_witness :
  Batching.zip [[1; 2]; [3]]%nat [[true; false]; [true]]
  = map (fun b => (map fst b, map snd b))
        [[(1, true); (2, false)]; [(3, true)]]%nat.
Proof.
  destruct (@zipped_batches_stay_aligned
              nat bool [1; 2; 3]%nat [true; false; true] 2%Z)
    as [Xb [Yb [Pb [HX [HY [HP [Hzip _]]]]]]]; [lia | reflexivity |].
  injection HX as <-. injection HY as <-. injection HP as <-. exact Hzip.
Defined.


(** ** More on the learning-rate schedule and on [list_avg] *)

Section Thresholds.

Local Open Scope R_scope.

(** A strictly decreasing function passes a level exactly once. *)
Lemma decreasing_threshold (f : R -> R) :
  (forall a b, a < b -> f b < f a) ->
  forall x g, f g <= f x <-> x <= g.
Proof.
  intros Hdec x g. split; intros H.
  - destruct (Rle_or_lt x g) as [|Hlt]; trivial.
    specialize (Hdec g x Hlt). lra.
  - destruct (Rle_lt_or_eq_dec x g H) as [Hlt| ->]; [|lra].
    specialize (Hdec x g Hlt). lra.
Qed.

Lemma exp_decay_range (max_lr min_lr steps : R) :
  0 < min_lr -> min_lr < max_lr -> 0 < steps ->
  forall g,
    let lr := max_lr * exp (- (ln (min_lr / max_lr) / - steps) * g) in
    0 < lr /\ (lr <= max_lr <-> 0 <= g) /\ (min_lr <= lr <-> g <= steps).
Proof.
  intros Hmin Hlt Hsteps g lr.
  set (f := fun g => max_lr * exp (- (ln (min_lr / max_lr) / - steps) * g)).
  assert (Hdec : forall a b, a < b -> f b < f a)
    by (intros a b; now apply exp_decay_decreasing).
  assert (H0 : f 0 = max_lr) by now apply exp_decay_start.
  assert (HT : f steps = min_lr) by now apply exp_decay_end.
  change lr with (f g). repeat split.
  - unfold f. apply Rmult_lt_0_compat; [lra | apply exp_pos].
  - intros H. apply (decreasing_threshold f Hdec 0 g). now rewrite H0.
  - intros H. rewrite <- H0. now apply (decreasing_threshold f Hdec 0 g).
  - intros H. apply (decreasing_threshold f Hdec g steps). now rewrite HT.
  - intros H. rewrite <- HT. now apply (decreasing_threshold f Hdec g steps).
Qed.

End Thresholds.

(** X5. With exponential decay, sizes [n_epoch], [len_X] and [batch_size]
    that are positive and within the range of floats, and a step within
    the range of the schedule, the rate [decrease_lr] returns is positive,
    at most [max_lr] exactly from step 0 on, and at least [min_lr] exactly
    up to step [n_epoch*len_X/batch_size]: past that step it falls below
    [min_lr]. *)
Theorem decrease_lr_range (n_epoch len_X batch_size : Z) (global_step : R) :
  FloatRange.float_sized n_epoch len_X batch_size ->
  FloatRange.within_schedule global_step n_epoch len_X batch_size ->
  let last_step := (IZR n_epoch * IZR len_X / IZR batch_size)%R in
  (exists lr,
      RNNTextClassifier.decrease_lr true global_step n_epoch len_X batch_size
      = Ok lr
      /\ (0 < lr)%R
      /\ ((lr <= 5 / 1000)%R <-> (0 <= global_step)%R)
      /\ ((1 / 1000 <= lr)%R <-> (global_step <= last_step)%R))
  /\
  (exists lr,
      Conv1DClassifier.decrease_lr true global_step n_epoch len_X batch_size
      = Ok lr
      /\ (0 < lr)%R
      /\ ((lr <= 3 / 1000)%R <-> (0 <= global_step)%R)
      /\ ((1 / 10000 <= lr)%R <-> (global_step <= last_step)%R)).
Proof.
  intros [[Hn _] [[Hl _] [Hb _]]] _ last_step.
  destruct (total_steps_pos Hn Hl Hb) as [Hpos Hneg].
  fold last_step in Hpos, Hneg.
  assert (Hprod : (- n_epoch * len_X =? 0)%Z = false) by (apply Z.eqb_neq; nia).
  assert (Hbs : (batch_size =? 0)%Z = false) by (apply Z.eqb_neq; lia).
  split.
  - unfold RNNTextClassifier.decrease_lr. rewrite Hbs, Hprod, Hneg.
    eexists. split; [reflexivity|].
    apply (@exp_decay_range (5 / 1000) (1 / 1000) last_step); lra.
  - unfold Conv1DClassifier.decrease_lr. rewrite Hbs, Hprod, Hneg.
    eexists. split; [reflexivity|].
    apply (@exp_decay_range (3 / 1000) (1 / 10000) last_step); lra.
Qed.

Lemma decrease_lr_range_witness :
  exists lr,
    RNNTextClassifier.decrease_lr true 19 10 3 2 = Ok lr
    /\ ~ (1 / 1000 <= lr)%R.
Proof.
  destruct (@decrease_lr_range 10 3 2 19%R) as [[lr [Hlr [_ [_ Hmin]]]] _].
  - unfold FloatRange.float_sized. simpl. lia.
  - unfold FloatRange.within_schedule. rewrite Rabs_pos_eq by lra. lra.
  - exists lr. split; trivial. intros H. apply Hmin in H. lra.
Defined.

(** X6. For sizes [n_epoch], [len_X] and [batch_size] from 0 up to the
    range of floats and, when none of them is zero, a step within the
    range of the schedule: [decrease_lr] raises only [ZeroDivisionError],
    and exactly when decay is enabled and [batch_size], [n_epoch] or
    [len_X] is zero; with decay disabled it returns 0.001. *)
Theorem decrease_lr_errors
        (global_step : R) (n_epoch len_X batch_size : Z) :
  (0 <= n_epoch <= 2 ^ 62)%Z -> (0 <= len_X <= 2 ^ 62)%Z ->
  (0 <= batch_size <= 2 ^ 62)%Z ->
  (FloatRange.float_sized n_epoch len_X batch_size ->
   FloatRange.within_schedule global_step n_epoch len_X batch_size) ->
  (RNNTextClassifier.decrease_lr false global_step n_epoch len_X batch_size
   = Ok (1 / 1000)%R
   /\ (RNNTextClassifier.decrease_lr true global_step n_epoch len_X batch_size
       = Err ZeroDivisionError
       <-> batch_size = 0%Z \/ n_epoch = 0%Z \/ len_X = 0%Z)
   /\ forall dec e,
        RNNTextClassifier.decrease_lr dec global_step n_epoch len_X batch_size
        = Err e -> e = ZeroDivisionError)
  /\
  (Conv1DClassifier.decrease_lr false global_step n_epoch len_X batch_size
   = Ok (1 / 1000)%R
   /\ (Conv1DClassifier.decrease_lr true global_step n_epoch len_X batch_size
       = Err ZeroDivisionError
       <-> batch_size = 0%Z \/ n_epoch = 0%Z \/ len_X = 0%Z)
   /\ forall dec e,
        Conv1DClassifier.decrease_lr dec global_step n_epoch len_X batch_size
        = Err e -> e = ZeroDivisionError).
Proof.
  intros _ _ _ _.
  split; (split; [reflexivity|]);
    unfold RNNTextClassifier.decrease_lr, Conv1DClassifier.decrease_lr;
    (split; [|intros [|] e]);
    destruct (Z.eqb_spec batch_size 0) as [Hb|Hb];
    destruct (Z.eqb_spec (- n_epoch * len_X) 0) as [Hp|Hp];
    try (split; [auto; discriminate | intros; trivial; nia]);
    try (intros [= <-]; reflexivity); try discriminate.
  all: split; [intros; right; nia | reflexivity].
Qed.

(** X26. With exponential decay, sizes that are positive and within the
    range of floats, and steps within the range of the schedule, each
    class's [decrease_lr] returns a rate that is strictly decreasing in
    [global_step], equal to [max_lr] at step 0 and to [min_lr] at step
    [n_epoch*len_X/batch_size]: 0.005 down to 0.001 in
    [RNNTextClassifier], 0.003 down to 0.0001 in [Conv1DClassifier]. *)
Theorem decrease_lr_schedule (n_epoch len_X batch_size : Z) :
  FloatRange.float_sized n_epoch len_X batch_size ->
  let last_step := (IZR n_epoch * IZR len_X / IZR batch_size)%R in
  let in_range g :=
    FloatRange.within_schedule g n_epoch len_X batch_size in
  (exists lr : R -> R,
      (forall g, in_range g ->
                 RNNTextClassifier.decrease_lr true g n_epoch len_X batch_size
                 = Ok (lr g))
      /\ (forall g1 g2, in_range g1 -> in_range g2 ->
                        (g1 < g2)%R -> (lr g2 < lr g1)%R)
      /\ lr 0%R = (5 / 1000)%R
      /\ lr last_step = (1 / 1000)%R)
  /\
  (exists lr : R -> R,
      (forall g, in_range g ->
                 Conv1DClassifier.decrease_lr true g n_epoch len_X batch_size
                 = Ok (lr g))
      /\ (forall g1 g2, in_range g1 -> in_range g2 ->
                        (g1 < g2)%R -> (lr g2 < lr g1)%R)
      /\ lr 0%R = (3 / 1000)%R
      /\ lr last_step = (1 / 10000)%R)
  /\ in_range 0%R /\ in_range last_step.
Proof.
  intros [[Hn _] [[Hl _] [Hb _]]] last_step in_range.
  destruct (total_steps_pos Hn Hl Hb) as [Hpos Hneg]. fold last_step in Hpos, Hneg.
  assert (Hprod : (- n_epoch * len_X =? 0)%Z = false) by (apply Z.eqb_neq; nia).
  assert (Hbs : (batch_size =? 0)%Z = false) by (apply Z.eqb_neq; lia).
  split; [|split].
  - exists (fun g => (5 / 1000 * exp (- (ln (1 / 1000 / (5 / 1000)) / - last_step) * g))%R).
    repeat split.
    + intros g _. unfold RNNTextClassifier.decrease_lr.
      now rewrite Hbs, Hprod, Hneg.
    + intros g1 g2 _ _. apply exp_decay_decreasing; lra.
    + apply exp_decay_start.
    + apply exp_decay_end; lra.
  - exists (fun g => (3 / 1000 * exp (- (ln (1 / 10000 / (3 / 1000)) / - last_step) * g))%R).
    repeat split.
    + intros g _. unfold Conv1DClassifier.decrease_lr.
      now rewrite Hbs, Hprod, Hneg.
    + intros g1 g2 _ _. apply exp_decay_decreasing; lra.
    + apply exp_decay_start.
    + apply exp_decay_end; lra.
  - unfold in_range, FloatRange.within_schedule. fold last_step. split.
    + rewrite Rabs_R0. lra.
    + rewrite Rabs_pos_eq by lra. lra.
Qed.

Lemma decrease_lr_schedule_witness :
  let last_step := (IZR 10 * IZR 1000 / IZR 100)%R in
  exists lr : R -> R,
    (forall g, FloatRange.within_schedule g 10 1000 100 ->
               Conv1DClassifier.decrease_lr true g 10 1000 100 = Ok (lr g))
    /\ lr 0%R = (3 / 1000)%R
    /\ lr last_step = (1 / 10000)%R.
Proof.
  intros last_step.
  destruct (@decrease_lr_schedule 10 1000 100)
    as [_ [[lr [Hlr [_ [Hstart Hend]]]] _]].
  - unfold FloatRange.float_sized. simpl. lia.
  - exists lr. repeat split; assumption.
Defined.

Section MeanBounds.

Local Open Scope R_scope.

Lemma sum_bounds (a b : R) (l : list R) :
  Forall (fun x => a <= x <= b) l ->
  forall acc,
    acc + INR (length l) * a <= fold_left Rplus l acc
    <= acc + INR (length l) * b.
Proof.
  induction 1 as [|x l Hx Hl IH]; intros acc.
  - simpl. lra.
  - cbn [fold_left]. specialize (IH (acc + x)).
    change (length (x :: l)) with (S (length l)). rewrite S_INR. lra.
Qed.

Lemma mean_between (a b : R) (l : list R) :
  l <> [] -> Forall (fun x => a <= x <= b) l -> a <= Py.mean l <= b.
Proof.
  intros Hne Hall. unfold Py.mean, Py.sum, Py.len.
  pose proof (sum_bounds Hall 0) as Hsum.
  assert (Hn : 0 < INR (length l)).
  { apply lt_0_INR. destruct l; [congruence | simpl; lia]. }
  split.
  - apply Rmult_le_reg_r with (INR (length l)); trivial.
    unfold Rdiv. rewrite Rmult_assoc, Rinv_l by lra. lra.
  - apply Rmult_le_reg_r with (INR (length l)); trivial.
    unfold Rdiv. rewrite Rmult_assoc, Rinv_l by lra. lra.
Qed.

End MeanBounds.

(** X7. [list_avg] of an empty list raises [ZeroDivisionError]; of a
    nonempty list whose elements all lie between two bounds it returns a
    value between the same bounds, in both classes. *)
Theorem list_avg_between (a b : R) (l : list R) :
  (l = [] ->
   RNNTextClassifier.list_avg l = Err ZeroDivisionError
   /\ Conv1DClassifier.list_avg l = Err ZeroDivisionError)
  /\ (l <> [] -> Forall (fun x => (a <= x <= b)%R) l ->
      exists m,
        RNNTextClassifier.list_avg l = Ok m
        /\ Conv1DClassifier.list_avg l = Ok m
        /\ (a <= m <= b)%R).
Proof.
  split.
  - intros ->. split; reflexivity.
  - intros Hne Hall. exists (Py.mean l).
    pose proof (mean_between Hne Hall) as Hmean.
    destruct l as [|x l']; [congruence|].
    split; [reflexivity|]. split; [reflexivity | exact Hmean].
Qed.

Lemma list_avg_between_witness :
  exists m,
    RNNTextClassifier.list_avg [1 / 2; 1; 0]%R = Ok m /\ (0 <= m <= 1)%R.
Proof.
  destruct (proj2 (@list_avg_between 0 1 [1 / 2; 1; 0]%R))
    as [m [Hm [_ Hbounds]]].
  - discriminate.
  - repeat constructor; lra.
  - exists m. split; assumption.
Defined.

Lemma decrease_lr_errors_witness :
  RNNTextClassifier.decrease_lr true 0 10 0 2 = Err ZeroDivisionError.
Proof.
  apply (fun H1 H2 H3 H4 =>
           proj2 (proj1 (proj2 (proj1 (@decrease_lr_errors 0 10 0 2
                                                           H1 H2 H3 H4))))).
  - simpl. lia.
  - simpl. lia.
  - simpl. lia.
  - intros [_ [H _]]. lia.
  - right. right. reflexivity.
Defined.


(** ** More on the attention stage *)

Section TanhBounds.

Local Open Scope R_scope.

Lemma tanh_bounds (x : R) : -1 < tanh x < 1.
Proof.
  unfold tanh, sinh, cosh.
  pose proof (exp_pos x). pose proof (exp_pos (- x)).
  assert (Hc : 0 < (exp x + exp (- x)) / 2) by lra.
  split.
  - apply Rmult_lt_reg_r with ((exp x + exp (- x)) / 2); trivial.
    unfold Rdiv at 2. rewrite Rmult_assoc, Rinv_l by lra. lra.
  - apply Rmult_lt_reg_r with ((exp x + exp (- x)) / 2); trivial.
    unfold Rdiv at 1. rewrite Rmult_assoc, Rinv_l by lra. lra.
Qed.

Lemma reduce_sum_bounds (a b : R) (v : TF.vector) :
  Forall (fun x => a <= x <= b) v ->
  INR (length v) * a <= TF.reduce_sum v <= INR (length v) * b.
Proof.
  induction 1 as [|x v Hx Hv IH].
  - simpl. lra.
  - change (length (x :: v)) with (S (length v)). rewrite S_INR.
    simpl. lra.
Qed.

(** A softmax over scores between -1 and 1 gives every position at least
    [exp(-2)/n] and at most [exp(2)/n]. *)
Lemma softmax_row_bounds (v : TF.vector) :
  v <> [] -> Forall (fun s => -1 <= s <= 1) v ->
  Forall (fun w => exp (-2) / INR (length v) <= w <= exp 2 / INR (length v))
         (map (fun e => e / TF.reduce_sum (map exp v)) (map exp v)).
Proof.
  intros Hne Hv.
  assert (Hn : 0 < INR (length v)).
  { apply lt_0_INR. destruct v; [congruence | simpl; lia]. }
  assert (Hexp : Forall (fun e => exp (-1) <= e <= exp 1) (map exp v)).
  { rewrite Forall_map. revert Hv. apply Forall_impl. intros s [Hlo Hhi].
    split.
    - destruct (Rle_lt_or_eq_dec _ _ Hlo) as [Hlt | <-]; [|lra].
      apply Rlt_le. now apply exp_increasing.
    - destruct (Rle_lt_or_eq_dec _ _ Hhi) as [Hlt | ->]; [|lra].
      apply Rlt_le. now apply exp_increasing. }
  pose proof (reduce_sum_bounds Hexp) as Hsum.
  rewrite length_map in Hsum.
  pose proof (reduce_sum_exp_pos Hne) as Hpos.
  pose proof (exp_pos (-1)) as Hm. pose proof (exp_pos 1) as Hp.
  assert (E2 : exp 2 = exp 1 * / exp (-1)).
  { rewrite <- exp_Ropp, <- exp_plus. f_equal. lra. }
  assert (Em2 : exp (-2) = exp (-1) * / exp 1).
  { rewrite <- exp_Ropp, <- exp_plus. f_equal. lra. }
  apply Forall_forall. intros w Hin. apply in_map_iff in Hin.
  destruct Hin as [e [<- Hin]].
  pose proof (proj1 (Forall_forall _ _) Hexp e Hin) as [Hlo Hhi].
  cbv beta in Hlo, Hhi. split.
  - (* exp(-2)/n <= e/S because e >= exp(-1) and S <= n exp(1) *)
    apply Rmult_le_reg_r with (TF.reduce_sum (map exp v)); trivial.
    unfold Rdiv. rewrite (Rmult_assoc e), Rinv_l by lra.
    apply Rle_trans with (exp (-2) * / INR (length v)
                          * (INR (length v) * exp 1)).
    + apply Rmult_le_compat_l; [|lra].
      apply Rlt_le, Rmult_lt_0_compat; [apply exp_pos|].
      now apply Rinv_0_lt_compat.
    + rewrite Em2. field_simplify; lra.
  - apply Rmult_le_reg_r with (TF.reduce_sum (map exp v)); trivial.
    unfold Rdiv. rewrite (Rmult_assoc e), Rinv_l by lra.
    apply Rle_trans with (exp 2 * / INR (length v)
                          * (INR (length v) * exp (-1))).
    + rewrite E2. field_simplify; lra.
    + apply Rmult_le_compat_l; [|lra].
      apply Rlt_le, Rmult_lt_0_compat; [apply exp_pos|].
      now apply Rinv_0_lt_compat.
Qed.

End TanhBounds.

Section AttentionBounds.

Local Open Scope R_scope.
Import TF.

Lemma attention_weights_closed_form (seq_len : nat) (outputs : tensor3)
      (final_h : matrix) :
  (0 < seq_len)%nat ->
  Forall (fun o => length o = seq_len) outputs ->
  RNNTextClassifier.Forward.attention_weights seq_len outputs final_h
  = map (fun v => map (fun e => e / reduce_sum (map exp v)) (map exp v))
        (map RNNTextClassifier.Forward.scores (combine outputs final_h)).
Proof.
  intros Hpos Hshape. unfold RNNTextClassifier.Forward.attention_weights.
  now rewrite reshape_scores, softmax_rows.
Qed.

Lemma dot_convex_bounds (lo hi : R) :
  forall (u w : vector),
    length u = length w ->
    Forall (fun x => lo <= x <= hi) u ->
    Forall (fun x => 0 <= x) w ->
    lo * reduce_sum w <= dot u w <= hi * reduce_sum w.
Proof.
  induction u as [|x u IH]; intros [|y w] Hlen Hu Hw;
    simpl in Hlen; try lia.
  - unfold dot. simpl. lra.
  - inversion Hu as [|? ? [Hxl Hxh] Hu']; subst.
    inversion Hw as [|? ? Hy Hw']; subst.
    rewrite dot_cons. cbn [reduce_sum fold_right].
    destruct (IH w) as [Hl Hh]; trivial; [lia|].
    fold (reduce_sum w). split; nra.
Qed.

Lemma column_bounds (lo hi : R) (cell c : nat) (o : matrix) :
  (c < cell)%nat ->
  Forall (fun r => length r = cell /\ Forall (fun x => lo <= x <= hi) r) o ->
  Forall (fun x => lo <= x <= hi) (column c o).
Proof.
  intros Hc Ho. unfold column. rewrite Forall_map.
  revert Ho. apply Forall_impl. intros r [Hlen Hr].
  apply (proj1 (Forall_forall _ _) Hr). apply nth_In. lia.
Qed.

End AttentionBounds.

(** X8. Because the attention scores pass through [tanh], no sequence
    position is ever ignored or given all the weight: for [seq_len >= 1]
    every attention weight lies between [exp(-2)/seq_len] and
    [exp(2)/seq_len]. *)
Theorem attention_weights_bounded
        (seq_len : nat) (outputs : TF.tensor3) (final_h : TF.matrix) :
  (0 < seq_len)%nat ->
  Forall (fun o => length o = seq_len) outputs ->
  Forall (Forall (fun w => (exp (-2) / INR seq_len <= w
                            <= exp 2 / INR seq_len)%R))
         (RNNTextClassifier.Forward.attention_weights seq_len outputs final_h).
Proof.
  intros Hpos Hshape. rewrite attention_weights_closed_form by trivial.
  rewrite map_map. apply Forall_forall. intros ws Hin.
  apply in_map_iff in Hin. destruct Hin as [[o h] [<- Hin]].
  apply in_combine_l in Hin.
  pose proof (proj1 (Forall_forall _ _) Hshape o Hin) as Ho. cbv beta in Ho.
  assert (Hlen : length (RNNTextClassifier.Forward.scores (o, h)) = seq_len)
    by (unfold RNNTextClassifier.Forward.scores; now rewrite length_map).
  rewrite <- Hlen. apply softmax_row_bounds.
  - destruct (RNNTextClassifier.Forward.scores (o, h)); [simpl in Hlen; lia|].
    discriminate.
  - unfold RNNTextClassifier.Forward.scores. rewrite Forall_map.
    apply Forall_forall. intros row _. cbn [fst snd].
    pose proof (tanh_bounds (TF.dot row h)). lra.
Qed.

Lemma attention_weights_bounded_witness :
  Forall (Forall (fun w => (exp (-2) / INR 2 <= w <= exp 2 / INR 2)%R))
         (RNNTextClassifier.Forward.attention_weights
            2 [[[1; 0]; [2; 1]]]%R [[1; 1]]%R).
Proof.
  apply (@attention_weights_bounded 2 [[[1; 0]; [2; 1]]]%R [[1; 1]]%R).
  - lia.
  - repeat constructor.
Defined.

(** X9. The attention stage returns one vector of [cell_size] entries per
    example, and pooling cannot leave the range of what it pools: if every
    RNN output value lies between two bounds, so does every entry of the
    pooled vectors. *)
Theorem attention_output_bounded
        (seq_len cell_size : nat) (outputs : TF.tensor3) (final_h : TF.matrix)
        (lo hi : R) :
  (0 < seq_len)%nat ->
  length final_h = length outputs ->
  Forall (fun o => length o = seq_len
                   /\ Forall (fun r => length r = cell_size
                                       /\ Forall (fun x => (lo <= x <= hi)%R) r)
                             o) outputs ->
  let pooled :=
    RNNTextClassifier.Forward.add_attention seq_len cell_size outputs final_h in
  length pooled = length outputs
  /\ Forall (fun v => length v = cell_size
                      /\ Forall (fun x => (lo <= x <= hi)%R) v) pooled.
Proof.
  intros Hpos Hbatch Hall pooled.
  assert (Hshape : Forall (fun o => length o = seq_len) outputs)
    by (revert Hall; apply Forall_impl; now intros o [? _]).
  assert (Hw : RNNTextClassifier.Forward.attention_weights
                 seq_len outputs final_h
               = map (fun v => map (fun e => (e / TF.reduce_sum (map exp v))%R)
                                   (map exp v))
                     (map RNNTextClassifier.Forward.scores
                          (combine outputs final_h)))
    by now apply attention_weights_closed_form.
  unfold pooled, RNNTextClassifier.Forward.add_attention.
  rewrite attention_pooling_rows, Hw. split.
  - rewrite !length_map, !length_combine, !length_map, length_combine. lia.
  - rewrite map_map, combine_map_r, !Forall_map.
    apply Forall_forall. intros [o [o' h]] Hin. cbn [fst snd].
    pose proof (in_combine_l _ _ _ _ Hin) as Ho.
    pose proof (in_combine_r _ _ _ _ Hin) as Hoh.
    pose proof (in_combine_l _ _ _ _ Hoh) as Ho'.
    destruct (proj1 (Forall_forall _ _) Hall o Ho) as [Hlen Hrows].
    destruct (proj1 (Forall_forall _ _) Hall o' Ho') as [Hlen' _].
    split; [now rewrite length_map, length_seq|].
    rewrite Forall_map. apply Forall_forall. intros c Hc.
    apply in_seq in Hc.
    assert (Hne : RNNTextClassifier.Forward.scores (o', h) <> []).
    { unfold RNNTextClassifier.Forward.scores. cbn [fst].
      destruct o'; [simpl in Hlen'; lia | discriminate]. }
    destruct (softmax_row_convex Hne) as [Hwl [Hnonneg Hsum]].
    destruct (@dot_convex_bounds lo hi (TF.column c o)
                (map (fun e => (e / TF.reduce_sum
                                      (map exp (RNNTextClassifier.Forward.scores
                                                  (o', h))))%R)
                     (map exp (RNNTextClassifier.Forward.scores (o', h)))))
      as [Hl Hh]; trivial.
    + rewrite Hwl. unfold TF.column, RNNTextClassifier.Forward.scores.
      rewrite !length_map. cbn [fst].
      transitivity seq_len; [exact Hlen | symmetry; exact Hlen'].
    + apply column_bounds with cell_size; [lia | exact Hrows].
    + rewrite Hsum in Hl, Hh. lra.
Qed.

Lemma attention_output_bounded_witness :
  Forall (fun v => length v = 2%nat /\ Forall (fun x => (0 <= x <= 2)%R) v)
         (RNNTextClassifier.Forward.add_attention
            2 2 [[[1; 0]; [2; 1]]]%R [[1; 1]]%R).
Proof.
  apply (@attention_output_bounded 2 2 [[[1; 0]; [2; 1]]]%R [[1; 1]]%R 0 2).
  - lia.
  - reflexivity.
  - repeat constructor; lra.
Defined.

Section SoftmaxFacts.

Local Open Scope R_scope.
Import TF.

Lemma exp_le_iff (x y : R) : exp x <= exp y <-> x <= y.
Proof.
  split; intros H.
  - destruct (Rle_or_lt x y) as [|Hlt]; trivial.
    apply exp_increasing in Hlt. lra.
  - destruct (Rle_lt_or_eq_dec _ _ H) as [Hlt | ->]; [|lra].
    apply exp_increasing in Hlt. lra.
Qed.

Lemma softmax_row_nth (row : vector) (j : nat) :
  (j < length row)%nat ->
  nth j (map (fun e => e / reduce_sum (map exp row)) (map exp row)) 0
  = exp (nth j row 0) / reduce_sum (map exp row).
Proof.
  intros Hj. rewrite map_map.
  rewrite (nth_indep _ 0 (exp 0 / reduce_sum (map exp row)))
    by now rewrite length_map.
  apply (map_nth (fun x => exp x / reduce_sum (map exp row))).
Qed.

Lemma reduce_sum_exp_shift (c : R) (row : vector) :
  reduce_sum (map exp (map (fun x => x + c) row))
  = exp c * reduce_sum (map exp row).
Proof.
  induction row as [|x row IH]; simpl; [lra|].
  fold (reduce_sum (map exp (map (fun x => x + c) row))).
  fold (reduce_sum (map exp row)).
  rewrite IH, exp_plus. lra.
Qed.

End SoftmaxFacts.

(** X10. On scores whose exponentials are ordinary float32 numbers, the
    custom [softmax] keeps the shape of its input, gives every position a
    positive weight, and within a row orders the weights exactly as the
    scores are ordered: the largest weight sits where the largest score
    sits. *)
Theorem softmax_keeps_shape_and_order (tensor : TF.matrix) :
  FloatRange.float32_scores tensor ->
  Forall2 (fun row weights =>
             length weights = length row
             /\ Forall (fun w => (0 < w)%R) weights
             /\ forall j k, (j < length row)%nat -> (k < length row)%nat ->
                  ((nth j row 0 <= nth k row 0)%R
                   <-> (nth j weights 0 <= nth k weights 0)%R))
          tensor (RNNTextClassifier.Forward.softmax tensor).
Proof.
  intros _.
  rewrite softmax_rows. induction tensor as [|row m IH]; cbn [map];
    constructor; trivial.
  split; [now rewrite !length_map|]. split.
  - rewrite map_map. apply Forall_forall. intros w Hin.
    apply in_map_iff in Hin. destruct Hin as [x [<- Hin]].
    apply Rdiv_lt_0_compat; [apply exp_pos|].
    apply reduce_sum_exp_pos. intros ->. inversion Hin.
  - intros j k Hj Hk. rewrite !softmax_row_nth by trivial.
    assert (Hpos : (0 < TF.reduce_sum (map exp row))%R).
    { apply reduce_sum_exp_pos. intros ->. simpl in Hj. lia. }
    rewrite <- exp_le_iff. split; intros H.
    + apply Rmult_le_compat_r; trivial.
      apply Rlt_le. now apply Rinv_0_lt_compat.
    + apply Rmult_le_reg_r with (/ TF.reduce_sum (map exp row))%R; trivial.
      now apply Rinv_0_lt_compat.
Qed.

(** X11. The custom [softmax] does not change when the same constant is
    added to every score, as long as the exponentials of the scores and of
    the shifted scores are ordinary float32 numbers. *)
Theorem softmax_shift_invariant (c : R) (tensor : TF.matrix) :
  FloatRange.float32_scores tensor ->
  FloatRange.float32_scores (map (map (fun x => (x + c)%R)) tensor) ->
  RNNTextClassifier.Forward.softmax (map (map (fun x => (x + c)%R)) tensor)
  = RNNTextClassifier.Forward.softmax tensor.
Proof.
  intros _ _.
  rewrite !softmax_rows, map_map. apply map_ext. intros row.
  destruct row as [|x0 row']; trivial.
  set (row := x0 :: row').
  assert (Hpos : (0 < TF.reduce_sum (map exp row))%R)
    by (apply reduce_sum_exp_pos; discriminate).
  rewrite reduce_sum_exp_shift, !map_map.
  apply map_ext. intros x. rewrite exp_plus.
  pose proof (exp_pos c). field. lra.
Qed.

Lemma softmax_keeps_shape_and_order_witness :
  Forall2 (fun row weights => length weights = length row)
          [[1; 0]; [2; 1]]%R
          (RNNTextClassifier.Forward.softmax [[1; 0]; [2; 1]]%R).
Proof.
  assert (H : FloatRange.float32_scores [[1; 0]; [2; 1]]%R).
  { repeat (constructor; try (simpl; lia); try (apply Rabs_le; lra)). }
  apply (Forall2_impl
           (P := fun row weights =>
                   length weights = length row
                   /\ Forall (fun w => (0 < w)%R) weights
                   /\ forall j k, (j < length row)%nat -> (k < length row)%nat ->
                        ((nth j row 0 <= nth k row 0)%R
                         <-> (nth j weights 0 <= nth k weights 0)%R))).
  - intros row weights [Hlen _]. exact Hlen.
  - exact (softmax_keeps_shape_and_order H).
Defined.

Lemma softmax_shift_invariant_witness :
  RNNTextClassifier.Forward.softmax
    (map (map (fun x => (x + 3)%R)) [[1; 0]; [2; 1]]%R)
  = RNNTextClassifier.Forward.softmax [[1; 0]; [2; 1]]%R.
Proof.
  apply (@softmax_shift_invariant 3 [[1; 0]; [2; 1]]%R).
  - repeat (constructor; try (simpl; lia); try (apply Rabs_le; lra)).
  - simpl. repeat (constructor; try (simpl; lia); try (apply Rabs_le; lra)).
Defined.


(** ** More on the convolution and pooling stages *)

Section ConvValues.

Local Open Scope R_scope.
Import TF.

Lemma conv1d_shape (k cin cout : nat) (pad : string) (x : matrix)
      (filters : tensor3) (width : Z) :
  (1 <= k)%nat ->
  ((pad = "VALID" /\ width = Z.of_nat (length x) - Z.of_nat k + 1)
   \/ (pad = "SAME" /\ width = Z.of_nat (length x)))%string%Z ->
  (1 <= width)%Z ->
  exists conv, conv1d k cin cout 1 pad x filters = Ok conv
               /\ Z.of_nat (length conv) = width
               /\ Forall (fun pos => length pos = cout) conv.
Proof.
  intros Hk Hpad Hw. unfold conv1d, out_width.
  destruct (Nat.eqb_spec k 0) as [|_]; [lia|].
  destruct (Z.leb_spec (Z.of_nat k) 0) as [|_]; [lia|]. simpl orb.
  destruct Hpad as [[-> ->] | [-> ->]];
    [change (negb (valid_padding_name "VALID")) with false
    |change (negb (valid_padding_name "SAME")) with false];
    cbv iota; simpl String.eqb.
  - destruct (Z.leb_spec (Z.of_nat k) (Z.of_nat (length x))) as [_|]; [|lia].
    simpl bind. eexists. split; [reflexivity|]. split.
    + rewrite length_map, length_seq, Z.div_1_r. lia.
    + rewrite Forall_map. apply Forall_forall. intros t _.
      now rewrite length_map, length_seq.
  - simpl bind. eexists. split; [reflexivity|]. split.
    + rewrite length_map, length_seq, Z.div_1_r. lia.
    + rewrite Forall_map. apply Forall_forall. intros t _.
      now rewrite length_map, length_seq.
Qed.

Lemma relu_bias_position (b : vector) (x : matrix) (cout : nat) :
  length b = cout ->
  Forall (fun pos => length pos = cout) x ->
  Forall (fun pos => length pos = cout /\ Forall (fun v => 0 <= v) pos)
         (relu (bias_add x b)).
Proof.
  intros Hb Hx. unfold relu, bias_add. rewrite !Forall_map.
  revert Hx. apply Forall_impl. intros pos Hpos. split.
  - rewrite !length_map, length_combine. lia.
  - rewrite Forall_map. apply Forall_forall. intros v _. apply Rmax_r.
Qed.

Lemma conv1d_raises (k cin cout : nat) (pad : string) (x : matrix)
      (filters : tensor3) :
  Graph.valid_padding pad = false
  \/ (pad = "VALID"%string /\ (1 <= k)%nat /\ (length x < k)%nat) ->
  conv1d k cin cout 1 pad x filters = Err ValueError.
Proof.
  unfold conv1d, out_width, Graph.valid_padding, valid_padding_name.
  intros [Hpad | [-> [Hk Hshort]]].
  - now rewrite Hpad.
  - simpl negb. cbv iota.
    destruct (Nat.eqb_spec k 0) as [|_]; [lia|].
    destruct (Z.leb_spec (Z.of_nat k) 0) as [|_]; [lia|]. simpl orb.
    simpl String.eqb. cbv iota.
    destruct (Z.leb_spec (Z.of_nat k) (Z.of_nat (length x))); [lia|].
    reflexivity.
Qed.

Lemma global_maxpool_value (self : Conv1DClassifier.config) (k : Z)
      (conv : tensor3) :
  Conv1DClassifier.current_seq_len self = Some k ->
  (1 <= k)%Z ->
  Forall (fun x => Z.of_nat (length x) = k) conv ->
  Conv1DClassifier.Forward.global_maxpool self conv
  = Ok (map (fun x =>
               [[map (fun c => maximum (column c x))
                     (seq 0 (Z.to_nat (Conv1DClassifier.n_filters self)))]])
            conv).
Proof.
  intros Hk Hpos Hshape.
  pose proof (current_seq_len_cases self Hk) as Hcases.
  assert (Hpad : Conv1DClassifier.padding self = "VALID"%string
                 \/ Conv1DClassifier.padding self = "SAME"%string)
    by (destruct Hcases as [[? _]|[? _]]; auto).
  unfold Conv1DClassifier.Forward.global_maxpool. rewrite Hk.
  rewrite (mapM_ok_map _
             (map (fun x =>
                     [map (fun c => maximum (column c x))
                          (seq 0 (Z.to_nat (Conv1DClassifier.n_filters self)))]))).
  - now rewrite !map_map.
  - intros a Hin. apply in_map_iff in Hin. destruct Hin as [x [<- Hin]].
    cbn [mapM map]. rewrite max_pool_global; trivial.
    exact (proj1 (Forall_forall _ _) Hshape x Hin).
Qed.

End ConvValues.

Lemma add_conv1d_features (self : Conv1DClassifier.config) (k : Z)
      (embedded : TF.tensor3) (W : TF.tensor3) (b : TF.vector) :
  Conv1DClassifier.current_seq_len self = Some k ->
  (1 <= k)%Z ->
  (1 <= Conv1DClassifier.kernel_size self)%Z ->
  length b = Z.to_nat (Conv1DClassifier.n_filters self) ->
  Forall (fun x => Z.of_nat (length x) = Conv1DClassifier.seq_len self)
         embedded ->
  exists features,
    Conv1DClassifier.Forward.add_conv1d self embedded W b = Ok features
    /\ length features = length embedded
    /\ Forall (fun x =>
                 Z.of_nat (length x) = k
                 /\ Forall (fun pos =>
                              length pos
                              = Z.to_nat (Conv1DClassifier.n_filters self)
                              /\ Forall (fun v => (0 <= v)%R) pos) x)
              features.
Proof.
  intros Hk Hpos Hks Hb Hemb.
  pose proof (current_seq_len_cases self Hk) as Hcases.
  unfold Conv1DClassifier.Forward.add_conv1d.
  destruct (@mapM_ok_exists _ _
              (fun x => TF.conv1d (Z.to_nat (Conv1DClassifier.kernel_size self))
                                  (Z.to_nat (Conv1DClassifier.embedding_dims self))
                                  (Z.to_nat (Conv1DClassifier.n_filters self))
                                  1 (Conv1DClassifier.padding self) x W)
              (fun c => Z.of_nat (length c) = k
                        /\ Forall (fun pos =>
                                     length pos
                                     = Z.to_nat (Conv1DClassifier.n_filters self))
                                  c)
              embedded)
    as [cs [Hcs [Hlen Hall]]].
  { intros x Hin.
    pose proof (proj1 (Forall_forall _ _) Hemb x Hin) as Hx. cbv beta in Hx.
    apply conv1d_shape; try lia.
    destruct Hcases as [[Hp ->]|[Hp ->]]; [left|right]; split; trivial; lia. }
  rewrite Hcs. cbn [bind]. eexists. split; [reflexivity|]. split.
  - now rewrite !length_map.
  - rewrite map_map, Forall_map. revert Hall. apply Forall_impl.
    intros c [Hc Hrows]. split.
    + unfold TF.relu, TF.bias_add. now rewrite !length_map.
    + now apply relu_bias_position.
Qed.

(** X12. For a configuration whose window [current_seq_len] is at least 1
    and a bias of [n_filters] entries, [add_conv1d] returns, for every
    example of [seq_len] embedded tokens, [current_seq_len] positions of
    [n_filters] channels each, and no value below zero. On a nonempty batch
    it raises [ValueError] when the padding is neither ['VALID'] nor
    ['SAME'], and when the padding is ['VALID'] and the first example is
    shorter than a kernel of size 1 or more. *)
Theorem add_conv1d_shape_and_sign
        (self : Conv1DClassifier.config) (embedded : TF.tensor3)
        (W : TF.tensor3) (b : TF.vector) :
  (forall k,
      Conv1DClassifier.current_seq_len self = Some k ->
      (1 <= k)%Z ->
      (1 <= Conv1DClassifier.kernel_size self)%Z ->
      length b = Z.to_nat (Conv1DClassifier.n_filters self) ->
      Forall (fun x => Z.of_nat (length x) = Conv1DClassifier.seq_len self)
             embedded ->
      exists features,
        Conv1DClassifier.Forward.add_conv1d self embedded W b = Ok features
        /\ length features = length embedded
        /\ Forall (fun x =>
                     Z.of_nat (length x) = k
                     /\ Forall (fun pos =>
                                  length pos
                                  = Z.to_nat (Conv1DClassifier.n_filters self)
                                  /\ Forall (fun v => (0 <= v)%R) pos) x)
                  features)
  /\ (forall x rest,
         embedded = x :: rest ->
         Graph.valid_padding (Conv1DClassifier.padding self) = false
         \/ (Conv1DClassifier.padding self = "VALID"%string
             /\ (1 <= Conv1DClassifier.kernel_size self)%Z
             /\ (Z.of_nat (length x) < Conv1DClassifier.kernel_size self)%Z) ->
         Conv1DClassifier.Forward.add_conv1d self embedded W b
         = Err ValueError).
Proof.
  split.
  - intros k. now apply add_conv1d_features.
  - intros x rest -> Hbad. unfold Conv1DClassifier.Forward.add_conv1d.
    cbn [mapM]. rewrite conv1d_raises; trivial.
    destruct Hbad as [Hpad | [Hp [Hk Hshort]]]; auto.
    right. split; trivial. lia.
Qed.

Lemma add_conv1d_shape_and_sign_witness :
  exists features,
    Conv1DClassifier.Forward.add_conv1d
      Toy.small_conv_config [[[1]; [-2]; [3]]]%R [[[1; -1]]; [[0; 2]]]%R
      [0; 0]%R
    = Ok features
    /\ length features = 1%nat.
Proof.
  destruct (proj1 (@add_conv1d_shape_and_sign
                     Toy.small_conv_config [[[1]; [-2]; [3]]]%R
                     [[[1; -1]]; [[0; 2]]]%R [0; 0]%R) 2%Z)
    as [features [Hf [Hlen _]]].
  - reflexivity.
  - lia.
  - cbn. lia.
  - reflexivity.
  - repeat constructor.
  - exists features. split; assumption.
Defined.

(** X13. Convolution followed by the global max-pool: for a configuration
    whose window is at least 1 and a bias of [n_filters] entries, every
    example of [seq_len] embedded tokens is reduced to one vector of
    [n_filters] values, none of them negative. *)
Theorem conv_then_maxpool_nonnegative
        (self : Conv1DClassifier.config) (k : Z) (embedded : TF.tensor3)
        (W : TF.tensor3) (b : TF.vector) :
  Conv1DClassifier.current_seq_len self = Some k ->
  (1 <= k)%Z ->
  (1 <= Conv1DClassifier.kernel_size self)%Z ->
  length b = Z.to_nat (Conv1DClassifier.n_filters self) ->
  Forall (fun x => Z.of_nat (length x) = Conv1DClassifier.seq_len self)
         embedded ->
  exists features (pooled : list TF.vector),
    Conv1DClassifier.Forward.add_conv1d self embedded W b = Ok features
    /\ Conv1DClassifier.Forward.global_maxpool self features
       = Ok (map (fun v => [[v]]) pooled)
    /\ length pooled = length embedded
    /\ Forall (fun v => length v = Z.to_nat (Conv1DClassifier.n_filters self)
                        /\ Forall (fun y => (0 <= y)%R) v) pooled.
Proof.
  intros Hk Hpos Hks Hb Hemb.
  destruct (@add_conv1d_features self k embedded W b Hk Hpos Hks Hb Hemb)
    as [features [Hf [Hlen Hall]]].
  exists features,
    (map (fun x => map (fun c => TF.maximum (TF.column c x))
                       (seq 0 (Z.to_nat (Conv1DClassifier.n_filters self))))
         features).
  split; [exact Hf|]. split.
  - rewrite map_map. apply global_maxpool_value with k; trivial.
    revert Hall. apply Forall_impl. now intros x [? _].
  - split; [now rewrite length_map|].
    rewrite Forall_map. revert Hall. apply Forall_impl. intros x [Hx Hrows].
    split; [now rewrite length_map, length_seq|].
    rewrite Forall_map. apply Forall_forall. intros c Hc. apply in_seq in Hc.
    assert (Hcol : Forall (fun v => (0 <= v)%R) (TF.column c x)).
    { unfold TF.column. rewrite Forall_map. revert Hrows. apply Forall_impl.
      intros pos [Hlen' Hnn].
      apply (proj1 (Forall_forall _ _) Hnn). apply nth_In. lia. }
    destruct (@maximum_spec (TF.column c x)) as [Hin _].
    { unfold TF.column. destruct x; [simpl in Hx; lia | discriminate]. }
    exact (proj1 (Forall_forall _ _) Hcol _ Hin).
Qed.

Lemma conv_then_maxpool_nonnegative_witness :
  exists features (pooled : list TF.vector),
    Conv1DClassifier.Forward.add_conv1d
      Toy.small_conv_config [[[1]; [-2]; [3]]]%R [[[1; -1]]; [[0; 2]]]%R
      [0; 0]%R
    = Ok features
    /\ Conv1DClassifier.Forward.global_maxpool Toy.small_conv_config features
       = Ok (map (fun v => [[v]]) pooled)
    /\ Forall (Forall (fun y => (0 <= y)%R)) pooled.
Proof.
  destruct (@conv_then_maxpool_nonnegative
              Toy.small_conv_config 2%Z [[[1]; [-2]; [3]]]%R
              [[[1; -1]]; [[0; 2]]]%R [0; 0]%R)
    as [features [pooled [Hf [Hp [_ Hall]]]]].
  - reflexivity.
  - lia.
  - cbn. lia.
  - reflexivity.
  - repeat constructor.
  - exists features, pooled. repeat split; trivial.
    revert Hall. apply Forall_impl. now intros v [_ ?].
Defined.

(** X14. With a single filter the unqualified [tf.squeeze] of
    [add_global_maxpool] removes the channel axis as well: for a batch of
    any size but one the stage returns a rank-1 array holding one maximum
    per example, and for a batch of one a bare scalar, not a matrix of
    shape (batch, 1). *)
Theorem global_maxpool_single_filter
        (self : Conv1DClassifier.config) (k : Z) (conv : TF.tensor3) :
  Conv1DClassifier.current_seq_len self = Some k ->
  (1 <= k)%Z ->
  Forall (fun x => Z.of_nat (length x) = k) conv ->
  Conv1DClassifier.n_filters self = 1%Z ->
  (length conv <> 1%nat ->
   Conv1DClassifier.Forward.add_global_maxpool self conv
   = Ok (of_vector (map (fun x => TF.maximum (TF.column 0 x)) conv)))
  /\ (forall x, conv = [x] ->
        Conv1DClassifier.Forward.add_global_maxpool self conv
        = Ok (Scalar (TF.maximum (TF.column 0 x)))).
Proof.
  intros Hk Hpos Hshape Hone.
  unfold Conv1DClassifier.Forward.add_global_maxpool.
  rewrite (global_maxpool_value self Hk Hpos Hshape), Hone. cbn [bind].
  change (seq 0 (Z.to_nat 1)) with [O]. cbn [map]. split.
  - intros Hbatch. f_equal. unfold of_tensor4, of_vector.
    rewrite !map_map.
    destruct conv as [|x [|y conv']]; trivial; [simpl in Hbatch; lia|].
    cbn [map squeeze]. do 3 f_equal.
    rewrite map_map. reflexivity.
  - intros x ->. reflexivity.
Qed.

Lemma global_maxpool_single_filter_witness :
  let cfg :=
    {| Conv1DClassifier.seq_len := 3;
       Conv1DClassifier.vocab_size := 10;
       Conv1DClassifier.n_out := 2;
       Conv1DClassifier.embedding_dims := 1;
       Conv1DClassifier.n_filters := 1;
       Conv1DClassifier.kernel_size := 2;
       Conv1DClassifier.padding := "VALID";
       Conv1DClassifier.hidden_dims := 2 |} in
  Conv1DClassifier.Forward.add_global_maxpool cfg [[[1]; [3]]]%R
  = Ok (Scalar (TF.maximum (TF.column 0 [[1]; [3]]%R))).
Proof.
  intros cfg.
  apply (proj2 (@global_maxpool_single_filter cfg 2%Z [[[1]; [3]]]%R
                  eq_refl ltac:(lia) ltac:(repeat constructor) eq_refl)).
  reflexivity.
Defined.


(** ** More on the built graphs *)

Section GraphDependencies.

Import Graph Deps.
Local Open Scope string_scope.
Local Open Scope Z_scope.



Lemma conv_init_invalid_padding (cfg : Conv1DClassifier.config) :
  valid_padding (Conv1DClassifier.padding cfg) = false ->
  Conv1DClassifier.Build.init cfg = Err ValueError.
Proof.
  destruct cfg as [sl vs no ed nf ks pad hd].
  cbn [Conv1DClassifier.padding]. intros Hpad.
  cbv -[valid_padding]. now rewrite Hpad.
Qed.

Lemma conv_init_valid_window (sl vs no ed nf ks hd : Z) :
  Conv1DClassifier.Build.init
    {| Conv1DClassifier.seq_len := sl;
       Conv1DClassifier.vocab_size := vs;
       Conv1DClassifier.n_out := no;
       Conv1DClassifier.embedding_dims := ed;
       Conv1DClassifier.n_filters := nf;
       Conv1DClassifier.kernel_size := ks;
       Conv1DClassifier.padding := "VALID";
       Conv1DClassifier.hidden_dims := hd |}
  = Err ValueError
  <-> sl < ks.
Proof.
  cbv -[Z.ltb Z.sub Z.add Z.lt].
  destruct (Z.ltb_spec sl ks); split; trivial; try discriminate; lia.
Qed.

(** X17. For sizes that are all at least 1,
    [Conv1DClassifier.build_graph] raises [ValueError] at the convolution
    when the padding is neither ['VALID'] nor ['SAME'], and when it is
    ['VALID'] with a kernel longer than the sequence; it raises in no
    other case and nothing else: the [current_seq_len] that the two [if]s
    of [add_conv1d] would leave unset is never read. *)
Theorem conv_build_graph_errors (cfg : Conv1DClassifier.config) :
  Conv1DClassifier.positive_sizes cfg ->
  (valid_padding (Conv1DClassifier.padding cfg) = false ->
   Conv1DClassifier.Build.init cfg = Err ValueError)
  /\ (Conv1DClassifier.padding cfg = "VALID" ->
      Conv1DClassifier.seq_len cfg < Conv1DClassifier.kernel_size cfg ->
      Conv1DClassifier.Build.init cfg = Err ValueError)
  /\ (forall e, Conv1DClassifier.Build.init cfg = Err e ->
                e = ValueError
                /\ (valid_padding (Conv1DClassifier.padding cfg) = false
                    \/ (Conv1DClassifier.padding cfg = "VALID"
                        /\ Conv1DClassifier.seq_len cfg
                           < Conv1DClassifier.kernel_size cfg))).
Proof.
  intros _. split; [apply conv_init_invalid_padding|].
  destruct cfg as [sl vs no ed nf ks pad hd].
  cbn [Conv1DClassifier.padding Conv1DClassifier.seq_len
       Conv1DClassifier.kernel_size].
  split.
  - intros -> Hlt. now apply conv_init_valid_window.
  - intros e He.
    destruct (valid_padding pad) eqn:Hpad.
    + unfold valid_padding in Hpad. apply orb_true_iff in Hpad.
      destruct Hpad as [Hpad|Hpad]; apply String.eqb_eq in Hpad; subst pad.
      * cbv -[Z.ltb Z.sub Z.add Z.lt] in He.
        destruct (Z.ltb_spec sl ks); [|discriminate].
        injection He as <-. split; trivial. right. now split.
      * cbv -[Z.ltb Z.sub Z.add Z.lt] in He. discriminate.
    + rewrite conv_init_invalid_padding in He by exact Hpad.
      injection He as <-. auto.
Qed.

End GraphDependencies.



Lemma conv_build_graph_errors_witness :
  Conv1DClassifier.Build.init
    {| Conv1DClassifier.seq_len := 20;
       Conv1DClassifier.vocab_size := 5000;
       Conv1DClassifier.n_out := 3;
       Conv1DClassifier.embedding_dims := 50;
       Conv1DClassifier.n_filters := 250;
       Conv1DClassifier.kernel_size := 3;
       Conv1DClassifier.padding := "valid";
       Conv1DClassifier.hidden_dims := 250 |}
  = Err ValueError.
Proof.
  apply (fun H => proj1 (@conv_build_graph_errors _ H)).
  - unfold Conv1DClassifier.positive_sizes. simpl. lia.
  - reflexivity.
Defined.


(** ** More on [fit] *)

Section ConvLogFacts.

Import Conv1DClassifier.
Context `{Session}.

Lemma conv_fit_epoch_log (vd : option (list sample * list label))
      (n_epoch bs : Z) (kp : R) (dec shuf : bool) (s s' : fit_state)
      (e : Z) :
  fit_epoch vd n_epoch bs kp dec shuf s e = Ok s' ->
  exists X Y t loss acc lr,
    train_epoch n_epoch bs kp dec shuf s = Ok (X, Y, t)
    /\ ts_last t = Some (loss, acc, lr)
    /\ log_loss (fs_log s') = log_loss (fs_log s) ++ [loss]
    /\ log_acc (fs_log s') = log_acc (fs_log s) ++ [acc]
    /\ fs_X s' = X /\ fs_Y s' = Y
    /\ fs_global_step s' = ts_global_step t
    /\ match vd with
       | None =>
           log_val_loss (fs_log s') = log_val_loss (fs_log s)
           /\ log_val_acc (fs_log s') = log_val_acc (fs_log s)
       | Some _ =>
           exists vl va,
             log_val_loss (fs_log s') = log_val_loss (fs_log s) ++ [vl]
             /\ log_val_acc (fs_log s') = log_val_acc (fs_log s) ++ [va]
       end.
Proof.
  unfold fit_epoch.
  destruct (train_epoch n_epoch bs kp dec shuf s) as [[[X Y] t]|] eqn:Et;
    [|discriminate]. cbn [bind].
  destruct vd as [vd|].
  - destruct (validate (ts_world t) vd bs) as [vs|]; [|discriminate].
    cbn [bind].
    destruct (list_avg (vs_loss_list vs)) as [vl|]; [|discriminate].
    destruct (list_avg (vs_acc_list vs)) as [va|]; [|discriminate].
    cbn [bind].
    destruct (ts_last t) as [[[l a] lr]|] eqn:El; [|discriminate].
    intros [= <-]. exists X, Y, t, l, a, lr. cbn.
    repeat split; trivial. exists vl, va. split; reflexivity.
  - cbn [bind].
    destruct (ts_last t) as [[[l a] lr]|] eqn:El; [|discriminate].
    intros [= <-]. exists X, Y, t, l, a, lr. cbn.
    repeat split; trivial.
Qed.

Lemma conv_fit_log_lengths (vd : option (list sample * list label))
      (n_epoch bs : Z) (kp : R) (dec shuf : bool) (s0 : fit_state) :
  forall (n : nat) (s : fit_state),
    for_range (Z.of_nat n) (fit_epoch vd n_epoch bs kp dec shuf) s0 = Ok s ->
    length (log_loss (fs_log s)) = (length (log_loss (fs_log s0)) + n)%nat
    /\ length (log_acc (fs_log s)) = (length (log_acc (fs_log s0)) + n)%nat
    /\ match vd with
       | None =>
           log_val_loss (fs_log s) = log_val_loss (fs_log s0)
           /\ log_val_acc (fs_log s) = log_val_acc (fs_log s0)
       | Some _ =>
           length (log_val_loss (fs_log s))
           = (length (log_val_loss (fs_log s0)) + n)%nat
           /\ length (log_val_acc (fs_log s))
              = (length (log_val_acc (fs_log s0)) + n)%nat
       end.
Proof.
  induction n as [|n IH]; intros s Hrun.
  - rewrite for_range_nonpos in Hrun by reflexivity. injection Hrun as <-.
    rewrite !Nat.add_0_r. destruct vd; auto.
  - rewrite for_range_succ in Hrun.
    destruct (for_range (Z.of_nat n) _ s0) as [s_n|] eqn:En; [|discriminate].
    cbn [bind] in Hrun.
    destruct (IH s_n eq_refl) as [Hl [Ha Hv]].
    destruct (conv_fit_epoch_log _ _ _ _ _ _ _ _ Hrun)
      as [X [Y [t [l [a [lr [_ [_ [Hl' [Ha' [_ [_ [_ Hv']]]]]]]]]]]]].
    rewrite Hl', Ha', !length_app, Hl, Ha. cbn [length].
    repeat split; try lia.
    destruct vd as [vd|].
    + destruct Hv' as [vl [va [-> ->]]]. destruct Hv as [Hvl Hva].
      rewrite !length_app, Hvl, Hva. cbn [length]. split; lia.
    + destruct Hv' as [-> ->]. exact Hv.
Qed.

Lemma conv_train_batch_inv (n_epoch len_X bs : Z) (dec : bool) (kp : R)
      (t t' : train_state) (b : list sample * list label) :
  train_batch n_epoch len_X bs dec kp t b = Ok t' ->
  exists lr w' loss acc,
    decrease_lr dec (IZR (ts_global_step t)) n_epoch len_X bs = Ok lr
    /\ run_train (ts_world t)
                 {| feed_X := fst b; feed_Y := Some (snd b);
                    feed_lr := Some lr;
                    feed_keep_prob := Some kp |}
       = Ok (w', (loss, acc))
    /\ t' = {| ts_world := w';
               ts_global_step := (ts_global_step t + 1)%Z;
               ts_last := Some (loss, acc, lr) |}.
Proof.
  unfold train_batch. destruct b as [Xb Yb].
  destruct (decrease_lr _ _ _ _ _) as [lr|]; [|discriminate]. cbn [bind].
  cbn [fst snd].
  destruct (run_train _ _) as [[w [l a]]|] eqn:Erun; [|discriminate].
  cbn [bind]. intros [= <-].
  exists lr, w, l, a. repeat split; trivial.
Qed.

Lemma conv_train_loop_steps (n_epoch len_X bs : Z) (dec : bool) (kp : R)
      (batches : list (list sample * list label)) :
  forall t t',
    for_each (train_batch n_epoch len_X bs dec kp) batches t = Ok t' ->
    ts_global_step t'
    = (ts_global_step t + Z.of_nat (length batches))%Z
    /\ (batches = [] -> ts_last t' = ts_last t).
Proof.
  induction batches as [|b batches IH]; intros t t' Hrun.
  - injection Hrun as <-. cbn [length]. split; [lia | trivial].
  - cbn [for_each] in Hrun.
    destruct (train_batch n_epoch len_X bs dec kp t b) as [t1|] eqn:E1;
      [|discriminate]. cbn [bind] in Hrun.
    destruct (conv_train_batch_inv _ _ _ _ _ _ _ E1)
      as [lr [w1 [l1 [a1 [_ [_ Ht1]]]]]].
    destruct (IH _ _ Hrun) as [Hstep _]. rewrite Hstep, Ht1.
    cbn [ts_global_step length]. split; [lia | discriminate].
Qed.

End ConvLogFacts.

Section RnnLogFacts.

Import RNNTextClassifier.
Context `{Session}.
Variable self : config.

Lemma rnn_fit_epoch_log (vd : option (list sample * list label))
      (n_epoch bs : Z) (dec shuf : bool) (kp : R) (s s' : fit_state)
      (e : Z) :
  fit_epoch self vd n_epoch bs dec shuf kp s e = Ok s' ->
  exists X Y t loss acc lr,
    train_epoch self n_epoch bs dec shuf kp s = Ok (X, Y, t)
    /\ ts_last t = Some (loss, acc, lr)
    /\ log_loss (fs_log s') = log_loss (fs_log s) ++ [loss]
    /\ log_acc (fs_log s') = log_acc (fs_log s) ++ [acc]
    /\ fs_X s' = X /\ fs_Y s' = Y
    /\ fs_global_step s' = ts_global_step t
    /\ match vd with
       | None =>
           log_val_loss (fs_log s') = log_val_loss (fs_log s)
           /\ log_val_acc (fs_log s') = log_val_acc (fs_log s)
       | Some _ =>
           exists vl va,
             log_val_loss (fs_log s') = log_val_loss (fs_log s) ++ [vl]
             /\ log_val_acc (fs_log s') = log_val_acc (fs_log s) ++ [va]
       end.
Proof.
  unfold fit_epoch.
  destruct (train_epoch self n_epoch bs dec shuf kp s) as [[[X Y] t]|] eqn:Et;
    [|discriminate]. cbn [bind].
  destruct vd as [vd|].
  - destruct (validate self (ts_world t) vd bs) as [vs|]; [|discriminate].
    cbn [bind].
    destruct (list_avg (vs_loss_list vs)) as [vl|]; [|discriminate].
    destruct (list_avg (vs_acc_list vs)) as [va|]; [|discriminate].
    cbn [bind].
    destruct (ts_last t) as [[[l a] lr]|] eqn:El; [|discriminate].
    intros [= <-]. exists X, Y, t, l, a, lr. cbn.
    repeat split; trivial. exists vl, va. split; reflexivity.
  - cbn [bind].
    destruct (ts_last t) as [[[l a] lr]|] eqn:El; [|discriminate].
    intros [= <-]. exists X, Y, t, l, a, lr. cbn.
    repeat split; trivial.
Qed.

Lemma rnn_fit_log_lengths (vd : option (list sample * list label))
      (n_epoch bs : Z) (dec shuf : bool) (kp : R) (s0 : fit_state) :
  forall (n : nat) (s : fit_state),
    for_range (Z.of_nat n) (fit_epoch self vd n_epoch bs dec shuf kp) s0
    = Ok s ->
    length (log_loss (fs_log s)) = (length (log_loss (fs_log s0)) + n)%nat
    /\ length (log_acc (fs_log s)) = (length (log_acc (fs_log s0)) + n)%nat
    /\ match vd with
       | None =>
           log_val_loss (fs_log s) = log_val_loss (fs_log s0)
           /\ log_val_acc (fs_log s) = log_val_acc (fs_log s0)
       | Some _ =>
           length (log_val_loss (fs_log s))
           = (length (log_val_loss (fs_log s0)) + n)%nat
           /\ length (log_val_acc (fs_log s))
              = (length (log_val_acc (fs_log s0)) + n)%nat
       end.
Proof.
  induction n as [|n IH]; intros s Hrun.
  - rewrite for_range_nonpos in Hrun by reflexivity. injection Hrun as <-.
    rewrite !Nat.add_0_r. destruct vd; auto.
  - rewrite for_range_succ in Hrun.
    destruct (for_range (Z.of_nat n) _ s0) as [s_n|] eqn:En; [|discriminate].
    cbn [bind] in Hrun.
    destruct (IH s_n eq_refl) as [Hl [Ha Hv]].
    destruct (rnn_fit_epoch_log _ _ _ _ _ _ _ _ Hrun)
      as [X [Y [t [l [a [lr [_ [_ [Hl' [Ha' [_ [_ [_ Hv']]]]]]]]]]]]].
    rewrite Hl', Ha', !length_app, Hl, Ha. cbn [length].
    repeat split; try lia.
    destruct vd as [vd|].
    + destruct Hv' as [vl [va [-> ->]]]. destruct Hv as [Hvl Hva].
      rewrite !length_app, Hvl, Hva. cbn [length]. split; lia.
    + destruct Hv' as [-> ->]. exact Hv.
Qed.

Lemma rnn_train_batch_inv (n_epoch len_X bs : Z) (dec : bool) (kp : R)
      (t t' : train_state) (b : list sample * list label) :
  train_batch self n_epoch len_X bs dec kp t b = Ok t' ->
  exists lr f,
    decrease_lr dec (IZR (ts_global_step t)) n_epoch len_X bs = Ok lr
    /\ feed_X f = fst b /\ feed_Y f = Some (snd b)
    /\ feed_lr f = Some lr /\ feed_rnn_keep_prob f = Some kp
    /\ (feed_init_state f = None
        \/ feed_init_state f = Some (ts_next_state t)
           /\ stateful self = true
           /\ Z.of_nat (length (fst b)) = bs)
    /\ let r := run_train (ts_world t) f in
       ts_world t' = fst r
       /\ ts_global_step t' = (ts_global_step t + 1)%Z
       /\ ts_last t' = Some (snd (fst (snd r)), snd (snd r), lr).
Proof.
  unfold train_batch. destruct b as [Xb Yb].
  destruct (decrease_lr _ _ _ _ _) as [lr|]; [|discriminate]. cbn [bind].
  cbn [fst snd].
  destruct (stateful self && _)%bool eqn:Eg;
    match goal with
    | |- context [run_train ?w ?f] =>
        destruct (run_train w f) as [w' [[st l] a]] eqn:Erun;
        intros [= <-]; exists lr, f
    end; cbn [feed_X feed_Y feed_lr feed_rnn_keep_prob feed_init_state];
    rewrite Erun; cbn; repeat split; auto.
  right. apply andb_prop in Eg. destruct Eg as [Hs Hlen].
  apply Z.eqb_eq in Hlen. auto.
Qed.

Lemma rnn_train_loop_steps (n_epoch len_X bs : Z) (dec : bool) (kp : R)
      (batches : list (list sample * list label)) :
  forall t t',
    for_each (train_batch self n_epoch len_X bs dec kp) batches t = Ok t' ->
    ts_global_step t'
    = (ts_global_step t + Z.of_nat (length batches))%Z
    /\ (batches = [] -> ts_last t' = ts_last t).
Proof.
  induction batches as [|b batches IH]; intros t t' Hrun.
  - injection Hrun as <-. cbn [length]. split; [lia | trivial].
  - cbn [for_each] in Hrun.
    destruct (train_batch self n_epoch len_X bs dec kp t b) as [t1|] eqn:E1;
      [|discriminate]. cbn [bind] in Hrun.
    destruct (rnn_train_batch_inv _ _ _ _ _ _ _ E1)
      as [lr [f [_ [_ [_ [_ [_ [_ [_ [Ht1 _]]]]]]]]]].
    destruct (IH _ _ Hrun) as [Hstep _]. rewrite Hstep, Ht1.
    cbn [length]. split; [lia | discriminate].
Qed.

End RnnLogFacts.

(** X18. In both classes the log that [fit] returns has one training loss
    and one training accuracy per epoch; its two validation lists have one
    entry per epoch when validation data was given and are empty when it
    was not. *)
Theorem fit_log_has_one_entry_per_epoch :
  (forall (Sess : RNNTextClassifier.Session) (self : RNNTextClassifier.config)
          w X Y val_data n_epoch batch_size en_exp_decay en_shuffle
          rnn_keep_prob w' lg,
      RNNTextClassifier.fit self w X Y val_data n_epoch batch_size
                            en_exp_decay en_shuffle rnn_keep_prob
      = Ok (w', lg) ->
      length (log_loss lg) = Z.to_nat n_epoch
      /\ length (log_acc lg) = Z.to_nat n_epoch
      /\ match val_data with
         | None => log_val_loss lg = [] /\ log_val_acc lg = []
         | Some _ => length (log_val_loss lg) = Z.to_nat n_epoch
                     /\ length (log_val_acc lg) = Z.to_nat n_epoch
         end)
  /\
  (forall (Sess : Conv1DClassifier.Session)
          w X Y val_data n_epoch batch_size keep_prob en_exp_decay en_shuffle
          w' lg,
      Conv1DClassifier.fit w X Y val_data n_epoch batch_size keep_prob
                           en_exp_decay en_shuffle
      = Ok (w', lg) ->
      length (log_loss lg) = Z.to_nat n_epoch
      /\ length (log_acc lg) = Z.to_nat n_epoch
      /\ match val_data with
         | None => log_val_loss lg = [] /\ log_val_acc lg = []
         | Some _ => length (log_val_loss lg) = Z.to_nat n_epoch
                     /\ length (log_val_acc lg) = Z.to_nat n_epoch
         end).
Proof.
  split.
  - intros Sess self w X Y vd n_epoch bs dec shuf kp w' lg.
    unfold RNNTextClassifier.fit. rewrite for_range_to_nat.
    destruct (for_range _ _ _) as [s|] eqn:Erun; [|discriminate].
    cbn [bind]. intros [= _ <-].
    apply rnn_fit_log_lengths in Erun. exact Erun.
  - intros Sess w X Y vd n_epoch bs kp dec shuf w' lg.
    unfold Conv1DClassifier.fit. rewrite for_range_to_nat.
    destruct (for_range _ _ _) as [s|] eqn:Erun; [|discriminate].
    cbn [bind]. intros [= _ <-].
    apply conv_fit_log_lengths in Erun. exact Erun.
Qed.

Lemma fit_log_has_one_entry_per_epoch_witness :
  exists w' lg,
    Conv1DClassifier.fit (H := Toy.conv_session)
                         O [1; 2; 3; 4]%Z [0; 1; 0; 1]%Z
                         None 2 2 (1 / 2)%R false false
    = Ok (w', lg)
    /\ length (log_loss lg) = 2%nat /\ log_val_loss lg = [].
Proof.
  do 2 eexists. split; [reflexivity|].
  destruct (proj2 fit_log_has_one_entry_per_epoch Toy.conv_session
                  O [1; 2; 3; 4]%Z [0; 1; 0; 1]%Z None 2%Z 2%Z (1 / 2)%R
                  false false _ _ eq_refl) as [Hl [_ [Hv _]]].
  split; [exact Hl | exact Hv].
Defined.

(** X19. In both classes, a call of [fit] without shuffling, for at least
    one epoch and with a positive batch size, whose inputs or labels are
    empty, runs no training step; the validation pass, if any, is scored,
    and the first append to the log then reads the unbound local [loss]:
    [fit] raises [UnboundLocalError]. The validation data, if given, has
    as many labels as inputs and at least one; for [Conv1DClassifier],
    whose runs raise on a batch of one row, it leaves no batch of one row
    and the scoring runs return on every other feed. *)
Theorem fit_without_training_batch_raises :
  (forall (Sess : RNNTextClassifier.Session) (self : RNNTextClassifier.config)
          w X Y val_data n_epoch batch_size en_exp_decay rnn_keep_prob,
      (1 <= n_epoch)%Z -> (0 < batch_size)%Z ->
      X = [] \/ Y = [] ->
      match val_data with
      | None => True
      | Some vd => fst vd <> [] /\ length (fst vd) = length (snd vd)
      end ->
      RNNTextClassifier.fit self w X Y val_data n_epoch batch_size
                            en_exp_decay false rnn_keep_prob
      = Err UnboundLocalError)
  /\
  (forall (Sess : Conv1DClassifier.Session)
          w X Y val_data n_epoch batch_size keep_prob en_exp_decay,
      (1 <= n_epoch)%Z -> (0 < batch_size)%Z ->
      X = [] \/ Y = [] ->
      match val_data with
      | None => True
      | Some vd =>
          fst vd <> [] /\ length (fst vd) = length (snd vd)
          /\ (2 <= batch_size)%Z
          /\ (Z.of_nat (length (fst vd)) mod batch_size <> 1)%Z
          /\ forall w0 f, (2 <= length (Conv1DClassifier.feed_X f))%nat ->
                          exists r, Conv1DClassifier.run_eval w0 f = Ok r
      end ->
      Conv1DClassifier.fit w X Y val_data n_epoch batch_size keep_prob
                           en_exp_decay false
      = Err UnboundLocalError).
Proof.
  assert (Hnonempty : forall (A B : Type) (l : list A) (l' : list B),
             l <> [] -> length l = length l' -> l' <> []).
  { intros A B l l' Hl Hlen ->. destruct l; [congruence | discriminate]. }
  split.
  - intros Sess self w X Y vd n_epoch bs dec kp Hn Hb Hempty Hvd.
    unfold RNNTextClassifier.fit.
    rewrite (for_range_first_raises _ _ (e := UnboundLocalError)); trivial.
    unfold RNNTextClassifier.fit_epoch, RNNTextClassifier.train_epoch,
      RNNTextClassifier.fit_init, RNNTextClassifier.gen_batch.
    cbn [RNNTextClassifier.fs_world RNNTextClassifier.fs_X
         RNNTextClassifier.fs_Y RNNTextClassifier.fs_global_step
         RNNTextClassifier.fs_last RNNTextClassifier.fs_log].
    cbn [bind]. rewrite fetch_init_state_ok by lia. cbn [bind].
    destruct (gen_batch_ok X Hb) as [Xb HXb].
    destruct (gen_batch_ok Y Hb) as [Yb HYb].
    assert (Hzip : Batching.zip Xb Yb = []).
    { destruct Hempty as [-> | ->]; rewrite gen_batch_nil in * by trivial.
      - injection HXb as <-. reflexivity.
      - injection HYb as <-. unfold Batching.zip. now destruct Xb. }
    rewrite HXb, HYb. cbn [bind]. rewrite Hzip. cbn [for_each bind].
    cbn [RNNTextClassifier.ts_world RNNTextClassifier.ts_last].
    destruct vd as [vd|]; [|reflexivity].
    destruct Hvd as [HvX Hvlen].
    destruct (@rnn_validate_ok Sess self (RNNTextClassifier.run_initializer w)
                               vd bs Hb HvX (Hnonempty _ _ _ _ HvX Hvlen))
      as [vs [-> [Hl Ha]]].
    cbn [bind]. unfold RNNTextClassifier.list_avg.
    destruct (RNNTextClassifier.vs_loss_list vs); [congruence|].
    destruct (RNNTextClassifier.vs_acc_list vs); [congruence|].
    reflexivity.
  - intros Sess w X Y vd n_epoch bs kp dec Hn Hb Hempty Hvd.
    unfold Conv1DClassifier.fit.
    rewrite (for_range_first_raises _ _ (e := UnboundLocalError)); trivial.
    unfold Conv1DClassifier.fit_epoch, Conv1DClassifier.train_epoch,
      Conv1DClassifier.fit_init, Conv1DClassifier.gen_batch.
    cbn [Conv1DClassifier.fs_world Conv1DClassifier.fs_X
         Conv1DClassifier.fs_Y Conv1DClassifier.fs_global_step
         Conv1DClassifier.fs_last Conv1DClassifier.fs_log].
    cbn [bind].
    destruct (gen_batch_ok X Hb) as [Xb HXb].
    destruct (gen_batch_ok Y Hb) as [Yb HYb].
    assert (Hzip : Batching.zip Xb Yb = []).
    { destruct Hempty as [-> | ->]; rewrite gen_batch_nil in * by trivial.
      - injection HXb as <-. reflexivity.
      - injection HYb as <-. unfold Batching.zip. now destruct Xb. }
    rewrite HXb, HYb. cbn [bind]. rewrite Hzip. cbn [for_each bind].
    cbn [Conv1DClassifier.ts_world Conv1DClassifier.ts_last].
    destruct vd as [vd|]; [|reflexivity].
    destruct Hvd as [HvX [Hvlen [Hb2 [Hvmod Heval]]]].
    destruct (@conv_validate_ok Sess Heval (Conv1DClassifier.run_initializer w)
                                vd bs Hb2 HvX (Hnonempty _ _ _ _ HvX Hvlen)
                                Hvmod)
      as [vs [-> [Hl Ha]]].
    cbn [bind]. unfold Conv1DClassifier.list_avg.
    destruct (Conv1DClassifier.vs_loss_list vs); [congruence|].
    destruct (Conv1DClassifier.vs_acc_list vs); [congruence|].
    reflexivity.
Qed.

Lemma fit_without_training_batch_raises_witness :
  Conv1DClassifier.fit (H := Toy.conv_session) O [] [0; 1; 0]%Z
                       (Some ([4; 5; 6; 7]%Z, [1; 1; 0; 0]%Z)) 2 2 (1 / 2)%R
                       true false
  = Err UnboundLocalError.
Proof.
  apply (proj2 fit_without_training_batch_raises Toy.conv_session);
    [lia | lia | now left |].
  split; [discriminate|]. split; [reflexivity|]. split; [lia|].
  split; [vm_compute; discriminate | apply toy_conv_eval_runs].
Defined.


(** ** What an epoch writes to the log *)

Lemma conv_shuffled_inv `{Conv1DClassifier.Session} (shuf : bool)
      (w : Conv1DClassifier.world) (X : list Conv1DClassifier.sample)
      (Y : list Conv1DClassifier.label) r :
  (if shuf then Conv1DClassifier.sklearn_shuffle w X Y else Ok (w, (X, Y)))
  = Ok r ->
  (if shuf then Conv1DClassifier.shuffle w X Y else (w, (X, Y))) = r.
Proof.
  destruct shuf; [|now intros [= <-]].
  unfold Conv1DClassifier.sklearn_shuffle.
  destruct (Nat.eqb _ _); [now intros [= <-] | discriminate].
Qed.

Lemma rnn_shuffled_inv `{RNNTextClassifier.Session} (shuf : bool)
      (w : RNNTextClassifier.world) (X : list RNNTextClassifier.sample)
      (Y : list RNNTextClassifier.label) r :
  (if shuf then RNNTextClassifier.sklearn_shuffle w X Y else Ok (w, (X, Y)))
  = Ok r ->
  (if shuf then RNNTextClassifier.shuffle w X Y else (w, (X, Y))) = r.
Proof.
  destruct shuf; [|now intros [= <-]].
  unfold RNNTextClassifier.sklearn_shuffle.
  destruct (Nat.eqb _ _); [now intros [= <-] | discriminate].
Qed.

(** X20. One epoch of [Conv1DClassifier.fit] that completes advances
    [global_step] by the number of zipped batches and appends to
    [log['loss']] and [log['acc']] the loss and accuracy of the training run
    on the last batch alone, not an average over the epoch; that run is fed
    the learning rate that [decrease_lr] gives for the step count before
    it. Only if the epoch has no batch at all are the values left over from
    the previous epoch appended again. *)
Theorem conv_epoch_logs_last_batch
        (Sess : Conv1DClassifier.Session)
        (val_data : option (list Conv1DClassifier.sample
                            * list Conv1DClassifier.label))
        (n_epoch batch_size : Z) (keep_prob : R)
        (en_exp_decay en_shuffle : bool)
        (s s' : Conv1DClassifier.fit_state) (epoch : Z) :
  Conv1DClassifier.fit_epoch val_data n_epoch batch_size keep_prob
                             en_exp_decay en_shuffle s epoch = Ok s' ->
  exists w X Y X_batches Y_batches,
    (if en_shuffle
     then Conv1DClassifier.shuffle (Conv1DClassifier.fs_world s)
                                   (Conv1DClassifier.fs_X s)
                                   (Conv1DClassifier.fs_Y s)
     else (Conv1DClassifier.fs_world s,
           (Conv1DClassifier.fs_X s, Conv1DClassifier.fs_Y s)))
    = (w, (X, Y))
    /\ Conv1DClassifier.gen_batch X batch_size = Ok X_batches
    /\ Conv1DClassifier.gen_batch Y batch_size = Ok Y_batches
    /\ Conv1DClassifier.fs_global_step s'
       = (Conv1DClassifier.fs_global_step s
          + Z.of_nat (length (Batching.zip X_batches Y_batches)))%Z
    /\ ((Batching.zip X_batches Y_batches = []
         /\ exists loss acc lr,
             Conv1DClassifier.fs_last s = Some (loss, acc, lr)
             /\ log_loss (Conv1DClassifier.fs_log s')
                = log_loss (Conv1DClassifier.fs_log s) ++ [loss]
             /\ log_acc (Conv1DClassifier.fs_log s')
                = log_acc (Conv1DClassifier.fs_log s) ++ [acc])
        \/
        (exists earlier X_batch Y_batch t lr,
            Batching.zip X_batches Y_batches
            = earlier ++ [(X_batch, Y_batch)]
            /\ for_each (Conv1DClassifier.train_batch
                           n_epoch (Z.of_nat (length X)) batch_size
                           en_exp_decay keep_prob)
                        earlier
                        {| Conv1DClassifier.ts_world := w;
                           Conv1DClassifier.ts_global_step :=
                             Conv1DClassifier.fs_global_step s;
                           Conv1DClassifier.ts_last :=
                             Conv1DClassifier.fs_last s |}
               = Ok t
            /\ Conv1DClassifier.decrease_lr
                 en_exp_decay
                 (IZR (Conv1DClassifier.fs_global_step s
                       + Z.of_nat (length earlier)))
                 n_epoch (Z.of_nat (length X)) batch_size
               = Ok lr
            /\ exists w' loss acc,
                 Conv1DClassifier.run_train
                   (Conv1DClassifier.ts_world t)
                   {| Conv1DClassifier.feed_X := X_batch;
                      Conv1DClassifier.feed_Y := Some Y_batch;
                      Conv1DClassifier.feed_lr := Some lr;
                      Conv1DClassifier.feed_keep_prob := Some keep_prob |}
                 = Ok (w', (loss, acc))
                 /\ log_loss (Conv1DClassifier.fs_log s')
                    = log_loss (Conv1DClassifier.fs_log s) ++ [loss]
                 /\ log_acc (Conv1DClassifier.fs_log s')
                    = log_acc (Conv1DClassifier.fs_log s) ++ [acc])).
Proof.
  intros Hrun.
  destruct (conv_fit_epoch_log _ _ _ _ _ _ _ _ Hrun)
    as [X [Y [t [loss [acc [lr [Ht [Hlast [Hl [Ha [_ [_ [Hstep _]]]]]]]]]]]]].
  unfold Conv1DClassifier.train_epoch in Ht.
  destruct (if en_shuffle then _ else _) as [[w [X0 Y0]]|] eqn:Eshuf in Ht;
    [|discriminate].
  apply conv_shuffled_inv in Eshuf. cbn [bind] in Ht.
  destruct (Conv1DClassifier.gen_batch X0 batch_size) as [Xb|] eqn:EX;
    [|discriminate].
  destruct (Conv1DClassifier.gen_batch Y0 batch_size) as [Yb|] eqn:EY;
    [|discriminate].
  cbn [bind] in Ht.
  destruct (for_each _ _ _) as [t0|] eqn:Eloop; [|discriminate].
  cbn [bind] in Ht. injection Ht as -> -> ->.
  exists w, X, Y, Xb, Yb. split; [exact Eshuf|].
  destruct (conv_train_loop_steps _ _ _ _ _ _ _ Eloop) as [Hsteps Hnone].
  cbn [Conv1DClassifier.ts_global_step Conv1DClassifier.ts_last]
    in Hsteps, Hnone.
  repeat split; trivial; [congruence|].
  destruct (snoc_cases (Batching.zip Xb Yb)) as [Hnil | [earlier [b Hsnoc]]].
  - left. split; trivial. exists loss, acc, lr.
    rewrite <- (Hnone Hnil). auto.
  - right. destruct b as [X_batch Y_batch].
    rewrite Hsnoc, for_each_snoc in Eloop.
    destruct (for_each _ earlier _) as [t_prev|] eqn:Eprev; [|discriminate].
    cbn [bind] in Eloop.
    destruct (conv_train_batch_inv _ _ _ _ _ _ _ Eloop)
      as [lr' [w' [l' [a' [Hlr [Hran Ht']]]]]].
    destruct (conv_train_loop_steps _ _ _ _ _ _ _ Eprev) as [Hprev _].
    cbn [Conv1DClassifier.ts_global_step] in Hprev.
    cbn [fst snd] in Hran.
    exists earlier, X_batch, Y_batch, t_prev, lr'.
    rewrite <- Hprev. repeat split; trivial.
    exists w', l', a'. rewrite Ht' in Hlast.
    cbn [Conv1DClassifier.ts_last] in Hlast. injection Hlast as <- <- _.
    repeat split; trivial.
Qed.

Lemma conv_epoch_logs_last_batch_witness :
  exists s',
    Conv1DClassifier.fit_epoch
      (H := Toy.conv_session) None 1 2 (1 / 2)%R false false
      (Conv1DClassifier.fit_init (H := Toy.conv_session) O
                                 [1; 2; 3; 4]%Z [0; 1; 0; 1]%Z) 0
    = Ok s'
    /\ exists X_batches Y_batches,
        Conv1DClassifier.gen_batch [1; 2; 3; 4]%Z 2 = Ok X_batches
        /\ Conv1DClassifier.gen_batch [0; 1; 0; 1]%Z 2 = Ok Y_batches
        /\ Conv1DClassifier.fs_global_step s'
           = (0 + Z.of_nat (length (Batching.zip X_batches Y_batches)))%Z.
Proof.
  eexists. split; [reflexivity|].
  destruct (@conv_epoch_logs_last_batch
              Toy.conv_session None 1%Z 2%Z (1 / 2)%R false false
              (Conv1DClassifier.fit_init (H := Toy.conv_session) O
                                         [1; 2; 3; 4]%Z [0; 1; 0; 1]%Z)
              _ 0%Z eq_refl)
    as [w [X [Y [Xb [Yb [Hshuf [HX [HY [Hstep _]]]]]]]]].
  injection Hshuf as _ <- <-. exists Xb, Yb. auto.
Defined.

(** X21. The same for [RNNTextClassifier.fit]: a completed epoch advances
    [global_step] by the number of zipped batches and logs the loss and
    accuracy of the run on the last batch, fed with the learning rate of
    the step before it; that run is fed the carried state only when the
    classifier is stateful and the batch is full. *)
Theorem rnn_epoch_logs_last_batch
        (Sess : RNNTextClassifier.Session) (self : RNNTextClassifier.config)
        (val_data : option (list RNNTextClassifier.sample
                            * list RNNTextClassifier.label))
        (n_epoch batch_size : Z) (en_exp_decay en_shuffle : bool)
        (rnn_keep_prob : R)
        (s s' : RNNTextClassifier.fit_state) (epoch : Z) :
  RNNTextClassifier.fit_epoch self val_data n_epoch batch_size en_exp_decay
                              en_shuffle rnn_keep_prob s epoch = Ok s' ->
  exists w X Y X_batches Y_batches,
    (if en_shuffle
     then RNNTextClassifier.shuffle (RNNTextClassifier.fs_world s)
                                    (RNNTextClassifier.fs_X s)
                                    (RNNTextClassifier.fs_Y s)
     else (RNNTextClassifier.fs_world s,
           (RNNTextClassifier.fs_X s, RNNTextClassifier.fs_Y s)))
    = (w, (X, Y))
    /\ RNNTextClassifier.gen_batch X batch_size = Ok X_batches
    /\ RNNTextClassifier.gen_batch Y batch_size = Ok Y_batches
    /\ RNNTextClassifier.fs_global_step s'
       = (RNNTextClassifier.fs_global_step s
          + Z.of_nat (length (Batching.zip X_batches Y_batches)))%Z
    /\ ((Batching.zip X_batches Y_batches = []
         /\ exists loss acc lr,
             RNNTextClassifier.fs_last s = Some (loss, acc, lr)
             /\ log_loss (RNNTextClassifier.fs_log s')
                = log_loss (RNNTextClassifier.fs_log s) ++ [loss]
             /\ log_acc (RNNTextClassifier.fs_log s')
                = log_acc (RNNTextClassifier.fs_log s) ++ [acc])
        \/
        (exists earlier X_batch Y_batch t lr f,
            Batching.zip X_batches Y_batches
            = earlier ++ [(X_batch, Y_batch)]
            /\ for_each (RNNTextClassifier.train_batch
                           self n_epoch (Z.of_nat (length X)) batch_size
                           en_exp_decay rnn_keep_prob)
                        earlier
                        {| RNNTextClassifier.ts_world := w;
                           RNNTextClassifier.ts_next_state :=
                             RNNTextClassifier.run_init_state w batch_size;
                           RNNTextClassifier.ts_global_step :=
                             RNNTextClassifier.fs_global_step s;
                           RNNTextClassifier.ts_last :=
                             RNNTextClassifier.fs_last s |}
               = Ok t
            /\ RNNTextClassifier.decrease_lr
                 en_exp_decay
                 (IZR (RNNTextClassifier.fs_global_step s
                       + Z.of_nat (length earlier)))
                 n_epoch (Z.of_nat (length X)) batch_size
               = Ok lr
            /\ RNNTextClassifier.feed_X f = X_batch
            /\ RNNTextClassifier.feed_Y f = Some Y_batch
            /\ RNNTextClassifier.feed_lr f = Some lr
            /\ RNNTextClassifier.feed_rnn_keep_prob f = Some rnn_keep_prob
            /\ (RNNTextClassifier.feed_init_state f = None
                \/ RNNTextClassifier.feed_init_state f
                   = Some (RNNTextClassifier.ts_next_state t)
                   /\ RNNTextClassifier.stateful self = true
                   /\ Z.of_nat (length X_batch) = batch_size)
            /\ let r := RNNTextClassifier.run_train
                          (RNNTextClassifier.ts_world t) f in
               log_loss (RNNTextClassifier.fs_log s')
               = log_loss (RNNTextClassifier.fs_log s)
                   ++ [snd (fst (snd r))]
               /\ log_acc (RNNTextClassifier.fs_log s')
                  = log_acc (RNNTextClassifier.fs_log s) ++ [snd (snd r)])).
Proof.
  intros Hrun.
  destruct (rnn_fit_epoch_log _ _ _ _ _ _ _ _ _ Hrun)
    as [X [Y [t [loss [acc [lr [Ht [Hlast [Hl [Ha [_ [_ [Hstep _]]]]]]]]]]]]].
  unfold RNNTextClassifier.train_epoch in Ht.
  destruct (if en_shuffle then _ else _) as [[w [X0 Y0]]|] eqn:Eshuf in Ht;
    [|discriminate].
  apply rnn_shuffled_inv in Eshuf. cbn [bind] in Ht.
  destruct (RNNTextClassifier.fetch_init_state w batch_size)
    as [next_state|] eqn:Estate; [|discriminate].
  apply fetch_init_state_inv in Estate. destruct Estate as [_ ->].
  cbn [bind] in Ht.
  destruct (RNNTextClassifier.gen_batch X0 batch_size) as [Xb|] eqn:EX;
    [|discriminate].
  destruct (RNNTextClassifier.gen_batch Y0 batch_size) as [Yb|] eqn:EY;
    [|discriminate].
  cbn [bind] in Ht.
  destruct (for_each _ _ _) as [t0|] eqn:Eloop; [|discriminate].
  cbn [bind] in Ht. injection Ht as -> -> ->.
  exists w, X, Y, Xb, Yb. split; [exact Eshuf|].
  destruct (rnn_train_loop_steps _ _ _ _ _ _ _ _ Eloop) as [Hsteps Hnone].
  cbn [RNNTextClassifier.ts_global_step RNNTextClassifier.ts_last]
    in Hsteps, Hnone.
  repeat split; trivial; [congruence|].
  destruct (snoc_cases (Batching.zip Xb Yb)) as [Hnil | [earlier [b Hsnoc]]].
  - left. split; trivial. exists loss, acc, lr.
    rewrite <- (Hnone Hnil). auto.
  - right. destruct b as [X_batch Y_batch].
    rewrite Hsnoc, for_each_snoc in Eloop.
    destruct (for_each _ earlier _) as [t_prev|] eqn:Eprev; [|discriminate].
    cbn [bind] in Eloop.
    destruct (rnn_train_batch_inv _ _ _ _ _ _ _ _ Eloop)
      as [lr' [f [Hlr [HfX [HfY [Hflr [Hfkp [Hfst [_ [_ Ht']]]]]]]]]].
    destruct (rnn_train_loop_steps _ _ _ _ _ _ _ _ Eprev) as [Hprev _].
    cbn [RNNTextClassifier.ts_global_step] in Hprev.
    cbn [fst snd] in HfX, HfY, Hfst.
    exists earlier, X_batch, Y_batch, t_prev, lr', f.
    rewrite <- Hprev. rewrite Ht' in Hlast. injection Hlast as <- <- _.
    repeat split; trivial.
Qed.

Lemma rnn_epoch_logs_last_batch_witness :
  exists s',
    RNNTextClassifier.fit_epoch
      (H := Toy.rnn_session) (Toy.rnn_config true) None 1 2 false false 1%R
      (RNNTextClassifier.fit_init (H := Toy.rnn_session) O
                                  [1; 2; 3]%Z [0; 1; 0]%Z) 0
    = Ok s'
    /\ exists X_batches Y_batches,
        RNNTextClassifier.gen_batch [1; 2; 3]%Z 2 = Ok X_batches
        /\ RNNTextClassifier.gen_batch [0; 1; 0]%Z 2 = Ok Y_batches
        /\ RNNTextClassifier.fs_global_step s'
           = (0 + Z.of_nat (length (Batching.zip X_batches Y_batches)))%Z.
Proof.
  eexists. split; [reflexivity|].
  destruct (@rnn_epoch_logs_last_batch
              Toy.rnn_session (Toy.rnn_config true) None 1%Z 2%Z false false
              1%R
              (RNNTextClassifier.fit_init (H := Toy.rnn_session) O
                                          [1; 2; 3]%Z [0; 1; 0]%Z)
              _ 0%Z eq_refl)
    as [w [X [Y [Xb [Yb [Hshuf [HX [HY [Hstep _]]]]]]]]].
  injection Hshuf as _ <- <-. exists Xb, Yb. auto.
Defined.


(** ** More on [predict] *)

(** X22. [predict] has no result for an empty test set: the loop collects
    no batch and stacking the empty list of batch results raises
    [ValueError]. The same error comes from a batch size of zero, raised by
    the batch generator, and in [Conv1DClassifier] from a negative batch
    size, which yields no batch either. *)
Theorem predict_rejects_empty_input :
  (forall (Sess : RNNTextClassifier.Session) (self : RNNTextClassifier.config)
          w X_test batch_size,
      (0 <= batch_size)%Z ->
      X_test = [] \/ batch_size = 0%Z ->
      RNNTextClassifier.predict self w X_test batch_size = Err ValueError)
  /\
  (forall (Sess : Conv1DClassifier.Session) w X_test batch_size,
      X_test = [] \/ (batch_size <= 0)%Z ->
      Conv1DClassifier.predict w X_test batch_size = Err ValueError).
Proof.
  split.
  - intros Sess self w X_test bs Hbs Hcase.
    unfold RNNTextClassifier.predict, RNNTextClassifier.predict_batches,
      RNNTextClassifier.gen_batch.
    rewrite fetch_init_state_ok by lia. cbn [bind].
    destruct (Z.eq_dec bs 0) as [-> | Hne]; [reflexivity|].
    destruct Hcase as [-> | ->]; [|congruence].
    rewrite gen_batch_nil by lia. reflexivity.
  - intros Sess w X_test bs Hcase.
    unfold Conv1DClassifier.predict, Conv1DClassifier.predict_batches,
      Conv1DClassifier.gen_batch.
    destruct (Z.eq_dec bs 0) as [-> | Hne]; [reflexivity|].
    destruct (Z_lt_le_dec bs 0) as [Hneg | Hpos].
    + rewrite gen_batch_negative by trivial. reflexivity.
    + destruct Hcase as [-> | Hle]; [|lia].
      rewrite gen_batch_nil by lia. reflexivity.
Qed.

Lemma predict_rejects_empty_input_witness :
  Conv1DClassifier.predict (H := Toy.conv_session) O [5; 0; 7]%Z (-2)
  = Err ValueError.
Proof.
  apply (proj2 predict_rejects_empty_input Toy.conv_session). right. lia.
Defined.

Section StatelessRuns.

Import RNNTextClassifier.
Context {Sess : Session}.
Variable self : config.
Hypothesis stateful_off : stateful self = false.

Lemma stateless_predict_loop (bs : Z) (batches : list (list sample)) :
  forall s, exists s' preds,
    for_each (predict_batch self bs) batches s = Ok s'
    /\ ps_next_state s' = ps_next_state s
    /\ ps_batch_pred_list s' = ps_batch_pred_list s ++ preds
    /\ Forall2 (fun batch pred =>
                  exists w,
                    pred
                    = fst (snd (run_logits
                                  w
                                  {| feed_X := batch; feed_Y := None;
                                     feed_batch_size :=
                                       Z.of_nat (length batch);
                                     feed_rnn_keep_prob := Some 1%R;
                                     feed_lr := None;
                                     feed_init_state := None |})))
               batches preds.
Proof.
  induction batches as [|b batches IH]; intros s.
  - exists s, []. cbn [for_each]. rewrite app_nil_r. auto.
  - cbn [for_each]. unfold predict_batch at 1.
    rewrite stateful_off. cbn [andb].
    destruct (run_logits _ _) as [w' [pred st]] eqn:Erun. cbn [bind].
    match goal with
    | |- context [for_each _ batches ?s1] =>
        destruct (IH s1) as [s' [preds [-> [Hst [Hlist Hall]]]]]
    end.
    exists s', (pred :: preds).
    cbn [ps_next_state ps_batch_pred_list] in Hst, Hlist.
    rewrite Hlist, <- app_assoc. repeat split; trivial.
    constructor; trivial. exists (ps_world s).
    now rewrite Erun.
Qed.

End StatelessRuns.

(** X23. A recurrent classifier built with [stateful=False] never feeds a
    state when it predicts: for a positive batch size, with which the test
    set is cut into batches, the loop of [predict] completes, every batch
    result is the logits of a run fed with that batch, its own row count as
    [batch_size] and no [init_state], and the zero state fetched before
    the loop is still the carried state after it. With a negative batch
    size the fetch of the zero state fails and [predict] raises
    [InvalidArgumentError] before any batch is cut. *)
Theorem stateless_predict_feeds_no_state
        (Sess : RNNTextClassifier.Session) (self : RNNTextClassifier.config)
        (w : RNNTextClassifier.world)
        (X_test : list RNNTextClassifier.sample) (batch_size : Z)
        (batches : list (list RNNTextClassifier.sample)) :
  RNNTextClassifier.stateful self = false ->
  ((0 < batch_size)%Z ->
   RNNTextClassifier.gen_batch X_test batch_size = Ok batches ->
   exists s,
    RNNTextClassifier.predict_batches self w X_test batch_size = Ok s
    /\ RNNTextClassifier.ps_next_state s
       = RNNTextClassifier.run_init_state w batch_size
    /\ Forall2 (fun batch pred =>
                  exists w',
                    pred
                    = fst (snd (RNNTextClassifier.run_logits
                                  w'
                                  {| RNNTextClassifier.feed_X := batch;
                                     RNNTextClassifier.feed_Y := None;
                                     RNNTextClassifier.feed_batch_size :=
                                       Z.of_nat (length batch);
                                     RNNTextClassifier.feed_rnn_keep_prob :=
                                       Some 1%R;
                                     RNNTextClassifier.feed_lr := None;
                                     RNNTextClassifier.feed_init_state :=
                                       None |})))
               batches (RNNTextClassifier.ps_batch_pred_list s))
  /\ ((batch_size < 0)%Z ->
      RNNTextClassifier.predict self w X_test batch_size
      = Err InvalidArgumentError).
Proof.
  intros Hoff. split.
  2:{ intros Hneg. unfold RNNTextClassifier.predict,
        RNNTextClassifier.predict_batches.
      now rewrite fetch_init_state_negative. }
  intros Hpos Hgen. unfold RNNTextClassifier.predict_batches.
  rewrite fetch_init_state_ok by lia. cbn [bind].
  rewrite Hgen. cbn [bind].
  destruct (@stateless_predict_loop Sess self Hoff batch_size batches
              {| RNNTextClassifier.ps_world := w;
                 RNNTextClassifier.ps_next_state :=
                   RNNTextClassifier.run_init_state w batch_size;
                 RNNTextClassifier.ps_batch_pred_list := [] |})
    as [s [preds [Hrun [Hst [Hlist Hall]]]]].
  exists s. cbn in Hst, Hlist. rewrite Hlist. auto.
Qed.

Lemma stateless_predict_feeds_no_state_witness :
  exists s,
    RNNTextClassifier.predict_batches (H := Toy.rnn_session)
                                      (Toy.rnn_config false) O [5; 0; 7]%Z 2
    = Ok s
    /\ RNNTextClassifier.ps_next_state s = O.
Proof.
  destruct (proj1 (@stateless_predict_feeds_no_state
                     Toy.rnn_session (Toy.rnn_config false) O [5; 0; 7]%Z 2%Z
                     [[5; 0]; [7]]%Z eq_refl) eq_refl eq_refl)
    as [s [Hrun [Hst _]]].
  exists s. split; [exact Hrun | exact Hst].
Defined.


(** ** The driver script *)

Section HitCounting.

Local Open Scope R_scope.

Lemma sum_indicators (l : list bool) :
  forall acc,
    fold_left Rplus (map (fun b : bool => if b then 1 else 0) l) acc
    = acc + INR (length (filter (fun b : bool => b) l)).
Proof.
  induction l as [|b l IH]; intros acc.
  - simpl. lra.
  - cbn [map fold_left filter]. rewrite IH. destruct b.
    + change (length (true :: filter (fun b : bool => b) l))
        with (S (length (filter (fun b : bool => b) l))).
      rewrite S_INR. lra.
    + lra.
Qed.

Lemma filter_all (l : list bool) :
  length (filter (fun b : bool => b) l) = length l
  <-> Forall (fun b => b = true) l.
Proof.
  induction l as [|b l IH].
  - simpl. split; auto.
  - pose proof (filter_length_le (fun b : bool => b) l) as Hle.
    destruct b; cbn [filter length].
    + split.
      * intros Hlen. constructor; trivial. apply IH. lia.
      * intros Hall. inversion Hall; subst. f_equal. now apply IH.
    + split.
      * intros Hlen. lia.
      * intros Hall. inversion Hall; subst. discriminate.
Qed.

Lemma eqb_pairs_all (a b : list nat) :
  length a = length b ->
  Forall (fun h => h = true)
         (map (fun p => Nat.eqb (fst p) (snd p)) (combine a b))
  <-> a = b.
Proof.
  revert b. induction a as [|x a IH]; intros [|y b] Hlen;
    simpl in Hlen; try lia.
  - simpl. split; auto.
  - cbn [combine map fst snd]. split.
    + intros Hall. inversion Hall as [|h t Hxy Hrest]; subst.
      apply Nat.eqb_eq in Hxy. subst. f_equal. apply IH; [lia | trivial].
    + intros [= -> ->]. constructor; [apply Nat.eqb_refl|].
      apply IH; trivial.
Qed.

End HitCounting.

(** X24. [final_acc] of the driver script is the fraction of test rows
    whose first largest logit sits where the first largest entry of the
    label row does: for a nonempty test set with nonempty rows it is a
    number between 0 and 1, and 1 exactly when all rows agree. For an empty
    test set it is [nan]; for more than one prediction row against a
    different number of label rows, neither of the two being 1, [np.equal]
    raises [ValueError]. *)
Theorem final_acc_is_hit_fraction (pred y_test : TF.matrix) :
  (pred <> [] -> length pred = length y_test ->
   Forall (fun row => row <> []) pred ->
   Forall (fun row => row <> []) y_test ->
   exists predicted expected a,
     Np.argmax_1 pred = Ok predicted
     /\ Np.argmax_1 y_test = Ok expected
     /\ MlpClfTest.final_acc pred y_test = Ok (MlpClfTest.Finite a)
     /\ a = (INR (length (filter (fun p => Nat.eqb (fst p) (snd p))
                                 (combine predicted expected)))
             / INR (length pred))%R
     /\ (0 <= a <= 1)%R
     /\ (a = 1%R <-> predicted = expected))
  /\ (pred = [] -> y_test = [] ->
      MlpClfTest.final_acc pred y_test = Ok MlpClfTest.NaN)
  /\ (Forall (fun row => row <> []) pred ->
      Forall (fun row => row <> []) y_test ->
      length pred <> length y_test ->
      length pred <> 1%nat -> length y_test <> 1%nat ->
      MlpClfTest.final_acc pred y_test = Err ValueError).
Proof.
  split; [|split].
  - intros Hne Hlen Hp Hy.
    destruct (argmax_1_spec Hp) as [predicted [Ep [Hlp _]]].
    destruct (argmax_1_spec Hy) as [expected [Ey [Hly _]]].
    assert (Hlens : length predicted = length expected) by congruence.
    set (hits := map (fun p => Nat.eqb (fst p) (snd p))
                     (combine predicted expected)).
    assert (Hhits_len : length hits = length pred).
    { unfold hits. rewrite length_map, length_combine. lia. }
    assert (Hcount : length (filter (fun p => Nat.eqb (fst p) (snd p))
                                    (combine predicted expected))
                     = length (filter (fun b : bool => b) hits)).
    { unfold hits. generalize (combine predicted expected). intros l.
      induction l as [|p l IH]; trivial. cbn [map filter].
      destruct (Nat.eqb (fst p) (snd p)); cbn [length]; now rewrite IH. }
    assert (Hpos : (0 < INR (length pred))%R).
    { apply lt_0_INR. destruct pred; [congruence | simpl; lia]. }
    pose proof (filter_length_le (fun b : bool => b) hits) as Hle.
    exists predicted, expected,
      (INR (length (filter (fun b : bool => b) hits)) / INR (length pred))%R.
    split; [exact Ep|]. split; [exact Ey|]. split; [|split; [|split]].
    + unfold MlpClfTest.final_acc. rewrite Ep, Ey. cbn [bind].
      unfold MlpClfTest.np_equal. rewrite Hlens, Nat.eqb_refl. cbn [bind].
      fold hits.
      assert (Hmean : forall l : list bool,
                 l <> [] ->
                 MlpClfTest.astype_float_mean l
                 = MlpClfTest.Finite
                     (Py.mean (map (fun b : bool => if b then 1 else 0) l))%R)
        by (intros [|h l] Hl; [congruence | reflexivity]).
      rewrite Hmean.
      * do 2 f_equal. unfold Py.mean, Py.sum, Py.len.
        rewrite sum_indicators, length_map, Hhits_len.
        now rewrite Rplus_0_l.
      * intros E. rewrite E in Hhits_len. simpl in Hhits_len.
        destruct pred; [congruence | simpl in *; lia].
    + now rewrite Hcount.
    + split.
      * apply Rmult_le_reg_r with (INR (length pred)); trivial.
        unfold Rdiv. rewrite Rmult_assoc, Rinv_l by lra.
        rewrite Rmult_0_l, Rmult_1_r. apply pos_INR.
      * apply Rmult_le_reg_r with (INR (length pred)); trivial.
        unfold Rdiv. rewrite Rmult_assoc, Rinv_l by lra.
        rewrite Rmult_1_r, Rmult_1_l. apply le_INR. lia.
    + rewrite <- (eqb_pairs_all _ _ Hlens). fold hits.
      rewrite <- filter_all. rewrite Hhits_len. split.
      * intros Hone. apply INR_eq.
        apply Rmult_eq_reg_r with (/ INR (length pred))%R.
        -- unfold Rdiv in Hone. rewrite Hone. rewrite Rinv_r by lra. trivial.
        -- apply Rinv_neq_0_compat. lra.
      * intros ->. unfold Rdiv. apply Rinv_r. lra.
  - intros -> ->. reflexivity.
  - intros Hp Hy Hlen Hp1 Hy1.
    destruct (argmax_1_spec Hp) as [predicted [Ep [Hlp _]]].
    destruct (argmax_1_spec Hy) as [expected [Ey [Hly _]]].
    unfold MlpClfTest.final_acc. rewrite Ep, Ey. cbn [bind].
    unfold MlpClfTest.np_equal.
    destruct (Nat.eqb_spec (length predicted) (length expected)) as [E|_];
      [congruence|].
    rewrite <- Hlp in Hp1. rewrite <- Hly in Hy1.
    destruct predicted as [|p1 [|p2 ps]], expected as [|e1 [|e2 es]];
      simpl in Hp1, Hy1; try congruence; reflexivity.
Qed.

Lemma final_acc_is_hit_fraction_witness :
  exists predicted expected a,
    Np.argmax_1 [[1; 3; 2]; [5; 0; 0]]%R = Ok predicted
    /\ Np.argmax_1 [[0; 1; 0]; [0; 0; 1]]%R = Ok expected
    /\ MlpClfTest.final_acc [[1; 3; 2]; [5; 0; 0]]%R
                            [[0; 1; 0]; [0; 0; 1]]%R
       = Ok (MlpClfTest.Finite a)
    /\ (0 <= a <= 1)%R.
Proof.
  destruct (proj1 (final_acc_is_hit_fraction
                     [[1; 3; 2]; [5; 0; 0]]%R [[0; 1; 0]; [0; 0; 1]]%R))
    as [predicted [expected [a [Hp [He [Hacc [_ [Hrange _]]]]]]]].
  - discriminate.
  - reflexivity.
  - repeat constructor; discriminate.
  - repeat constructor; discriminate.
  - exists predicted, expected, a. auto.
Defined.

(** X25. The name [plot] saves the figure under is the script's path
    without its last three characters, whatever they are: a path that ends
    in a three-character extension loses exactly the extension, and a path
    of at most three characters leaves the empty name. *)
Theorem figure_name_drops_three (A : Type) (argv0 : list A) :
  (forall base ext,
      argv0 = base ++ ext -> length ext = 3%nat ->
      MlpClfTest.figure_name argv0 = base)
  /\ ((length argv0 <= 3)%nat -> MlpClfTest.figure_name argv0 = []).
Proof.
  unfold MlpClfTest.figure_name, Batching.slice, Batching.norm_index.
  split.
  - intros base ext -> Hext. rewrite length_app, Hext.
    destruct (Z.ltb_spec 0 0) as [|_]; [lia|].
    destruct (Z.ltb_spec (-3) 0) as [_|]; [|lia].
    rewrite Z.min_l by lia. cbn [Z.to_nat skipn].
    replace (Z.to_nat (Z.max 0 (-3 + Z.of_nat (length base + 3)) - 0))
      with (length base) by lia.
    rewrite firstn_app, Nat.sub_diag, firstn_all. cbn [firstn].
    apply app_nil_r.
  - intros Hlen.
    destruct (Z.ltb_spec 0 0) as [|_]; [lia|].
    destruct (Z.ltb_spec (-3) 0) as [_|]; [|lia].
    rewrite Z.min_l by lia.
    replace (Z.to_nat (Z.max 0 (-3 + Z.of_nat (length argv0)) - 0))
      with O by lia.
    reflexivity.
Qed.

Lemma figure_name_drops_three_witness :
  MlpClfTest.figure_name
    (list_ascii_of_string "mlp_clf_test.py")
  = list_ascii_of_string "mlp_clf_test".
Proof.
  apply (proj1 (@figure_name_drops_three
                  _ (list_ascii_of_string "mlp_clf_test.py"))
               (list_ascii_of_string "mlp_clf_test")
               (list_ascii_of_string ".py")); reflexivity.
Defined.


(** ** The logits of the convolutional graph and [Conv1DClassifier.predict] *)

Section ArrayFacts.

Import Conv1DClassifier.Forward.

Lemma all_some_map_Some {A B : Type} (f : A -> option B) (g : A -> B)
      (l : list A) :
  (forall a, In a l -> f a = Some (g a)) ->
  all_some (map f l) = Some (map g l).
Proof.
  induction l as [|a l IH]; intros Hf; trivial.
  cbn [map all_some]. rewrite (Hf a) by now left.
  rewrite IH by (intros; apply Hf; now right). reflexivity.
Qed.

Lemma as_vector_of_vector (v : TF.vector) : as_vector (of_vector v) = Some v.
Proof.
  unfold as_vector, of_vector. rewrite map_map.
  rewrite (all_some_map_Some _ (fun x => x)); [now rewrite map_id | trivial].
Qed.

Lemma as_matrix_of_matrix (m : TF.matrix) : as_matrix (of_matrix m) = Some m.
Proof.
  unfold as_matrix, of_matrix. rewrite map_map.
  rewrite (all_some_map_Some _ (fun x => x)); [now rewrite map_id|].
  intros v _. apply as_vector_of_vector.
Qed.

(** The pooled features of a batch of one example, squeezed, are a vector
    or a scalar, never a matrix. *)
Lemma as_matrix_squeeze_single (v : TF.vector) :
  v <> [] -> as_matrix (squeeze (of_tensor4 [[[v]]])) = None.
Proof.
  destruct v as [|a [|b v]]; [congruence | reflexivity | reflexivity].
Qed.

End ArrayFacts.

Section LogitsFacts.

Import Conv1DClassifier Conv1DClassifier.Forward.

Variable self : config.
Variable vars : variables.
Variable k : Z.
Hypothesis window : current_seq_len self = Some k.
Hypothesis window_pos : (1 <= k)%Z.
Hypothesis kernel_pos : (1 <= kernel_size self)%Z.
Hypothesis bias_shape : length (conv_b vars) = Z.to_nat (n_filters self).

Lemma feeds_X_rows (X : list (list Z)) :
  Forall (fun row : list Z =>
            Z.of_nat (length row) = seq_len self
            /\ Forall (fun id => (0 <= id < Z.of_nat (length (E vars)))%Z)
                      row) X -> feeds_X self X = true.
Proof.
  intros HX. unfold feeds_X. apply forallb_forall. intros row Hin.
  destruct (proj1 (Forall_forall _ _) HX row Hin) as [Hlen _].
  now apply Z.eqb_eq.
Qed.

Lemma embedding_lookup_rows (X : list (list Z)) :
  Forall (fun row : list Z =>
            Z.of_nat (length row) = seq_len self
            /\ Forall (fun id => (0 <= id < Z.of_nat (length (E vars)))%Z)
                      row) X ->
  exists embedded,
    embedding_lookup (E vars) X = Ok embedded
    /\ length embedded = length X
    /\ Forall (fun x => Z.of_nat (length x) = seq_len self) embedded.
Proof.
  intros HX. unfold embedding_lookup.
  apply mapM_ok_exists. intros row Hin.
  destruct (proj1 (Forall_forall _ _) HX row Hin) as [Hlen Hids].
  destruct (@mapM_ok_exists _ _
              (fun id =>
                 if ((0 <=? id) && (id <? Z.of_nat (length (E vars))))%Z
                 then Ok (nth (Z.to_nat id) (E vars) [])
                 else Err InvalidArgumentError)
              (fun _ => True) row) as [x [Hx [Hxlen _]]].
  { intros id Hid.
    pose proof (proj1 (Forall_forall _ _) Hids id Hid) as Hrange.
    cbv beta in Hrange.
    destruct (Z.leb_spec 0 id); [|lia].
    destruct (Z.ltb_spec id (Z.of_nat (length (E vars)))); [|lia].
    cbn [andb]. eauto. }
  exists x. split; trivial. now rewrite Hxlen.
Qed.

(** Up to the fully connected layer, a run fed with rows of [seq_len]
    known ids computes one vector of [n_filters] maxima per row. *)
Lemma logits_after_pooling (X : list (list Z)) :
  Forall (fun row : list Z =>
            Z.of_nat (length row) = seq_len self
            /\ Forall (fun id => (0 <= id < Z.of_nat (length (E vars)))%Z)
                      row) X ->
  exists pooled : list TF.vector,
    length pooled = length X
    /\ Forall (fun v => length v = Z.to_nat (n_filters self)) pooled
    /\ logits self vars X
       = (fc <- add_fc self
                       (squeeze (of_tensor4 (map (fun v => [[v]]) pooled)))
                       (fully_connected_w vars) (fully_connected_b vars) ;;
          Ok (add_output_layer self fc (w_out vars) (b_out vars)))%result.
Proof.
  intros HX. unfold logits. rewrite feeds_X_rows by trivial.
  cbn [negb].
  destruct (embedding_lookup_rows HX) as [embedded [-> [Hlen Hemb]]].
  cbn [bind].
  destruct (@add_conv1d_features self k embedded (conv_w vars) (conv_b vars))
    as [features [-> [Hflen Hfeatures]]]; trivial.
  cbn [bind]. unfold add_global_maxpool.
  rewrite (@global_maxpool_value self k features); trivial.
  2:{ revert Hfeatures. apply Forall_impl. now intros x [Hx _]. }
  cbn [bind].
  exists (map (fun x =>
                 map (fun c => TF.maximum (TF.column c x))
                     (seq 0 (Z.to_nat (n_filters self))))
              features).
  split.
  { etransitivity; [apply length_map|].
    etransitivity; [exact Hflen | exact Hlen]. }
  split.
  - rewrite Forall_map. apply Forall_forall. intros x _.
    now rewrite length_map, length_seq.
  - now rewrite map_map.
Qed.

(** Fed with one row, the run raises at the product of [add_fc]. *)
Lemma logits_one_row (x : list Z) :
  (1 <= n_filters self)%Z ->
  Forall (fun row : list Z =>
            Z.of_nat (length row) = seq_len self
            /\ Forall (fun id => (0 <= id < Z.of_nat (length (E vars)))%Z)
                      row) [x] ->
  logits self vars [x] = Err InvalidArgumentError.
Proof.
  intros Hnf HX.
  destruct (logits_after_pooling HX) as [pooled [Hlen [Hshape ->]]].
  destruct pooled as [|v [|v' pooled]]; try discriminate.
  cbn [map]. unfold add_fc, matmul_run.
  rewrite as_matrix_squeeze_single; trivial.
  inversion Hshape as [|? ? Hv _]; subst.
  intros ->. simpl in Hv. lia.
Qed.

(** Fed with two rows or more, with two filters or more and variables of
    the shapes they were created with, the run returns one row of
    [n_out] logits per fed row. *)
Lemma logits_many_rows (X : list (list Z)) :
  (2 <= length X)%nat -> (2 <= n_filters self)%Z ->
  length (fully_connected_w vars) = Z.to_nat (n_filters self) ->
  length (b_out vars) = Z.to_nat (n_out self) ->
  Forall (fun row : list Z =>
            Z.of_nat (length row) = seq_len self
            /\ Forall (fun id => (0 <= id < Z.of_nat (length (E vars)))%Z)
                      row) X ->
  exists m,
    logits self vars X = Ok m
    /\ length m = length X
    /\ Forall (fun row => length row = Z.to_nat (n_out self)) m.
Proof.
  intros Hrows Hnf HW Hb HX.
  destruct (logits_after_pooling HX) as [pooled [Hlen [Hshape ->]]].
  rewrite (@squeeze_pooled_batch (Z.to_nat (n_filters self))); trivial;
    try lia.
  unfold add_fc, matmul_run. rewrite as_matrix_of_matrix.
  assert (Hcols : forallb (fun row => Nat.eqb (length row)
                                              (length (fully_connected_w vars)))
                          pooled = true).
  { apply forallb_forall. intros v Hin. apply Nat.eqb_eq.
    rewrite HW. exact (proj1 (Forall_forall _ _) Hshape v Hin). }
  rewrite Hcols. cbn [bind]. eexists. split; [reflexivity|].
  unfold add_output_layer, TF.bias_add, TF.relu, TF.matmul.
  rewrite !length_map. split; trivial.
  rewrite !Forall_map. apply Forall_forall. intros v _.
  rewrite length_map, length_combine, length_map, length_seq. lia.
Qed.

End LogitsFacts.

Section ConvPredictRuns.

Import Conv1DClassifier.
Context `{Session}.

Lemma conv_predict_loop_ok (batches : list (list sample)) :
  (forall w f, (2 <= length (feed_X f))%nat ->
               exists r, run_logits w f = Ok r) ->
  Forall (fun b => (2 <= length b)%nat) batches ->
  forall s, exists s', for_each predict_batch batches s = Ok s'.
Proof.
  intros Hruns. induction 1 as [|b batches Hb _ IH]; intros s.
  - exists s. reflexivity.
  - cbn [for_each]. unfold predict_batch at 1. destruct s as [w l].
    destruct (Hruns w {| feed_X := b; feed_Y := None; feed_lr := None;
                         feed_keep_prob := Some 1%R |} Hb) as [[w1 p] ->].
    cbn [bind]. apply IH.
Qed.

Lemma gen_batch_one_row_first {A : Type} (x : A) (rest : list A) :
  exists batches, Batching.gen_batch (x :: rest) 1 = Ok ([x] :: batches).
Proof.
  rewrite gen_batch_chunks by lia. cbn. eauto.
Qed.

End ConvPredictRuns.

(** C8. [Conv1DClassifier.predict] does not return the logits of every
    non-empty [X_test] and positive [batch_size]: the unqualified
    [tf.squeeze] of [add_global_maxpool] drops the batch axis of a batch of
    one row together with the pooled axes, and the product of [add_fc]
    then raises [InvalidArgumentError]. For a configuration with a window
    and sizes of at least 1, the logits of the graph fail on every feed of
    one row of [seq_len] known ids. So in a session whose logits runs raise
    on one row and return on more, [predict] raises whenever the last
    batch has one row: with a batch size of 1, and when one row is left
    after full batches. With 3 rows in batches of 2, and with 1 row, the
    graph of a small configuration raises; with the first 2 rows it
    returns 2 rows of logits. *)
Theorem conv_predict_raises_on_one_row_batch :
  (forall (self : Conv1DClassifier.config)
          (vars : Conv1DClassifier.Forward.variables) (k : Z) (x : list Z),
      Conv1DClassifier.current_seq_len self = Some k ->
      (1 <= k)%Z ->
      (1 <= Conv1DClassifier.kernel_size self)%Z ->
      (1 <= Conv1DClassifier.n_filters self)%Z ->
      length (Conv1DClassifier.Forward.conv_b vars)
      = Z.to_nat (Conv1DClassifier.n_filters self) ->
      Z.of_nat (length x) = Conv1DClassifier.seq_len self ->
      Forall (fun id =>
                (0 <= id
                 < Z.of_nat (length (Conv1DClassifier.Forward.E vars)))%Z) x ->
      Conv1DClassifier.Forward.logits self vars [x]
      = Err InvalidArgumentError)
  /\
  (forall (Sess : Conv1DClassifier.Session),
      (forall w f, length (Conv1DClassifier.feed_X f) = 1%nat ->
                   Conv1DClassifier.run_logits w f = Err InvalidArgumentError) ->
      (forall w x rest,
          Conv1DClassifier.predict w (x :: rest) 1 = Err InvalidArgumentError)
      /\ ((forall w f, (2 <= length (Conv1DClassifier.feed_X f))%nat ->
                       exists r, Conv1DClassifier.run_logits w f = Ok r) ->
          forall w full x (q : nat) batch_size,
            (2 <= batch_size)%Z ->
            Z.of_nat (length full) = (Z.of_nat q * batch_size)%Z ->
            Conv1DClassifier.predict w (full ++ [x]) batch_size
            = Err InvalidArgumentError))
  /\
  (Conv1DClassifier.predict (H := Toy.graph_session) O
                            [[1; 2; 3]; [4; 5; 6]; [7; 8; 9]]%Z 2
   = Err InvalidArgumentError
   /\ Conv1DClassifier.predict (H := Toy.graph_session) O [[1; 2; 3]]%Z 1
      = Err InvalidArgumentError
   /\ exists logits,
       Conv1DClassifier.predict (H := Toy.graph_session) O
                                [[1; 2; 3]; [4; 5; 6]]%Z 2
       = Ok (O, logits)
       /\ length logits = 2%nat).
Proof.
  split; [|split].
  - intros self vars k x Hk Hk1 Hks Hnf Hb Hlen Hids.
    apply (@logits_one_row self vars k); trivial.
    constructor; [|constructor]. now split.
  - intros Sess Hone. split.
    + intros w x rest.
      unfold Conv1DClassifier.predict, Conv1DClassifier.predict_batches,
        Conv1DClassifier.gen_batch.
      destruct (gen_batch_one_row_first x rest) as [batches ->].
      cbn [bind].
      rewrite (conv_predict_loop_raises [] [x] batches
                 (e := InvalidArgumentError)); trivial.
      * intros w0. now apply Hone.
      * intros w0 b' [].
    + intros Hmany w full x q bs Hbs Hfull.
      unfold Conv1DClassifier.predict, Conv1DClassifier.predict_batches,
        Conv1DClassifier.gen_batch.
      destruct (@gen_batch_app_tail _ bs full [x] q)
        as [batches [_ [[Hrows _] ->]]]; trivial;
        [lia | cbn [length]; lia |].
      cbn [bind].
      rewrite (conv_predict_loop_raises batches [x] []
                 (e := InvalidArgumentError)); trivial.
      * intros w0. now apply Hone.
      * intros w0 b' Hin. apply Hmany. cbn [Conv1DClassifier.feed_X].
        pose proof (proj1 (Forall_forall _ _) Hrows b' Hin) as Hb'.
        cbv beta in Hb'. lia.
  - split; [reflexivity|]. split; [reflexivity|].
    eexists. split; reflexivity.
Qed.

(** X27. The logits of the convolutional graph, stage by stage: for a
    configuration with a window and sizes of at least 1, two filters or
    more and variables of the shapes they were created with, a run fed
    with two or more rows of [seq_len] known ids, at a keep probability of
    1, returns one row of [n_out] logits per fed row; fed with rows of
    another length it is rejected with [ValueError] before anything
    runs. *)
Theorem conv_logits_shape
        (self : Conv1DClassifier.config)
        (vars : Conv1DClassifier.Forward.variables) (k : Z)
        (X : list (list Z)) :
  Conv1DClassifier.current_seq_len self = Some k ->
  (1 <= k)%Z ->
  (1 <= Conv1DClassifier.kernel_size self)%Z ->
  (2 <= Conv1DClassifier.n_filters self)%Z ->
  length (Conv1DClassifier.Forward.conv_b vars)
  = Z.to_nat (Conv1DClassifier.n_filters self) ->
  length (Conv1DClassifier.Forward.fully_connected_w vars)
  = Z.to_nat (Conv1DClassifier.n_filters self) ->
  length (Conv1DClassifier.Forward.b_out vars)
  = Z.to_nat (Conv1DClassifier.n_out self) ->
  ((2 <= length X)%nat ->
   Forall (fun row =>
             Z.of_nat (length row) = Conv1DClassifier.seq_len self
             /\ Forall (fun id =>
                          (0 <= id
                           < Z.of_nat
                               (length (Conv1DClassifier.Forward.E vars)))%Z)
                       row) X ->
   exists m,
     Conv1DClassifier.Forward.logits self vars X = Ok m
     /\ length m = length X
     /\ Forall (fun row => length row = Z.to_nat (Conv1DClassifier.n_out self))
               m)
  /\ (Exists (fun row =>
                Z.of_nat (length row) <> Conv1DClassifier.seq_len self) X ->
      Conv1DClassifier.Forward.logits self vars X = Err ValueError).
Proof.
  intros Hk Hk1 Hks Hnf Hb HW Hbo. split.
  - intros Hrows HX. now apply (@logits_many_rows self vars k).
  - intros Hbad. unfold Conv1DClassifier.Forward.logits.
    assert (Hfeed : Conv1DClassifier.Forward.feeds_X self X = false).
    { unfold Conv1DClassifier.Forward.feeds_X.
      apply Exists_exists in Hbad. destruct Hbad as [row [Hin Hlen]].
      destruct (forallb _ X) eqn:Eall; trivial.
      pose proof (proj1 (forallb_forall _ _) Eall row Hin) as Hrow.
      cbv beta in Hrow. apply Z.eqb_eq in Hrow. congruence. }
    now rewrite Hfeed.
Qed.

Lemma conv_logits_shape_witness :
  exists m,
    Conv1DClassifier.Forward.logits
      Toy.small_conv_config Toy.small_variables [[1; 2; 3]; [4; 5; 6]]%Z
    = Ok m
    /\ length m = 2%nat.
Proof.
  destruct (proj1 (@conv_logits_shape
                     Toy.small_conv_config Toy.small_variables 2%Z
                     [[1; 2; 3]; [4; 5; 6]]%Z
                     eq_refl ltac:(lia) ltac:(cbn; lia) ltac:(cbn; lia)
                     eq_refl eq_refl eq_refl))
    as [m [Hm [Hlen _]]].
  - cbn. lia.
  - repeat (constructor; try (cbn; lia)).
  - exists m. split; assumption.
Defined.

(** X28. When [Conv1DClassifier.predict] returns, in a session whose
    logits have one row of [n_out] entries per fed row, the test set was
    not empty and the batch size positive, and the result is the raw
    logits, a matrix of reals of shape ([len(X_test)], [n_out]): the
    concatenation, in input order, of the per-batch logits, row [i] being
    row [i mod batch_size] of the result of batch [i / batch_size]; no
    argmax is taken. It does return when the batch size is at least 2, no
    batch is left with one row and the runs return on every feed of two
    rows or more. *)
Theorem conv_predict_logits
        (Sess : Conv1DClassifier.Session) (self : Conv1DClassifier.config)
        (w : Conv1DClassifier.world) (X_test : list Conv1DClassifier.sample)
        (batch_size : Z) :
  (forall w0 w1 f logits,
      Conv1DClassifier.run_logits w0 f = Ok (w1, logits) ->
      length logits = length (Conv1DClassifier.feed_X f)
      /\ Forall (fun row => length row
                            = Z.to_nat (Conv1DClassifier.n_out self)) logits) ->
  (forall w' logits,
      Conv1DClassifier.predict w X_test batch_size = Ok (w', logits) ->
      X_test <> [] /\ (0 < batch_size)%Z
      /\ exists s batches,
          Conv1DClassifier.gen_batch X_test batch_size = Ok batches
          /\ Conv1DClassifier.predict_batches w X_test batch_size = Ok s
          /\ Forall2 Conv1DClassifier.logits_of batches (snd s)
          /\ w' = fst s
          /\ logits = concat (snd s)
          /\ length logits = length X_test
          /\ Forall (fun row => length row
                                = Z.to_nat (Conv1DClassifier.n_out self))
                    logits
          /\ forall i, (i < length X_test)%nat ->
               let n := Z.to_nat batch_size in
               nth i logits [] = nth (i mod n) (nth (i / n) (snd s) []) [])
  /\ (X_test <> [] -> (2 <= batch_size)%Z ->
      (Z.of_nat (length X_test) mod batch_size <> 1)%Z ->
      (forall w0 f, (2 <= length (Conv1DClassifier.feed_X f))%nat ->
                    exists r, Conv1DClassifier.run_logits w0 f = Ok r) ->
      exists w' logits,
        Conv1DClassifier.predict w X_test batch_size = Ok (w', logits)).
Proof.
  intros Hshape. split.
  - intros w' logits Hpredict.
    unfold Conv1DClassifier.predict in Hpredict.
    destruct (Conv1DClassifier.predict_batches w X_test batch_size)
      as [s|] eqn:Hbatches; [|discriminate].
    cbn [bind] in Hpredict.
    unfold Conv1DClassifier.predict_batches, Conv1DClassifier.gen_batch
      in Hbatches.
    destruct (Batching.gen_batch X_test batch_size) as [batches|] eqn:Hgen;
      [|discriminate].
    cbn [bind] in Hbatches.
    destruct (conv_predict_loop_inv _ _ Hbatches) as [preds [Hlist Hall]].
    cbn [snd app] in Hlist. rewrite Hlist in Hpredict.
    destruct preds as [|p preds]; [discriminate|].
    cbn [Np.concatenate bind] in Hpredict. injection Hpredict as <- <-.
    assert (Hbs : (0 < batch_size)%Z).
    { destruct (Z_lt_le_dec 0 batch_size) as [|Hle]; trivial.
      destruct (Z.eq_dec batch_size 0) as [->|Hne].
      - rewrite gen_batch_zero in Hgen. discriminate.
      - rewrite gen_batch_negative in Hgen by lia. injection Hgen as <-.
        inversion Hall. }
    assert (HX : X_test <> []).
    { intros ->. rewrite gen_batch_nil in Hgen by lia. injection Hgen as <-.
      inversion Hall. }
    rewrite gen_batch_chunks in Hgen by trivial. injection Hgen as <-.
    assert (Hn : (0 < Z.to_nat batch_size)%nat) by lia.
    assert (Hlens : Forall2 (fun b q => length q = length b)
                            (chunks (length X_test) (Z.to_nat batch_size)
                                    X_test)
                            (p :: preds)).
    { revert Hall. apply Forall2_impl.
      intros b q [w0 [w1 [f [<- [_ [_ Hrun]]]]]].
      exact (proj1 (Hshape _ _ _ _ Hrun)). }
    assert (Hrows : Forall (Forall (fun row : list R =>
                                      length row
                                      = Z.to_nat (Conv1DClassifier.n_out self)))
                           (p :: preds)).
    { revert Hall. apply Forall2_right.
      intros b q [w0 [w1 [f [_ [_ [_ Hrun]]]]]].
      exact (proj2 (Hshape _ _ _ _ Hrun)). }
    destruct (nth_concat_batches (@nil R) Hn X_test (le_n _) Hlens)
      as [Hlen Hnth].
    split; trivial. split; trivial.
    exists s, (chunks (length X_test) (Z.to_nat batch_size) X_test).
    rewrite Hlist. repeat split; trivial.
    + apply gen_batch_chunks; trivial.
    + change (p ++ concat preds) with (concat (p :: preds)).
      now apply Forall_concat.
  - intros HX Hbs Hmod Hruns.
    unfold Conv1DClassifier.predict, Conv1DClassifier.predict_batches,
      Conv1DClassifier.gen_batch.
    assert (Hpos : (0 < batch_size)%Z) by lia.
    destruct (gen_batch_nonempty Hpos HX) as [b [batches Hgen]].
    destruct (gen_batch_rows X_test Hbs Hmod) as [batches' [Hgen' Hrows]].
    rewrite Hgen in Hgen'. injection Hgen' as <-.
    rewrite Hgen. cbn [bind].
    destruct (conv_predict_loop_ok Hruns Hrows (w, [])) as [s Hloop].
    rewrite Hloop. cbn [bind].
    destruct (conv_predict_loop_inv _ _ Hloop) as [preds [Hlist Hall]].
    cbn [snd app] in Hlist. rewrite Hlist.
    inversion Hall; subst. cbn [Np.concatenate bind]. eauto.
Qed.

Lemma conv_predict_logits_witness :
  exists w' logits,
    Conv1DClassifier.predict (H := Toy.conv_session) O [5; 0; 7; 2]%Z 2
    = Ok (w', logits).
Proof.
  apply (fun H => proj2 (@conv_predict_logits Toy.conv_session Toy.conv_config
                                              O [5; 0; 7; 2]%Z 2%Z H)).
  - intros w0 w1 f logits. cbn.
    destruct (Nat.eqb _ 1); [discriminate|]. intros [= _ <-]. split.
    + apply length_map.
    + apply Forall_forall. intros row Hin. apply in_map_iff in Hin.
      destruct Hin as [x [<- _]]. reflexivity.
  - discriminate.
  - lia.
  - vm_compute. discriminate.
  - apply toy_conv_logits_run.
Defined.
